(** * Terminal Focus: session store, ingestion endpoint and refresh signal

    A shallow embedding of [terminal_focus.py].  Python objects that are
    shared and mutated in place (the [_sessions] dict and the per-session
    dicts it holds, the dicts returned by [get_all]) live in an explicit
    heap, so that aliasing between the store and its snapshots is a
    property of the model and not an assumption.  Library functions of the
    Python runtime ([str.strip], [str.isdigit], [str.lower], [str()],
    [json.loads], [subprocess.run]) are modelled in [Module Py]. *)

From Stdlib Require Import ZArith NArith String Ascii DecimalString List Bool Lia.
From stdpp Require Import base option list numbers countable gmap fin_maps fin_sets.

Local Open Scope N_scope.

(** ** Python runtime: strings *)

Module Py.

(** A [str] is a sequence of Unicode code points. *)
Definition codepoint := N.
Abbreviation pystr := (list N).

(** A string literal of the source (all literals used are Basic Latin). *)
Definition lit (s : string) : pystr := map N_of_ascii (list_ascii_of_string s).

Definition in_range (c : codepoint) (r : N * N) : bool :=
  (fst r <=? c) && (c <=? snd r).

(** Code points for which [str.isspace] holds (Unicode 14, CPython 3.11):
    bidirectional class WS, B or S, or category Zs. *)
Definition whitespace_ranges : list (N * N) :=
  [
    (9, 13); (28, 32); (133, 133); (160, 160); (5760, 5760); (8192, 8202);
    (8232, 8233); (8239, 8239); (8287, 8287); (12288, 12288)
  ].

Definition isspace (c : codepoint) : bool := existsb (in_range c) whitespace_ranges.

(** Code points with Numeric_Type Decimal or Digit, the ones [str.isdigit]
    accepts (Unicode 14, CPython 3.11). *)
Definition digit_ranges : list (N * N) :=
  [
    (48, 57); (178, 179); (185, 185); (1632, 1641); (1776, 1785); (1984, 1993);
    (2406, 2415); (2534, 2543); (2662, 2671); (2790, 2799); (2918, 2927); (3046, 3055);
    (3174, 3183); (3302, 3311); (3430, 3439); (3558, 3567); (3664, 3673); (3792, 3801);
    (3872, 3881); (4160, 4169); (4240, 4249); (4969, 4977); (6112, 6121); (6160, 6169);
    (6470, 6479); (6608, 6618); (6784, 6793); (6800, 6809); (6992, 7001); (7088, 7097);
    (7232, 7241); (7248, 7257); (8304, 8304); (8308, 8313); (8320, 8329); (9312, 9320);
    (9332, 9340); (9352, 9360); (9450, 9450); (9461, 9469); (9471, 9471); (10102, 10110);
    (10112, 10120); (10122, 10130); (42528, 42537); (43216, 43225); (43264, 43273); (43472, 43481);
    (43504, 43513); (43600, 43609); (44016, 44025); (65296, 65305); (66720, 66729); (68160, 68163);
    (68912, 68921); (69216, 69224); (69714, 69722); (69734, 69743); (69872, 69881); (69942, 69951);
    (70096, 70105); (70384, 70393); (70736, 70745); (70864, 70873); (71248, 71257); (71360, 71369);
    (71472, 71481); (71904, 71913); (72016, 72025); (72784, 72793); (73040, 73049); (73120, 73129);
    (92768, 92777); (92864, 92873); (93008, 93017); (120782, 120831); (123200, 123209); (123632, 123641);
    (125264, 125273); (127232, 127242); (130032, 130041)
  ].

Definition isdigit_cp (c : codepoint) : bool := existsb (in_range c) digit_ranges.

(** [s.isdigit()]: every character is a digit and there is at least one. *)
Definition isdigit (s : pystr) : bool :=
  match s with
  | [] => false
  | _ => forallb isdigit_cp s
  end.

(** [s.strip()]: leading and trailing whitespace removed. *)
Fixpoint lstrip (s : pystr) : pystr :=
  match s with
  | [] => []
  | c :: s' => if isspace c then lstrip s' else s
  end.

Definition rstrip (s : pystr) : pystr := rev (lstrip (rev s)).

Definition strip (s : pystr) : pystr := rstrip (lstrip s).

(** Simple lowercase mappings, as runs [(lo, hi, step, image of lo)]: a code
    point [c] with [lo <= c <= hi] and [step] dividing [c - lo] maps to
    [c - lo + image] (Unicode 14, CPython 3.11). *)
Definition lower_runs : list (N * N * N * N) :=
  [
    (65, 90, 1, 97); (192, 214, 1, 224); (216, 222, 1, 248); (256, 302, 2, 257);
    (306, 310, 2, 307); (313, 327, 2, 314); (330, 374, 2, 331); (376, 376, 1, 255);
    (377, 381, 2, 378); (385, 385, 1, 595); (386, 388, 2, 387); (390, 390, 1, 596);
    (391, 391, 1, 392); (393, 394, 1, 598); (395, 395, 1, 396); (398, 398, 1, 477);
    (399, 399, 1, 601); (400, 400, 1, 603); (401, 401, 1, 402); (403, 403, 1, 608);
    (404, 404, 1, 611); (406, 406, 1, 617); (407, 407, 1, 616); (408, 408, 1, 409);
    (412, 412, 1, 623); (413, 413, 1, 626); (415, 415, 1, 629); (416, 420, 2, 417);
    (422, 422, 1, 640); (423, 423, 1, 424); (425, 425, 1, 643); (428, 428, 1, 429);
    (430, 430, 1, 648); (431, 431, 1, 432); (433, 434, 1, 650); (435, 437, 2, 436);
    (439, 439, 1, 658); (440, 440, 1, 441); (444, 444, 1, 445); (452, 452, 1, 454);
    (453, 453, 1, 454); (455, 455, 1, 457); (456, 456, 1, 457); (458, 458, 1, 460);
    (459, 475, 2, 460); (478, 494, 2, 479); (497, 497, 1, 499); (498, 500, 2, 499);
    (502, 502, 1, 405); (503, 503, 1, 447); (504, 542, 2, 505); (544, 544, 1, 414);
    (546, 562, 2, 547); (570, 570, 1, 11365); (571, 571, 1, 572); (573, 573, 1, 410);
    (574, 574, 1, 11366); (577, 577, 1, 578); (579, 579, 1, 384); (580, 580, 1, 649);
    (581, 581, 1, 652); (582, 590, 2, 583); (880, 882, 2, 881); (886, 886, 1, 887);
    (895, 895, 1, 1011); (902, 902, 1, 940); (904, 906, 1, 941); (908, 908, 1, 972);
    (910, 911, 1, 973); (913, 929, 1, 945); (931, 939, 1, 963); (975, 975, 1, 983);
    (984, 1006, 2, 985); (1012, 1012, 1, 952); (1015, 1015, 1, 1016); (1017, 1017, 1, 1010);
    (1018, 1018, 1, 1019); (1021, 1023, 1, 891); (1024, 1039, 1, 1104); (1040, 1071, 1, 1072);
    (1120, 1152, 2, 1121); (1162, 1214, 2, 1163); (1216, 1216, 1, 1231); (1217, 1229, 2, 1218);
    (1232, 1326, 2, 1233); (1329, 1366, 1, 1377); (4256, 4293, 1, 11520); (4295, 4295, 1, 11559);
    (4301, 4301, 1, 11565); (5024, 5103, 1, 43888); (5104, 5109, 1, 5112); (7312, 7354, 1, 4304);
    (7357, 7359, 1, 4349); (7680, 7828, 2, 7681); (7838, 7838, 1, 223); (7840, 7934, 2, 7841);
    (7944, 7951, 1, 7936); (7960, 7965, 1, 7952); (7976, 7983, 1, 7968); (7992, 7999, 1, 7984);
    (8008, 8013, 1, 8000); (8025, 8031, 2, 8017); (8040, 8047, 1, 8032); (8072, 8079, 1, 8064);
    (8088, 8095, 1, 8080); (8104, 8111, 1, 8096); (8120, 8121, 1, 8112); (8122, 8123, 1, 8048);
    (8124, 8124, 1, 8115); (8136, 8139, 1, 8050); (8140, 8140, 1, 8131); (8152, 8153, 1, 8144);
    (8154, 8155, 1, 8054); (8168, 8169, 1, 8160); (8170, 8171, 1, 8058); (8172, 8172, 1, 8165);
    (8184, 8185, 1, 8056); (8186, 8187, 1, 8060); (8188, 8188, 1, 8179); (8486, 8486, 1, 969);
    (8490, 8490, 1, 107); (8491, 8491, 1, 229); (8498, 8498, 1, 8526); (8544, 8559, 1, 8560);
    (8579, 8579, 1, 8580); (9398, 9423, 1, 9424); (11264, 11311, 1, 11312); (11360, 11360, 1, 11361);
    (11362, 11362, 1, 619); (11363, 11363, 1, 7549); (11364, 11364, 1, 637); (11367, 11371, 2, 11368);
    (11373, 11373, 1, 593); (11374, 11374, 1, 625); (11375, 11375, 1, 592); (11376, 11376, 1, 594);
    (11378, 11378, 1, 11379); (11381, 11381, 1, 11382); (11390, 11391, 1, 575); (11392, 11490, 2, 11393);
    (11499, 11501, 2, 11500); (11506, 11506, 1, 11507); (42560, 42604, 2, 42561); (42624, 42650, 2, 42625);
    (42786, 42798, 2, 42787); (42802, 42862, 2, 42803); (42873, 42875, 2, 42874); (42877, 42877, 1, 7545);
    (42878, 42886, 2, 42879); (42891, 42891, 1, 42892); (42893, 42893, 1, 613); (42896, 42898, 2, 42897);
    (42902, 42920, 2, 42903); (42922, 42922, 1, 614); (42923, 42923, 1, 604); (42924, 42924, 1, 609);
    (42925, 42925, 1, 620); (42926, 42926, 1, 618); (42928, 42928, 1, 670); (42929, 42929, 1, 647);
    (42930, 42930, 1, 669); (42931, 42931, 1, 43859); (42932, 42946, 2, 42933); (42948, 42948, 1, 42900);
    (42949, 42949, 1, 642); (42950, 42950, 1, 7566); (42951, 42953, 2, 42952); (42960, 42960, 1, 42961);
    (42966, 42968, 2, 42967); (42997, 42997, 1, 42998); (65313, 65338, 1, 65345); (66560, 66599, 1, 66600);
    (66736, 66771, 1, 66776); (66928, 66938, 1, 66967); (66940, 66954, 1, 66979); (66956, 66962, 1, 66995);
    (66964, 66965, 1, 67003); (68736, 68786, 1, 68800); (71840, 71871, 1, 71872); (93760, 93791, 1, 93792);
    (125184, 125217, 1, 125218)
  ].

Fixpoint lower_simple (runs : list (N * N * N * N)) (c : codepoint) : codepoint :=
  match runs with
  | [] => c
  | (lo, hi, step, img) :: runs' =>
      if (lo <=? c) && (c <=? hi) && ((c - lo) mod step =? 0)
      then c - lo + img
      else lower_simple runs' c
  end.

(** Full lowercase mapping of one code point.  U+0130 is the only code point
    whose lowercase has two characters.  CPython lowers U+03A3 to U+03C2
    in word-final position and to U+03C3 elsewhere; the table gives U+03C3
    in both positions. *)
Definition lower_cp (c : codepoint) : pystr :=
  if c =? 304 then [105; 775] else [lower_simple lower_runs c].

(** [s.lower()] *)
Definition lower (s : pystr) : pystr := concat (map lower_cp s).

(** [str(n)] for an [int]. *)
Definition str_int (n : Z) : pystr := lit (NilZero.string_of_int (Z.to_int n)).

(** What [json.loads] yields for a member of a JSON object.  The handler only
    applies [str()] to it.  A float, a list and a nested dict are carried by
    the text [str()] returns for them, which the runtime computes. *)
Inductive jvalue :=
  | JNone
  | JBool (b : bool)
  | JInt (n : Z)
  | JStr (s : pystr)
  | JFloat (repr : pystr)
  | JList (repr : pystr)
  | JDict (repr : pystr).

(** [str(v)] *)
Definition str (v : jvalue) : pystr :=
  match v with
  | JNone => lit "None"
  | JBool true => lit "True"
  | JBool false => lit "False"
  | JInt n => str_int n
  | JStr s => s
  | JFloat r | JList r | JDict r => r
  end.

(** The type of a JSON document that is not an object, by its Python name. *)
Inductive pytype := NoneType | bool_t | int_t | float_t | str_t | list_t.

Definition type_name (ty : pytype) : pystr :=
  match ty with
  | NoneType => lit "NoneType"
  | bool_t => lit "bool"
  | int_t => lit "int"
  | float_t => lit "float"
  | str_t => lit "str"
  | list_t => lit "list"
  end.

(** A JSON document as [json.loads] returns it: a dict, or an object of
    another type. *)
Inductive document :=
  | Dict (members : gmap pystr jvalue)
  | NotDict (ty : pytype).

(** ** Python runtime: exceptions *)

Inductive exn_class :=
  | JSONDecodeError
  | UnicodeDecodeError
  | ValueError
  | AttributeError
  | KeyError
  | TypeError
  | RecursionError
  | OSError
  | TimeoutExpired
  | SystemError
  | KeyboardInterrupt.

(** An exception object: its class and the text [str(e)] gives. *)
Record exn := Exn { exn_class_of : exn_class; exn_str : pystr }.

(** [isinstance(e, Exception)]: every class above derives from [Exception]
    except [KeyboardInterrupt], which derives from [BaseException] only. *)
Definition is_Exception (e : exn) : bool :=
  match exn_class_of e with
  | KeyboardInterrupt => false
  | _ => true
  end.

Definition is_class (c : exn_class) (e : exn) : bool :=
  match c, exn_class_of e with
  | JSONDecodeError, JSONDecodeError
  | UnicodeDecodeError, UnicodeDecodeError
  | ValueError, (ValueError | JSONDecodeError | UnicodeDecodeError)
  | AttributeError, AttributeError
  | KeyError, KeyError
  | TypeError, TypeError
  | RecursionError, RecursionError
  | OSError, OSError
  | TimeoutExpired, TimeoutExpired
  | SystemError, SystemError
  | KeyboardInterrupt, KeyboardInterrupt => true
  | _, _ => false
  end.

End Py.


Import Py.

(** ** Heap of dict objects *)

Abbreviation loc := positive.

(** What a dict of the program holds under a key: an immutable string or
    boolean, or a reference to another dict. *)
Inductive value :=
  | VStr (s : pystr)
  | VBool (b : bool)
  | VRef (l : loc).

#[global] Instance value_eq_dec : EqDecision value.
Proof. solve_decision. Defined.

(** ** Menu bar state *)

Inductive callback :=
  | click_handler (window_id : pystr)
  | quit_callback.

Inductive menu_item :=
  | MenuItem (label : pystr) (cb : option callback)
  | separator.

(** ** Observable actions, in program order *)

Inductive event :=
  | Call_upsert (window_id event_title event_msg : pystr)
  | Call_remove (window_id : pystr)
  | Call_mark_all_seen
  | Respond (status_code : Z) (body : list (pystr * pystr))
  | Respond_head (status_code : Z)
  | Call_schedule_refresh
  | Subprocess_run (argv : list pystr) (timeout : Z)
  | Rebuild_menu.

(** ** The world: the heap, the fields of the one [TerminalFocusApp], and the
    actions performed so far *)

Record world := World {
  heap : gmap loc (gmap pystr value);
  dirty : bool;
  title : pystr;
  menu : list menu_item;
  session_keys : list pystr;
  trace : list event
}.

Definition set_heap (h : gmap loc (gmap pystr value)) (w : world) : world :=
  World h (dirty w) (title w) (menu w) (session_keys w) (trace w).
Definition set_dirty (b : bool) (w : world) : world :=
  World (heap w) b (title w) (menu w) (session_keys w) (trace w).
Definition set_title (t : pystr) (w : world) : world :=
  World (heap w) (dirty w) t (menu w) (session_keys w) (trace w).
Definition set_menu (m : list menu_item) (w : world) : world :=
  World (heap w) (dirty w) (title w) m (session_keys w) (trace w).
Definition set_session_keys (k : list pystr) (w : world) : world :=
  World (heap w) (dirty w) (title w) (menu w) k (trace w).
Definition log (e : event) (w : world) : world :=
  World (heap w) (dirty w) (title w) (menu w) (session_keys w) (trace w ++ [e]).

(** ** Computations: state passing with exceptions.  The state survives a
    raised exception, as in Python. *)

Inductive result (A : Type) :=
  | Ok (a : A)
  | Raise (e : exn).
Arguments Ok {A} a.
Arguments Raise {A} e.

Definition M (A : Type) : Type := world → result A * world.

#[global] Instance M_ret : MRet M := λ A a w, (Ok a, w).
#[global] Instance M_bind : MBind M := λ A B f m w,
  match m w with
  | (Ok a, w') => f a w'
  | (Raise e, w') => (Raise e, w')
  end.

Definition raise {A} (e : exn) : M A := λ w, (Raise e, w).
Definition read {A} (f : world → A) : M A := λ w, (Ok (f w), w).
Definition modify (f : world → world) : M unit := λ w, (Ok tt, f w).
Definition emit (e : event) : M unit := modify (log e).

(** [try: body  except C1: h1  except C2: h2 ...]: the first clause whose
    class matches handles the exception; an exception raised by a handler is
    not handled here. *)
Fixpoint handle {A} (clauses : list ((exn → bool) * (exn → M A))) (e : exn) : M A :=
  match clauses with
  | [] => raise e
  | (matches, handler) :: clauses' => if matches e then handler e else handle clauses' e
  end.

Definition try_except {A} (body : M A) (clauses : list ((exn → bool) * (exn → M A))) : M A :=
  λ w, match body w with
       | (Raise e, w') => handle clauses e w'
       | r => r
       end.

(** *** Dict operations *)

Definition alloc (d : gmap pystr value) : M value := λ w,
  let l := fresh (dom (heap w)) in (Ok (VRef l), set_heap (<[l := d]> (heap w)) w).

(** Reading through a reference.  In Python a reference always leads to a
    live object; a heap that lacks it is answered with [SystemError], and an
    object that is not a dict with [TypeError]. *)
Definition load (v : value) : M (gmap pystr value) := λ w,
  match v with
  | VRef l =>
      match heap w !! l with
      | Some d => (Ok d, w)
      | None => (Raise (Exn SystemError (lit "dangling reference")), w)
      end
  | _ => (Raise (Exn TypeError (lit "not a dict")), w)
  end.

Definition store (v : value) (d : gmap pystr value) : M unit := λ w,
  match v with
  | VRef l => (Ok tt, set_heap (<[l := d]> (heap w)) w)
  | _ => (Raise (Exn TypeError (lit "not a dict")), w)
  end.

(** [d[k] = x] *)
Definition setitem (d : value) (k : pystr) (x : value) : M unit :=
  c ← load d; store d (<[k := x]> c).

(** [d[k]] *)
Definition getitem (d : value) (k : pystr) : M value :=
  c ← load d;
  match c !! k with
  | Some x => mret x
  | None => raise (Exn KeyError (lit "'" ++ k ++ lit "'"))
  end.

(** [d.pop(k, None)], result dropped *)
Definition pop_default (d : value) (k : pystr) : M unit :=
  c ← load d; store d (delete k c).

(** [d.items()], [d.values()], [len(d)] *)
Definition items (d : value) : M (list (pystr * value)) :=
  c ← load d; mret (map_to_list c).
Definition values (d : value) : M (list value) :=
  c ← load d; mret (snd <$> map_to_list c).
Definition len (d : value) : M nat :=
  c ← load d; mret (size c).

(** [dict(d)]: a new dict with the same items *)
Definition dict_copy (d : value) : M value :=
  c ← load d; alloc c.

(** Truth value of an object *)
Definition truthy (v : value) : M bool :=
  match v with
  | VBool b => mret b
  | VStr s => mret (match s with [] => false | _ => true end)
  | VRef _ => n ← len v; mret (negb (Nat.eqb n 0))
  end.

(** [for x in xs: body(x)] *)
Fixpoint for_each {A} (xs : list A) (body : A → M unit) : M unit :=
  match xs with
  | [] => mret tt
  | x :: xs' => body x;; for_each xs' body
  end.

(** ** SessionStore *)

Module SessionStore.

(** The object: [_sessions] refers to the dict window_id -> session dict.
    Each method runs under [_lock]; a method is one atomic step here. *)
Record t := Build { _sessions : value }.

Definition session_dict (event_title event_msg : pystr) (unseen : bool) : gmap pystr value :=
  <[lit "event_title" := VStr event_title]>
    (<[lit "event_msg" := VStr event_msg]>
       (<[lit "unseen" := VBool unseen]> ∅)).

Definition __init__ : M t :=
  d ← alloc ∅; mret (Build d).

Definition upsert (self : t) (window_id event_title event_msg : pystr) : M unit :=
  emit (Call_upsert window_id event_title event_msg);;
  s ← alloc (session_dict event_title event_msg true);
  setitem (_sessions self) window_id s.

Definition remove (self : t) (window_id : pystr) : M unit :=
  emit (Call_remove window_id);;
  pop_default (_sessions self) window_id.

Definition mark_all_seen (self : t) : M unit :=
  emit Call_mark_all_seen;;
  vs ← values (_sessions self);
  for_each vs (λ session, setitem session (lit "unseen") (VBool false)).

Definition get_all (self : t) : M value :=
  kvs ← items (_sessions self);
  snapshot ← alloc ∅;
  for_each kvs (λ '(k, v), c ← dict_copy v; setitem snapshot k c);;
  mret snapshot.

(** [any(s["unseen"] for s in ...)] stops at the first true element. *)
Fixpoint any_unseen (vs : list value) : M bool :=
  match vs with
  | [] => mret false
  | s :: vs' =>
      u ← getitem s (lit "unseen");
      b ← truthy u;
      if (b : bool) then mret true else any_unseen vs'
  end.

Definition has_unseen (self : t) : M bool :=
  vs ← values (_sessions self); any_unseen vs.

Definition count (self : t) : M nat :=
  len (_sessions self).

End SessionStore.


(** ** AppleScript helper *)

(** What [subprocess.run] does is decided outside the program: the process
    completes, or the call raises. *)
Inductive run_outcome :=
  | Completed (returncode : Z)
  | Failed (e : exn).

Definition subprocess_run (argv : list pystr) (timeout : Z) (o : run_outcome) : M unit :=
  emit (Subprocess_run argv timeout);;
  match o with
  | Completed _ => mret tt
  | Failed e => raise e
  end.

Definition quote : pystr := [34].
Definition newline : pystr := [10].

(** The f-string of [focus_terminal_window], with [window_id] spliced in. *)
Definition script (window_id : pystr) : pystr :=
  concat [
    newline;
    lit "        tell application "; quote; lit "Terminal"; quote; newline;
    lit "            activate"; newline;
    lit "            set targetWindow to missing value"; newline;
    lit "            repeat with w in windows"; newline;
    lit "                if id of w is "; window_id; lit " then"; newline;
    lit "                    set targetWindow to w"; newline;
    lit "                    exit repeat"; newline;
    lit "                end if"; newline;
    lit "            end repeat"; newline;
    lit "            if targetWindow is not missing value then"; newline;
    lit "                set index of targetWindow to 1"; newline;
    lit "            end if"; newline;
    lit "        end tell"; newline;
    lit "    " ].

Definition focus_terminal_window (window_id : pystr) (o : run_outcome) : M unit :=
  try_except
    (subprocess_run [lit "osascript"; lit "-e"; script window_id] 5 o)
    [ (λ e, is_class TimeoutExpired e || is_Exception e, λ _, mret tt) ].

(** ** Menu bar app *)

Definition ICON_NORMAL : pystr := [128421].
Definition ICON_UNSEEN : pystr := [9889].

Module TerminalFocusApp.

(** The fields [_dirty], [title], [menu] and [_session_keys] of the one app
    object are in the [world]. *)
Record t := Build { store : SessionStore.t }.

Definition schedule_refresh (self : t) : M unit :=
  emit Call_schedule_refresh;;
  modify (set_dirty true).

(** [f"{x}"] for a value held in a session dict. *)
Definition format (x : value) : pystr :=
  match x with
  | VStr s => s
  | VBool true => lit "True"
  | VBool false => lit "False"
  | VRef _ => lit "{...}"
  end.

Definition menu_add (item : menu_item) : M unit :=
  modify (λ w, set_menu (menu w ++ [item]) w).

Definition session_keys_append (key : pystr) : M unit :=
  modify (λ w, set_session_keys (session_keys w ++ [key]) w).

Definition has_label (key : pystr) (item : menu_item) : bool :=
  match item with
  | MenuItem label _ => bool_decide (label = key)
  | separator => false
  end.

(** [try: del self.menu[key]  except KeyError: pass] *)
Definition menu_del (key : pystr) : M unit :=
  modify (λ w, set_menu (filter (λ item, has_label key item = false) (menu w)) w).

Definition _rebuild_menu (self : t) : M unit :=
  emit Rebuild_menu;;
  sessions ← SessionStore.get_all (store self);
  count ← len sessions;
  has_unseen ← SessionStore.has_unseen (store self);
  modify (set_title ((if (has_unseen : bool) then ICON_UNSEEN else ICON_NORMAL)
                       ++ str_int (Z.of_nat count)));;
  keys ← read session_keys;
  for_each keys menu_del;;
  modify (set_session_keys []);;
  modify (set_menu []);;
  any_session ← truthy sessions;
  (if negb any_session then
     menu_add (MenuItem (lit "No active terminals") None);;
     session_keys_append (lit "No active terminals")
   else
     kvs ← items sessions;
     for_each kvs (λ '(wid, info),
       event_title ← getitem info (lit "event_title");
       event_msg ← getitem info (lit "event_msg");
       with_msg ← truthy event_msg;
       let label := format event_title ++
                    (if (with_msg : bool) then [32; 8212; 32] ++ format event_msg else []) in
       unseen ← getitem info (lit "unseen");
       marked ← truthy unseen;
       let label := (if (marked : bool) then [9679; 32] else []) ++ label in
       menu_add (MenuItem label (Some (click_handler wid)));;
       session_keys_append label));;
  menu_add separator;;
  menu_add (MenuItem (lit "Quit") (Some quit_callback)).

Definition _poll_for_updates (self : t) : M unit :=
  is_set ← read dirty;
  if (is_set : bool) then
    modify (set_dirty false);;
    _rebuild_menu self
  else mret tt.

(** The handler that [_make_click_handler window_id] returns. *)
Definition _make_click_handler (self : t) (window_id : pystr) (o : run_outcome) : M unit :=
  focus_terminal_window window_id o;;
  SessionStore.mark_all_seen (store self);;
  _rebuild_menu self.

Definition menuWillOpen_ (self : t) : M unit :=
  SessionStore.mark_all_seen (store self);;
  _rebuild_menu self.

Definition __init__ (store : SessionStore.t) : M t :=
  modify (set_title (lit "0"));;
  modify (set_dirty false);;
  modify (set_session_keys []);;
  mret (Build store).

End TerminalFocusApp.

(** ** HTTP request handler *)

(** What lines 89-91 of [do_POST] yield for a request: the header is read,
    the body is read and [json.loads] returns a document, or one of the
    calls raises. *)
Inductive request :=
  | Loaded (data : document)
  | Raised (e : exn).

(** What a write to the socket of the client does is decided outside the
    program: the bytes are sent, or the call raises, with an [OSError] when
    the client has gone.  [_respond] writes twice: the head of the answer in
    [end_headers()], then the body in [wfile.write()]. *)
Inductive respond_outcome :=
  | Answered
  | Head_fails (e : exn)
  | Body_fails (e : exn).

Module EventHandler.

Record t := Build { store : SessionStore.t; app_ref : option TerminalFocusApp.t }.

(** [Respond] records an answer written in full, [Respond_head] the head of
    an answer whose body could not be written. *)
Definition _respond (status_code : Z) (body : list (pystr * pystr))
    (o : respond_outcome) : M unit :=
  match o with
  | Answered => emit (Respond status_code body)
  | Head_fails e => raise e
  | Body_fails e => emit (Respond_head status_code);; raise e
  end.

Definition json_loads (r : request) : M document :=
  match r with
  | Loaded data => mret data
  | Raised e => raise e
  end.

(** [data.get(key, "")] *)
Definition get (data : document) (key : pystr) : M jvalue :=
  match data with
  | Dict members => mret (default (JStr (lit "")) (members !! key))
  | NotDict ty =>
      raise (Exn AttributeError
               (lit "'" ++ type_name ty ++ lit "' object has no attribute 'get'"))
  end.

Definition is_empty (s : pystr) : bool :=
  match s with [] => true | _ => false end.

(** Every path through the [try] block calls [_respond] at most once, and so
    does every [except] clause: [o] is the outcome of the writes of the
    first, [o'] of the second. *)
Definition do_POST (self : t) (r : request) (o o' : respond_outcome) : M unit :=
  try_except
    (data ← json_loads r;
     x ← get data (lit "window_id");
     let window_id := strip (str x) in
     x ← get data (lit "event_title");
     let event_title := strip (str x) in
     x ← get data (lit "event_msg");
     let event_msg := strip (str x) in
     if is_empty window_id || is_empty event_title then
       _respond 400 [(lit "error", lit "window_id and event_title are required")] o
     else if negb (isdigit window_id) then
       _respond 400 [(lit "error", lit "window_id must be a numeric value")] o
     else
       (if bool_decide (lower event_title = lit "terminate") then
          SessionStore.remove (store self) window_id;;
          _respond 200 [(lit "status", lit "removed"); (lit "window_id", window_id)] o
        else
          SessionStore.upsert (store self) window_id event_title event_msg;;
          _respond 200 [(lit "status", lit "registered"); (lit "window_id", window_id)] o);;
       match app_ref self with
       | Some app => TerminalFocusApp.schedule_refresh app
       | None => mret tt
       end)
    [ (is_class JSONDecodeError, λ _, _respond 400 [(lit "error", lit "Invalid JSON")] o');
      (is_Exception, λ e, _respond 500 [(lit "error", exn_str e)] o') ].

End EventHandler.

(** ** Main: the objects of a running program, and what can happen to it *)

Definition main : M (EventHandler.t * TerminalFocusApp.t) :=
  store ← SessionStore.__init__;
  app ← TerminalFocusApp.__init__ store;
  mret (EventHandler.Build store (Some app), app).

Inductive input :=
  | POST (r : request) (o o' : respond_outcome)
  | Tick
  | Click (index : nat) (o : run_outcome)
  | MenuOpen.

(** The callback of the menu item at [index], if it has one. *)
Definition clicked (index : nat) (w : world) : option callback :=
  match menu w !! index with
  | Some (MenuItem _ cb) => cb
  | _ => None
  end.

Definition react (handler : EventHandler.t) (app : TerminalFocusApp.t) (i : input) : M unit :=
  match i with
  | POST r o o' => EventHandler.do_POST handler r o o'
  | Tick => TerminalFocusApp._poll_for_updates app
  | Click index o =>
      cb ← read (clicked index);
      match cb with
      | Some (click_handler window_id) => TerminalFocusApp._make_click_handler app window_id o
      | _ => mret tt
      end
  | MenuOpen => TerminalFocusApp.menuWillOpen_ app
  end.

Definition world0 : world := World ∅ false [] [] [] [].
(** * SessionStore: what it holds and which objects it owns *)

Section store_model.
Implicit Types (h : gmap loc (gmap pystr value)) (v : value) (l : loc).
Implicit Types (d : gmap pystr value) (self : SessionStore.t) (w : world).

Definition deref h v : option (gmap pystr value) :=
  match v with VRef l => h !! l | _ => None end.

(** A dict of dicts read by value: key -> items of the dict stored there. *)
Definition contents h v : gmap pystr (gmap pystr value) :=
  match deref h v with
  | Some d => omap (deref h) d
  | None => ∅
  end.

(** The objects that make up a dict of dicts: the dict and the dicts it
    refers to. *)
Definition reach h v l : Prop :=
  ∃ r d, v = VRef r ∧ h !! r = Some d ∧ (l = r ∨ ∃ k, d !! k = Some (VRef l)).

Definition closed h v : Prop :=
  is_Some (deref h v) ∧ ∀ l, reach h v l → is_Some (h !! l).

(** Two structures that share no object. *)
Definition separate h v1 v2 : Prop :=
  closed h v1 ∧ closed h v2 ∧ ∀ l, reach h v1 l → reach h v2 l → False.

(** From [h] to [h'] only objects of [v], or new ones, were written, and [v]
    has taken in only new objects. *)
Definition confined v h h' : Prop :=
  (∀ l d, h !! l = Some d → ¬ reach h v l → h' !! l = Some d) ∧
  (∀ l, reach h' v l → reach h v l ∨ h !! l = None) ∧
  closed h' v.

(** The store's invariant: [_sessions] is a dict whose values are distinct
    objects from it, each a session dict with the three fields. *)
Definition store_ok self h : Prop :=
  ∃ root outer,
    SessionStore._sessions self = VRef root ∧ h !! root = Some outer ∧
    map_Forall (λ _ v, ∃ l t m u,
      v = VRef l ∧ l ≠ root ∧ h !! l = Some (SessionStore.session_dict t m u)) outer.

(** What a method of the store does to the world: it returns [a], logs
    [evs], leaves the application fields alone, keeps the invariant, and
    turns the contents [c] of the store into [f c] by writing its own
    objects only. *)
Definition store_method {A} self (m : M A) w (a : A) (evs : list event)
    (f : gmap pystr (gmap pystr value) → gmap pystr (gmap pystr value)) : Prop :=
  ∃ h', m w = (Ok a, World h' (dirty w) (title w) (menu w) (session_keys w) (trace w ++ evs)) ∧
    store_ok self h' ∧
    contents h' (SessionStore._sessions self) = f (contents (heap w) (SessionStore._sessions self)) ∧
    confined (SessionStore._sessions self) (heap w) h'.

End store_model.


(** ** Callers of the store *)

(** What a caller may do to a dict of dicts it holds, such as the result of
    [get_all].  A caller has no reference to an object of the store, so
    what it writes is a string, a boolean, a dict it made, or an object taken
    from the structure itself. *)
Inductive atom :=
  | AStr (s : pystr)
  | ABool (b : bool).

Definition atom_value (a : atom) : value :=
  match a with
  | AStr s => VStr s
  | ABool b => VBool b
  end.

Inductive mutation :=
  | Set_field (k f : pystr) (x : atom)
  | Del_field (k f : pystr)
  | Set_entry (k : pystr) (fields : gmap pystr atom)
  | Del_entry (k : pystr)
  | Share_entry (k k' : pystr)
  | Clear.

(** [snap[k][f] = x], [snap[k].pop(f, None)], [snap[k] = {...}],
    [snap.pop(k, None)], [snap[k] = snap[k']], [snap.clear()] *)
Definition mutate (snap : value) (mu : mutation) : M unit :=
  match mu with
  | Set_field k f x => s ← getitem snap k; setitem s f (atom_value x)
  | Del_field k f => s ← getitem snap k; pop_default s f
  | Set_entry k fields => s ← alloc (atom_value <$> fields); setitem snap k s
  | Del_entry k => pop_default snap k
  | Share_entry k k' => s ← getitem snap k'; setitem snap k s
  | Clear => load snap;; store snap ∅
  end.

(** The calls a client of the store can make. *)
Inductive store_call :=
  | call_upsert (window_id event_title event_msg : pystr)
  | call_remove (window_id : pystr)
  | call_mark_all_seen
  | call_get_all
  | call_has_unseen
  | call_count.

Definition run_call (self : SessionStore.t) (c : store_call) : M unit :=
  match c with
  | call_upsert id t m => SessionStore.upsert self id t m
  | call_remove id => SessionStore.remove self id
  | call_mark_all_seen => SessionStore.mark_all_seen self
  | call_get_all => SessionStore.get_all self;; mret tt
  | call_has_unseen => SessionStore.has_unseen self;; mret tt
  | call_count => SessionStore.count self;; mret tt
  end.

(** The same calls on the contents of the store, as a map. *)
Definition apply_call (c : store_call)
    (s : gmap pystr (gmap pystr value)) : gmap pystr (gmap pystr value) :=
  match c with
  | call_upsert id t m => <[id := SessionStore.session_dict t m true]> s
  | call_remove id => delete id s
  | call_mark_all_seen => insert (lit "unseen") (VBool false) <$> s
  | call_get_all | call_has_unseen | call_count => s
  end.

(** A caller that holds a result of [get_all] and the store: it mutates the
    result (going on if that raises) or calls the store, in any order. *)
Inductive action :=
  | by_caller (mu : mutation)
  | by_store (c : store_call).

(** [try: m  except BaseException: pass] *)
Definition attempt (m : M unit) : M unit := λ w, (Ok tt, snd (m w)).

Definition act (self : SessionStore.t) (snap : value) (a : action) : M unit :=
  match a with
  | by_caller mu => attempt (mutate snap mu)
  | by_store c => run_call self c
  end.

Definition calls_of (acts : list action) : list store_call :=
  omap (λ a, match a with by_store c => Some c | by_caller _ => None end) acts.

Definition apply_calls (cs : list store_call)
    (s : gmap pystr (gmap pystr value)) : gmap pystr (gmap pystr value) :=
  foldl (λ s c, apply_call c s) s cs.

(** ** Requests *)

(** [str(data.get(key, "")).strip()] for a document that is a dict. *)
Definition field (d : gmap pystr jvalue) (key : pystr) : pystr :=
  strip (str (default (JStr (lit "")) (d !! key))).

(** The two checks of [do_POST], on the trimmed fields. *)
Definition missing (d : gmap pystr jvalue) : bool :=
  EventHandler.is_empty (field d (lit "window_id")) ||
  EventHandler.is_empty (field d (lit "event_title")).

Definition non_numeric (d : gmap pystr jvalue) : bool :=
  negb (isdigit (field d (lit "window_id"))).

(** The request is the reserved termination event. *)
Definition terminates (d : gmap pystr jvalue) : bool :=
  bool_decide (lower (field d (lit "event_title")) = lit "terminate").

(** Equality of strings up to the case of the letters A-Z. *)
Definition fold_case (c : codepoint) : codepoint :=
  if (65 <=? c) && (c <=? 90) then c + 32 else c.

Definition caseless_eq (s t : pystr) : Prop := map fold_case s = map fold_case t.

(** A run of [lower_runs] that takes no code point outside Basic Latin
    into it, or is the run of KELVIN SIGN, which gives [k]. *)
Definition run_stays_out (r : N * N * N * N) : bool :=
  let '(lo, hi, step, img) := r in
  (hi <? 128) || (128 <=? img) || ((lo =? 8490) && (hi =? 8490)).

(** A string made of the decimal digits 0-9 only, and not empty. *)
Definition decimal_digits (s : pystr) : bool :=
  negb (EventHandler.is_empty s) && forallb (λ c, (48 <=? c) && (c <=? 57)) s.

(** The response bodies of [do_POST]. *)
Definition error_body (reason : pystr) : list (pystr * pystr) :=
  [(lit "error", reason)].
Definition status_body (status window_id : pystr) : list (pystr * pystr) :=
  [(lit "status", status); (lit "window_id", window_id)].

(** What the [except] clauses of [do_POST] do with an exception raised in
    the [try] block; [o'] is the outcome of the writes of the answer. *)
Definition on_except (e : exn) (o' : respond_outcome) : M unit :=
  if is_class JSONDecodeError e then
    EventHandler._respond 400 (error_body (lit "Invalid JSON")) o'
  else if is_Exception e then
    EventHandler._respond 500 (error_body (exn_str e)) o'
  else raise e.

(** An answer sent from the [try] block, whose writes have the outcome [o]:
    when a write raises, the [except] clauses take over. *)
Definition answer (status_code : Z) (body : list (pystr * pystr))
    (o o' : respond_outcome) : M unit := λ w,
  match o with
  | Answered => (Ok tt, log (Respond status_code body) w)
  | Head_fails e => on_except e o' w
  | Body_fails e => on_except e o' (log (Respond_head status_code) w)
  end.

(** An event of [_respond]: an answer, or the head of one. *)
Definition is_answer (e : event) : bool :=
  match e with Respond _ _ | Respond_head _ => true | _ => false end.

(** The signal to the app, when one is attached. *)
Definition signal (self : EventHandler.t) : list event :=
  match EventHandler.app_ref self with
  | Some _ => [Call_schedule_refresh]
  | None => []
  end.

(** ** The menu *)

(** The window ids that an item of the menu focuses when clicked. *)
Definition focuses (mn : list menu_item) (window_id : pystr) : Prop :=
  ∃ label, MenuItem label (Some (click_handler window_id)) ∈ mn.

(** The title shows whether something is unseen, and how many sessions
    there are. *)
Definition title_for (unseen : bool) (count : nat) : pystr :=
  (if unseen then ICON_UNSEEN else ICON_NORMAL) ++ str_int (Z.of_nat count).

(** How many times the trace shows a rebuild of the menu, and a signal to
    the app. *)
Definition is_rebuild (e : event) : bool :=
  match e with Rebuild_menu => true | _ => false end.
Definition is_signal (e : event) : bool :=
  match e with Call_schedule_refresh => true | _ => false end.
Definition rebuilds (tr : list event) : nat := length (List.filter is_rebuild tr).
Definition signals (tr : list event) : nat := length (List.filter is_signal tr).

(** [n] notifications in a row. *)
Definition notify_times (app : TerminalFocusApp.t) (n : nat) : M unit :=
  for_each (replicate n tt) (λ _, TerminalFocusApp.schedule_refresh app).

(** The command line [focus_terminal_window] runs. *)
Definition osascript (window_id : pystr) : event :=
  Subprocess_run [lit "osascript"; lit "-e"; script window_id] 5.

(** ** The gate in front of the automation command *)

Definition is_run (e : event) : bool :=
  match e with Subprocess_run _ _ => true | _ => false end.

(** Every id in the store, on a menu item, or in a command that was run, has
    passed [str.isdigit]. *)
Definition gate (st : SessionStore.t) (w : world) : Prop :=
  store_ok st (heap w) ∧
  (∀ id, is_Some (contents (heap w) (SessionStore._sessions st) !! id) → isdigit id = true) ∧
  (∀ id, focuses (menu w) id → isdigit id = true) ∧
  (∀ e, e ∈ trace w → is_run e = true → ∃ id, isdigit id = true ∧ e = osascript id).

(** ** A store to run examples on *)

(** The store [SessionStore.__init__] makes in the empty world, and the
    world it leaves. *)
Definition store1 : SessionStore.t := SessionStore.Build (VRef 1).
Definition world1 : world := World (<[1%positive := ∅]> ∅) false [] [] [] [].

(** The same store with two sessions registered. *)
Definition world2 : world :=
  snd (for_each [call_upsert (lit "100") (lit "build") (lit "started");
                 call_upsert (lit "200") (lit "deploy") (lit "")]
         (run_call store1) world1).

(** ** A program to run examples on *)

Definition app1 : TerminalFocusApp.t := TerminalFocusApp.Build store1.
Definition handler1 : EventHandler.t := EventHandler.Build store1 (Some app1).

(** The program from [main] on, fed with inputs until one raises. *)
Definition run (ins : list input) : result unit * world :=
  ('(handler, app) ← main; for_each ins (react handler app)) world0.

(** The same program when it goes on after an input that raises: an
    exception that escapes [do_POST] ends that request, not the server.
    This is the world after all the inputs. *)
Definition run_on (ins : list input) : world :=
  snd (('(handler, app) ← main;
        for_each ins (λ i, attempt (react handler app i))) world0).

Definition record (window_id event_title event_msg : jvalue) : gmap pystr jvalue :=
  <[lit "window_id" := window_id]>
    (<[lit "event_title" := event_title]>
       (<[lit "event_msg" := event_msg]> ∅)).

(** [{"window_id": 12345, "event_title": "build", "event_msg": "started"}] *)
Definition build_started : gmap pystr jvalue :=
  record (JInt 12345) (JStr (lit "build")) (JStr (lit "started")).

(** [{"window_id": "100", "event_title": "Terminate", "event_msg": ""}] *)
Definition terminate_100 : gmap pystr jvalue :=
  record (JStr (lit "100")) (JStr (lit "Terminate")) (JStr (lit "")).

(** [{"window_id": "abc", "event_title": "build"}] *)
Definition build_abc : gmap pystr jvalue :=
  <[lit "window_id" := JStr (lit "abc")]> (<[lit "event_title" := JStr (lit "build")]> ∅).

(** [{"window_id": "abc", "event_title": "  "}]: no title and a bad id. *)
Definition blank_abc : gmap pystr jvalue :=
  <[lit "window_id" := JStr (lit "abc")]> (<[lit "event_title" := JStr (lit "  ")]> ∅).

(** [{"window_id": "²", "event_title": "build"}]: the id is the one
    character SUPERSCRIPT TWO. *)
Definition build_superscript : gmap pystr jvalue :=
  <[lit "window_id" := JStr [178]]> (<[lit "event_title" := JStr (lit "build")]> ∅).

(** A request is turned down: when the answer is written, it is the error,
    the trace gains nothing else and [do_POST] returns; and whatever the
    writes do, neither the heap nor the refresh flag changes. *)
Definition rejected (self : EventHandler.t) (r : request) (w : world)
    (status_code : Z) (reason : pystr) : Prop :=
  EventHandler.do_POST self r Answered Answered w =
    (Ok tt, log (Respond status_code (error_body reason)) w) ∧
  ∀ o o', heap (snd (EventHandler.do_POST self r o o' w)) = heap w ∧
          dirty (snd (EventHandler.do_POST self r o o' w)) = dirty w.

(** ** The delegate that [patch_menu_delegate] installs *)

Module MenuOpenDelegate.

Record t := Build { app_ref : option TerminalFocusApp.t }.

Definition menuWillOpen_ (self : t) : M unit :=
  match app_ref self with
  | Some app =>
      SessionStore.mark_all_seen (TerminalFocusApp.store app);;
      TerminalFocusApp._rebuild_menu app
  | None => mret tt
  end.

End MenuOpenDelegate.

(** ** What the menu shows *)

(** The label [_rebuild_menu] gives a session: the title, then the message
    after a dash when there is one, with a dot in front when unseen. *)
Definition label_of (event_title event_msg : pystr) (unseen : bool) : pystr :=
  (if unseen then [9679; 32] else []) ++
  event_title ++
  match event_msg with
  | [] => []
  | _ => [32; 8212; 32] ++ event_msg
  end.

Definition session_item (window_id event_title event_msg : pystr) (unseen : bool) : menu_item :=
  MenuItem (label_of event_title event_msg unseen) (Some (click_handler window_id)).

Definition item_label (item : menu_item) : pystr :=
  match item with
  | MenuItem label _ => label
  | separator => []
  end.

(** The items that focus a window are those of the sessions in [s], each
    with the label of its session. *)
Definition menu_shows (mn : list menu_item) (s : gmap pystr (gmap pystr value)) : Prop :=
  ∀ wid label,
    MenuItem label (Some (click_handler wid)) ∈ mn ↔
    ∃ t m u, s !! wid = Some (SessionStore.session_dict t m u) ∧ label = label_of t m u.

(** The item of one entry of a snapshot, read through the heap. *)
Definition shown_as (h : gmap loc (gmap pystr value)) (kv : pystr * value)
    (item : menu_item) : Prop :=
  ∃ c t m u, kv.2 = VRef c ∧ h !! c = Some (SessionStore.session_dict t m u) ∧
             item = session_item kv.1 t m u.

(** The two items that close every menu. *)
Definition menu_tail : list menu_item :=
  [separator; MenuItem (lit "Quit") (Some quit_callback)].

(** ** Answers *)

(** The status codes of the answers in a trace, in order. *)
Definition statuses (tr : list event) : list Z :=
  omap (λ e, match e with Respond status_code _ => Some status_code | _ => None end) tr.

(** The status [do_POST] answers a request with. *)
Definition status_of (r : request) : Z :=
  match r with
  | Loaded (Dict d) => if missing d || non_numeric d then 400 else 200
  | Loaded (NotDict _) => 500
  | Raised e => if is_class JSONDecodeError e then 400 else 500
  end%Z.

(** A member of a request that is absent, or a string of whitespace only. *)
Definition blank (o : option jvalue) : Prop :=
  o = None ∨ ∃ ws, o = Some (JStr ws) ∧ forallb isspace ws = true.

(** [upsert] for each entry of a list, in order. *)
Definition upsert_all (self : SessionStore.t) (entries : list (pystr * (pystr * pystr))) : M unit :=
  for_each entries (λ '(id, (t, m)), SessionStore.upsert self id t m).

(** ** More requests to run examples on *)


(** [{"window_id": "   ", "event_title": "build"}] *)
Definition build_blank_id : gmap pystr jvalue :=
  <[lit "window_id" := JStr (lit "   ")]> (<[lit "event_title" := JStr (lit "build")]> ∅).

(** [{"window_id": "12345", "event_title": "terminate"}] *)
Definition terminate_12345 : gmap pystr jvalue :=
  <[lit "window_id" := JStr (lit "12345")]> (<[lit "event_title" := JStr (lit "terminate")]> ∅).

(** A handler with no app attached, as the tests set it up. *)
Definition handler0 : EventHandler.t := EventHandler.Build store1 None.

(** ** The menu and the store *)

(** The store is well formed and, unless a refresh is pending, the menu
    shows the sessions of the store. *)
Definition in_sync (st : SessionStore.t) (w : world) : Prop :=
  store_ok st (heap w) ∧
  (dirty w = false → menu_shows (menu w) (contents (heap w) (SessionStore._sessions st))).

(** What [do_POST] does to the world, whatever the writes do: a request that
    is not dispatched leaves the heap and the flag alone and logs answers
    only; for one that is dispatched the store call comes first. *)
Definition turned_down (r : request) (w : world) (h' : gmap loc (gmap pystr value)) (dy' : bool)
    (evs : list event) : Prop :=
  status_of r ≠ 200%Z ∧ h' = heap w ∧ dy' = dirty w ∧ forallb is_answer evs = true ∧
  (length (statuses evs) ≤ 1)%nat.

Definition dispatched (self : EventHandler.t) (r : request) (o : respond_outcome)
    (res : result unit) (w : world)
    (h' : gmap loc (gmap pystr value)) (dy' : bool) (evs : list event) : Prop :=
  ∃ d evs',
    r = Loaded (Dict d) ∧ status_of r = 200%Z ∧
    evs = (if terminates d then Call_remove (field d (lit "window_id"))
           else Call_upsert (field d (lit "window_id")) (field d (lit "event_title"))
                  (field d (lit "event_msg"))) :: evs' ∧
    contents h' (SessionStore._sessions (EventHandler.store self)) =
      (if terminates d then delete (field d (lit "window_id"))
       else insert (field d (lit "window_id"))
              (SessionStore.session_dict (field d (lit "event_title"))
                 (field d (lit "event_msg")) true))
        (contents (heap w) (SessionStore._sessions (EventHandler.store self))) ∧
    ((o = Answered ∧ res = Ok tt ∧
      dy' = (match EventHandler.app_ref self with Some _ => true | None => dirty w end) ∧
      evs' = Respond 200 (status_body
               (if terminates d then lit "removed" else lit "registered")
               (field d (lit "window_id"))) :: signal self) ∨
     (o ≠ Answered ∧ dy' = dirty w ∧ forallb is_answer evs' = true ∧
      (length (statuses evs') ≤ 1)%nat)).

(** The answer of a request that passes the checks is written: the input is
    not such a request, or both writes of its answer succeed. *)
Definition delivered (i : input) : bool :=
  match i with
  | POST r o _ =>
      if (status_of r =? 200)%Z
      then match o with Answered => true | _ => false end
      else true
  | _ => true
  end.
(** * Reasoning about computations *)

Lemma bind_Ok {A B} (m : M A) (f : A → M B) w a w' :
  m w = (Ok a, w') → (m ≫= f) w = f a w'.
Proof. intros H. unfold mbind, M_bind. by rewrite H. Qed.

Lemma bind_Raise {A B} (m : M A) (f : A → M B) w e w' :
  m w = (Raise e, w') → (m ≫= f) w = (Raise e, w').
Proof. intros H. unfold mbind, M_bind. by rewrite H. Qed.

Lemma set_heap_set_heap h1 h2 w : set_heap h2 (set_heap h1 w) = set_heap h2 w.
Proof. done. Qed.

Lemma set_heap_id w : set_heap (heap w) w = w.
Proof. by destruct w. Qed.

Lemma load_Ok l d w : heap w !! l = Some d → load (VRef l) w = (Ok d, w).
Proof. intros H. unfold load. by rewrite H. Qed.

Lemma setitem_Ok l d k x w :
  heap w !! l = Some d →
  setitem (VRef l) k x w = (Ok tt, set_heap (<[l := <[k := x]> d]> (heap w)) w).
Proof. intros H. unfold setitem. by rewrite (bind_Ok _ _ _ _ _ (load_Ok _ _ _ H)). Qed.

Lemma pop_default_Ok l d k w :
  heap w !! l = Some d →
  pop_default (VRef l) k w = (Ok tt, set_heap (<[l := delete k d]> (heap w)) w).
Proof. intros H. unfold pop_default. by rewrite (bind_Ok _ _ _ _ _ (load_Ok _ _ _ H)). Qed.

Lemma getitem_Ok l d k x w :
  heap w !! l = Some d → d !! k = Some x → getitem (VRef l) k w = (Ok x, w).
Proof.
  intros H Hk. unfold getitem. rewrite (bind_Ok _ _ _ _ _ (load_Ok _ _ _ H)). by rewrite Hk.
Qed.

Lemma getitem_KeyError l d k w :
  heap w !! l = Some d → d !! k = None →
  getitem (VRef l) k w = (Raise (Exn KeyError (lit "'" ++ k ++ lit "'")), w).
Proof.
  intros H Hk. unfold getitem. rewrite (bind_Ok _ _ _ _ _ (load_Ok _ _ _ H)). by rewrite Hk.
Qed.

Lemma fresh_heap_None (h : gmap loc (gmap pystr value)) : h !! fresh (dom h) = None.
Proof. apply not_elem_of_dom, is_fresh. Qed.

Lemma fresh_heap_ne (h : gmap loc (gmap pystr value)) l d :
  h !! l = Some d → fresh (dom h) ≠ l.
Proof. intros H E. rewrite <- E, fresh_heap_None in H. done. Qed.

(** A loop runs to completion when each iteration does, and establishes an
    invariant indexed by the elements already visited. *)
Lemma for_each_inv {A} (I : list A → world → Prop) (xs : list A) (body : A → M unit) w :
  I [] w →
  (∀ done x rest w1, xs = done ++ x :: rest → I done w1 →
     ∃ w2, body x w1 = (Ok tt, w2) ∧ I (done ++ [x]) w2) →
  ∃ w', for_each xs body w = (Ok tt, w') ∧ I xs w'.
Proof.
  intros H0 Hstep.
  assert (G : ∀ rest done w1, xs = done ++ rest → I done w1 →
            ∃ w', for_each rest body w1 = (Ok tt, w') ∧ I xs w').
  { induction rest as [|x rest IH]; intros done w1 E Hd.
    - rewrite app_nil_r in E. subst done. by exists w1.
    - destruct (Hstep done x rest w1 E Hd) as (w2 & Hb & Hi).
      destruct (IH (done ++ [x]) w2) as (w' & Hr & Hx); [by rewrite <- app_assoc | done |].
      exists w'. split; [|done]. simpl. by rewrite (bind_Ok _ _ _ _ _ Hb). }
  by apply (G xs [] w).
Qed.


(** * Strings *)

Section strings.
Implicit Types (s ws : pystr) (c : codepoint).

Lemma ascii_digit_isdigit c : (48 <=? c) && (c <=? 57) = true → isdigit_cp c = true.
Proof. intros H. unfold isdigit_cp, digit_ranges. simpl. unfold in_range at 1. simpl. by rewrite H. Qed.

Lemma decimal_digits_isdigit s : decimal_digits s = true → isdigit s = true.
Proof.
  unfold decimal_digits, isdigit. intros [Hne Hall]%andb_true_iff.
  destruct s as [|c s]; [done|]. clear Hne.
  apply forallb_forall. intros x Hx. apply ascii_digit_isdigit.
  by apply (proj1 (forallb_forall _ _) Hall).
Qed.

Lemma lstrip_whitespace ws s : forallb isspace ws = true → lstrip (ws ++ s) = lstrip s.
Proof.
  induction ws as [|c ws IH]; [done|]. simpl. intros [Hc Hws]%andb_true_iff.
  rewrite Hc. by apply IH.
Qed.

Lemma lstrip_app s ws :
  forallb isspace ws = true →
  lstrip (s ++ ws) = match lstrip s with [] => [] | _ => lstrip s ++ ws end.
Proof.
  intros Hws. induction s as [|c s IH]; simpl.
  - rewrite <- (app_nil_r ws) at 1. by rewrite lstrip_whitespace.
  - destruct (isspace c); [done|]. done.
Qed.

Lemma rstrip_whitespace s ws : forallb isspace ws = true → rstrip (s ++ ws) = rstrip s.
Proof.
  intros Hws. unfold rstrip. rewrite rev_app_distr, lstrip_whitespace; [done|].
  apply forallb_forall. intros x Hx%in_rev. by apply (proj1 (forallb_forall _ _) Hws).
Qed.

Lemma rstrip_nil : rstrip [] = [].
Proof. done. Qed.

(** Whitespace around a string does not survive [strip]. *)
Lemma strip_pad ws1 s ws2 :
  forallb isspace ws1 = true → forallb isspace ws2 = true →
  strip (ws1 ++ s ++ ws2) = strip s.
Proof.
  intros H1 H2. unfold strip. rewrite lstrip_whitespace by done.
  rewrite lstrip_app by done. destruct (lstrip s) as [|c s'] eqn:E; [done|].
  by apply rstrip_whitespace.
Qed.

(** *** [lower] and the Basic Latin letters *)

Lemma lower_cp_ascii c : c < 128 → lower_cp c = [fold_case c].
Proof.
  intros Hc.
  assert (Hall : forallb (λ n, bool_decide (lower_cp (N.of_nat n) = [fold_case (N.of_nat n)]))
                   (seq 0 128) = true) by (by vm_compute).
  rewrite <- (N2Nat.id c).
  assert (Hn : In (N.to_nat c) (seq 0 128)) by (apply in_seq; lia).
  apply (proj1 (forallb_forall _ _) Hall) in Hn.
  by apply bool_decide_eq_true_1 in Hn.
Qed.

Lemma lower_simple_out runs c :
  forallb run_stays_out runs = true → 128 ≤ c → c ≠ 8490 →
  128 ≤ lower_simple runs c.
Proof.
  intros Hruns Hc Hk. induction runs as [|[[[lo hi] step] img] runs IH]; [done|].
  simpl in Hruns. apply andb_true_iff in Hruns as [Hr Hruns]. simpl.
  destruct ((lo <=? c) && (c <=? hi) && ((c - lo) mod step =? 0)) eqn:Hm; [|by apply IH].
  apply andb_true_iff in Hm as [Hm _]. apply andb_true_iff in Hm as [Hlo Hhi].
  apply N.leb_le in Hlo, Hhi.
  apply orb_true_iff in Hr as [Hr|Hr]; [apply orb_true_iff in Hr as [Hr|Hr]|].
  - apply N.ltb_lt in Hr. lia.
  - apply N.leb_le in Hr. lia.
  - apply andb_true_iff in Hr as [Hr1 Hr2]. apply N.eqb_eq in Hr1, Hr2. lia.
Qed.

Lemma lower_cp_out c :
  128 ≤ c → c ≠ 8490 → ∃ y, y ∈ lower_cp c ∧ 128 ≤ y.
Proof.
  intros Hc Hk. unfold lower_cp. destruct (c =? 304).
  - exists 775. split; [|lia]. right. by left.
  - exists (lower_simple lower_runs c). split; [by left|].
    apply lower_simple_out; [by vm_compute|done..].
Qed.

Lemma lower_cp_kelvin : lower_cp 8490 = [107].
Proof. by vm_compute. Qed.

(** For a target made of Basic Latin characters other than [k], comparing
    the lowered string with it is comparing up to the case of A-Z. *)
Lemma lower_eq_ascii s t :
  forallb (λ y, (y <? 128) && negb (y =? 107)) t = true →
  lower s = t ↔ map fold_case s = t.
Proof.
  intros Ht.
  assert (Hin : ∀ y, y ∈ t → y < 128 ∧ y ≠ 107).
  { intros y Hy%list_elem_of_In. apply (proj1 (forallb_forall _ _) Ht) in Hy.
    apply andb_true_iff in Hy as [H1 H2]. apply N.ltb_lt in H1.
    apply negb_true_iff, N.eqb_neq in H2. done. }
  assert (Hascii : (∀ c, c ∈ s → c < 128) → lower s = map fold_case s).
  { clear. intros Hs. unfold lower. induction s as [|c s IH]; [done|]. simpl.
    rewrite lower_cp_ascii by (apply Hs; by left). simpl. f_equal.
    apply IH. intros c' Hc'. apply Hs. by right. }
  split; intros E.
  - rewrite <- Hascii; [done|]. intros c Hc.
    destruct (N.lt_ge_cases c 128) as [?|Hge]; [done|]. exfalso.
    assert (Hsub : ∀ y, y ∈ lower_cp c → y ∈ t).
    { intros y Hy. rewrite <- E. unfold lower. apply list_elem_of_In, in_concat.
      exists (lower_cp c). split; [|by apply list_elem_of_In].
      apply in_map. by apply list_elem_of_In. }
    destruct (decide (c = 8490)) as [->|Hk].
    + destruct (Hin 107) as [_ ?]; [|done]. apply Hsub. rewrite lower_cp_kelvin. by left.
    + destruct (lower_cp_out c Hge Hk) as (y & Hy & Hy').
      destruct (Hin y (Hsub y Hy)). lia.
  - rewrite Hascii; [done|]. intros c Hc.
    destruct (N.lt_ge_cases c 128) as [?|Hge]; [done|]. exfalso.
    assert (Hf : fold_case c ∈ t).
    { rewrite <- E. apply list_elem_of_In, in_map. by apply list_elem_of_In. }
    destruct (Hin _ Hf) as [Hlt _]. unfold fold_case in Hlt.
    destruct ((65 <=? c) && (c <=? 90)) eqn:Hr; [|lia].
    apply andb_true_iff in Hr as [_ Hr]. apply N.leb_le in Hr. lia.
Qed.

Lemma lower_terminate s : lower s = lit "terminate" ↔ caseless_eq s (lit "terminate").
Proof.
  unfold caseless_eq.
  change (map fold_case (lit "terminate")) with (lit "terminate").
  by apply lower_eq_ascii.
Qed.

End strings.
Lemma keys_distinct :
  lit "unseen" ≠ lit "event_msg" ∧ lit "unseen" ≠ lit "event_title" ∧
  lit "event_msg" ≠ lit "event_title".
Proof. by cbv. Qed.

Lemma session_dict_unseen t m u :
  SessionStore.session_dict t m u !! lit "unseen" = Some (VBool u).
Proof.
  destruct keys_distinct as (H1 & H2 & H3). unfold SessionStore.session_dict.
  rewrite !lookup_insert_ne by done. apply lookup_insert_eq.
Qed.

Lemma session_dict_seen t m u :
  <[lit "unseen" := VBool false]> (SessionStore.session_dict t m u) = SessionStore.session_dict t m false.
Proof.
  destruct keys_distinct as (H1 & H2 & H3). unfold SessionStore.session_dict.
  rewrite (insert_insert_ne _ (lit "unseen") (lit "event_title")) by done.
  rewrite (insert_insert_ne _ (lit "unseen") (lit "event_msg")) by done.
  by rewrite insert_insert_eq.
Qed.

Section store_lemmas.
Implicit Types (h : gmap loc (gmap pystr value)) (v : value) (l : loc).
Implicit Types (d : gmap pystr value) (self : SessionStore.t) (w : world).

Lemma contents_lookup h r d k :
  h !! r = Some d → contents h (VRef r) !! k = d !! k ≫= deref h.
Proof. intros H. unfold contents. simpl. rewrite H. apply lookup_omap. Qed.

Lemma reach_root h r d : h !! r = Some d → reach h (VRef r) r.
Proof. intros H. exists r, d. auto. Qed.

Lemma reach_ref h r d k l :
  h !! r = Some d → d !! k = Some (VRef l) → reach h (VRef r) l.
Proof. intros H Hk. exists r, d. eauto. Qed.

Lemma reach_agree h h' v :
  is_Some (deref h v) → (∀ l, reach h v l → h' !! l = h !! l) →
  ∀ l, reach h' v l ↔ reach h v l.
Proof.
  intros [d Hd] Hag l. destruct v as [| |r]; try done. simpl in Hd.
  assert (Hr : h' !! r = Some d) by (rewrite Hag; eauto using reach_root).
  split; intros (r' & d' & E & Hd' & Hl); simplify_eq; exists r', d; auto.
Qed.

Lemma contents_agree h h' v :
  is_Some (deref h v) → (∀ l, reach h v l → h' !! l = h !! l) →
  contents h' v = contents h v.
Proof.
  intros [d Hd] Hag. destruct v as [| |r]; try done. simpl in Hd.
  assert (Hr : h' !! r = Some d) by (rewrite Hag; eauto using reach_root).
  apply map_eq. intros k. rewrite !(contents_lookup _ _ d) by done.
  destruct (d !! k) as [[| |l]|] eqn:Hk; simpl; try done.
  apply Hag. eauto using reach_ref.
Qed.

Lemma separate_sym h v1 v2 : separate h v1 v2 → separate h v2 v1.
Proof. intros (H1 & H2 & H). split; [done|]. split; [done|]. intros l ? ?. by apply (H l). Qed.

(** Writes confined to one structure leave a separate one as it was. *)
Lemma separate_confined h h' v1 v2 :
  separate h v1 v2 → confined v1 h h' →
  separate h' v1 v2 ∧ contents h' v2 = contents h v2.
Proof.
  intros (C1 & [A2 C2] & Hdis) (Hkeep & Hnew & C1').
  assert (Hag : ∀ l, reach h v2 l → h' !! l = h !! l).
  { intros l Hl. destruct (C2 l Hl) as [d Hd]. rewrite Hd. apply Hkeep; [done|].
    intros Hl1. by apply (Hdis l). }
  pose proof (reach_agree h h' v2 A2 Hag) as Hre.
  split; [|by apply contents_agree].
  split; [done|]. split.
  - split.
    + destruct v2 as [| |r]; try (by destruct A2). simpl in *.
      destruct A2 as [d Hd]. rewrite Hag; eauto using reach_root.
    + intros l Hl. apply Hre in Hl. rewrite Hag by done. by apply C2.
  - intros l Hl1 Hl2. apply Hre in Hl2.
    destruct (Hnew l Hl1) as [Hold|Hnone]; [by apply (Hdis l)|].
    destruct (C2 l Hl2) as [d Hd]. congruence.
Qed.

Lemma confined_refl h v : closed h v → confined v h h.
Proof. intros C. split; [|split]; auto. Qed.

Lemma store_ok_closed self h : store_ok self h → closed h (SessionStore._sessions self).
Proof.
  intros (root & outer & E & Hr & Hall). rewrite E. split; [simpl; eauto|].
  intros l (r & d & E' & Hd & Hl). simplify_eq.
  destruct Hl as [->|[k Hk]]; [eauto|].
  destruct (Hall k _ Hk) as (l' & t & m & u & E1 & _ & Hl'). simplify_eq. eauto.
Qed.

Lemma store_ok_contents self h root outer k :
  store_ok self h → SessionStore._sessions self = VRef root → h !! root = Some outer →
  contents h (VRef root) !! k =
    match outer !! k with Some (VRef l) => h !! l | _ => None end.
Proof.
  intros _ _ Hr. rewrite (contents_lookup _ _ outer) by done.
  by destruct (outer !! k) as [[| |l]|].
Qed.

End store_lemmas.

Section store_methods.
Implicit Types (h : gmap loc (gmap pystr value)) (v : value) (l : loc).
Implicit Types (d : gmap pystr value) (self : SessionStore.t) (w : world).

Lemma upsert_spec self w id t m :
  store_ok self (heap w) →
  store_method self (SessionStore.upsert self id t m) w tt [Call_upsert id t m]
    (insert id (SessionStore.session_dict t m true)).
Proof.
  intros Hok. pose proof Hok as (root & outer & E & Hr & Hall).
  destruct w as [h dy ti mn sk tr]. simpl in *.
  set (l := fresh (dom h)).
  assert (Hl : h !! l = None) by apply fresh_heap_None.
  assert (Hlr : l ≠ root) by apply (fresh_heap_ne _ _ _ Hr).
  set (h' := <[root := <[id := VRef l]> outer]> (<[l := SessionStore.session_dict t m true]> h)).
  assert (Hok' : store_ok self h').
  { exists root, (<[id := VRef l]> outer). split; [done|]. split; [unfold h'; by rewrite lookup_insert_eq|].
    apply map_Forall_insert_2.
    - exists l, t, m, true. repeat split; [done|].
      unfold h'. by rewrite lookup_insert_ne, lookup_insert_eq.
    - intros k v Hk. destruct (Hall k v Hk) as (l0 & t0 & m0 & u0 & -> & Hne & Hl0).
      exists l0, t0, m0, u0. repeat split; [done|].
      assert (l ≠ l0) by apply (fresh_heap_ne _ _ _ Hl0).
      unfold h'. by rewrite !lookup_insert_ne. }
  exists h'. split; [|split; [done|split]].
  - unfold SessionStore.upsert, emit, alloc, setitem, load, store. rewrite E.
    unfold mbind, M_bind. simpl. fold l.
    rewrite lookup_insert_ne by done. by rewrite Hr.
  - rewrite E. apply map_eq. intros k.
    rewrite (contents_lookup h' root (<[id := VRef l]> outer)) by (unfold h'; by rewrite lookup_insert_eq).
    destruct (decide (k = id)) as [->|Hne].
    + rewrite !lookup_insert_eq. simpl. unfold h'. by rewrite lookup_insert_ne, lookup_insert_eq.
    + rewrite !lookup_insert_ne by done. rewrite (contents_lookup h root outer) by done.
      destruct (outer !! k) as [v|] eqn:Hk; [|done]. simpl.
      destruct (Hall k v Hk) as (l0 & t0 & m0 & u0 & -> & Hne0 & Hl0). simpl.
      assert (l ≠ l0) by apply (fresh_heap_ne _ _ _ Hl0).
      unfold h'. by rewrite !lookup_insert_ne.
  - split; [|split].
    + intros l0 d Hd Hnr. assert (l ≠ l0) by apply (fresh_heap_ne _ _ _ Hd).
      assert (root ≠ l0) by (intros <-; apply Hnr; rewrite E; eauto using reach_root).
      unfold h'. by rewrite !lookup_insert_ne.
    + intros l0 (r & d & Er & Hd & Hl0). rewrite E in Er. simplify_eq.
      unfold h' in Hd. rewrite lookup_insert_eq in Hd. simplify_eq.
      destruct Hl0 as [->|[k Hk]]; [left; rewrite E; eauto using reach_root|].
      destruct (decide (k = id)) as [->|Hne].
      * rewrite lookup_insert_eq in Hk. simplify_eq. by right.
      * rewrite lookup_insert_ne in Hk by done. left. rewrite E. eauto using reach_ref.
    + by apply store_ok_closed.
Qed.

Lemma remove_spec self w id :
  store_ok self (heap w) →
  store_method self (SessionStore.remove self id) w tt [Call_remove id] (delete id).
Proof.
  intros Hok. pose proof Hok as (root & outer & E & Hr & Hall).
  destruct w as [h dy ti mn sk tr]. simpl in *.
  set (h' := <[root := delete id outer]> h).
  assert (Hr' : h' !! root = Some (delete id outer)) by apply lookup_insert_eq.
  assert (Hok' : store_ok self h').
  { exists root, (delete id outer). split; [done|]. split; [done|].
    apply map_Forall_delete. intros k v Hk.
    destruct (Hall k v Hk) as (l0 & t0 & m0 & u0 & -> & Hne & Hl0).
    exists l0, t0, m0, u0. repeat split; [done|].
    unfold h'. by rewrite lookup_insert_ne. }
  exists h'. split; [|split; [done|split]].
  - unfold SessionStore.remove, emit. rewrite E.
    unfold mbind at 1, M_bind. simpl. by rewrite (pop_default_Ok root outer).
  - rewrite E. apply map_eq. intros k.
    rewrite (contents_lookup h' root (delete id outer)) by done.
    destruct (decide (k = id)) as [->|Hne].
    + by rewrite !lookup_delete_eq.
    + rewrite !lookup_delete_ne by done. rewrite (contents_lookup h root outer) by done.
      destruct (outer !! k) as [v|] eqn:Hk; [|done]. simpl.
      destruct (Hall k v Hk) as (l0 & t0 & m0 & u0 & -> & Hne0 & Hl0). simpl.
      unfold h'. by rewrite lookup_insert_ne.
  - split; [|split].
    + intros l0 d Hd Hnr.
      assert (root ≠ l0) by (intros <-; apply Hnr; rewrite E; eauto using reach_root).
      unfold h'. by rewrite lookup_insert_ne.
    + intros l0 (r & d & Er & Hd & Hl0). rewrite E in Er. simplify_eq.
      left. rewrite E. destruct Hl0 as [->|[k Hk]]; [eauto using reach_root|].
      apply lookup_delete_Some in Hk as [_ Hk]. eauto using reach_ref.
    + by apply store_ok_closed.
Qed.

Lemma store_ok_dom self h root outer :
  store_ok self h → SessionStore._sessions self = VRef root → h !! root = Some outer →
  dom (contents h (VRef root)) = dom outer.
Proof.
  intros (root' & outer' & E' & Hr' & Hall) E Hr.
  assert (root' = root) by congruence. subst root'.
  assert (outer' = outer) by congruence. subst outer'.
  apply set_eq. intros k. rewrite !elem_of_dom, (contents_lookup h root outer) by done.
  destruct (outer !! k) as [v|] eqn:Hk; simpl.
  - destruct (Hall k v Hk) as (l0 & t0 & m0 & u0 & -> & Hne0 & Hl0). simpl.
    rewrite Hl0. split; eauto.
  - split; intros [? ?]; done.
Qed.

(** A method that only reads: the world is left as it was. *)
Lemma count_spec self w :
  store_ok self (heap w) →
  SessionStore.count self w = (Ok (size (contents (heap w) (SessionStore._sessions self))), w).
Proof.
  intros Hok. pose proof Hok as (root & outer & E & Hr & Hall).
  unfold SessionStore.count, len. rewrite E, (bind_Ok _ _ _ _ _ (load_Ok _ _ _ Hr)).
  unfold mret, M_ret. do 2 f_equal.
  rewrite <- (size_dom (D := gset pystr) outer).
  rewrite <- (size_dom (D := gset pystr) (contents _ _)).
  by rewrite (store_ok_dom self (heap w) root outer).
Qed.

Lemma any_unseen_run h vs w :
  heap w = h →
  (∀ v, v ∈ vs → ∃ l t m u, v = VRef l ∧ h !! l = Some (SessionStore.session_dict t m u)) →
  ∃ b, SessionStore.any_unseen vs w = (Ok b, w) ∧
       (b = true ↔ ∃ l t m, VRef l ∈ vs ∧ h !! l = Some (SessionStore.session_dict t m true)).
Proof.
  intros Hh. induction vs as [|v vs IH]; intros Hall.
  - exists false. split; [done|]. split; [done|]. intros (l & t & m & Hin & _).
    by apply elem_of_nil in Hin.
  - destruct (Hall v) as (l & t & m & u & -> & Hl); [by left|].
    destruct IH as (b & Hrun & Hb); [intros v Hv; apply Hall; by right|].
    assert (Hget : getitem (VRef l) (lit "unseen") w = (Ok (VBool u), w)).
    { unfold getitem. rewrite (bind_Ok _ _ w (SessionStore.session_dict t m u) w)
        by (apply load_Ok; by rewrite Hh).
      by rewrite session_dict_unseen. }
    simpl. rewrite (bind_Ok _ _ _ _ _ Hget). simpl.
    unfold mbind at 1, M_bind. simpl. destruct u.
    + exists true. split; [done|]. split; [|done]. intros _. exists l, t, m. split; [by left|done].
    + exists b. split; [done|]. rewrite Hb. split.
      * intros (l' & t' & m' & Hin & Hl'). exists l', t', m'. split; [by right|done].
      * intros (l' & t' & m' & Hin & Hl'). exists l', t', m'. split; [|done].
        apply elem_of_cons in Hin as [Heq|Hin]; [|done]. simplify_eq.
Qed.

Lemma has_unseen_spec self w :
  store_ok self (heap w) →
  ∃ b, SessionStore.has_unseen self w = (Ok b, w) ∧
       (b = true ↔ map_Exists (λ _ d, d !! lit "unseen" = Some (VBool true))
                      (contents (heap w) (SessionStore._sessions self))).
Proof.
  intros Hok. pose proof Hok as (root & outer & E & Hr & Hall).
  destruct (any_unseen_run (heap w) (snd <$> map_to_list outer) w eq_refl) as (b & Hrun & Hb).
  { intros v Hv. apply list_elem_of_fmap in Hv as ([k v'] & -> & Hkv).
    apply elem_of_map_to_list in Hkv.
    destruct (Hall k v' Hkv) as (l & t & m & u & -> & _ & Hl). eauto 10. }
  exists b. split.
  - unfold SessionStore.has_unseen, values. rewrite E.
    rewrite (bind_Ok _ _ w (snd <$> map_to_list outer) w); [done|].
    by rewrite (bind_Ok _ _ _ _ _ (load_Ok _ _ _ Hr)).
  - rewrite Hb, E. split.
    + intros (l & t & m & Hin & Hl).
      apply list_elem_of_fmap in Hin as ([k v'] & Ev & Hkv). simpl in Ev. subst v'.
      apply elem_of_map_to_list in Hkv.
      exists k, (SessionStore.session_dict t m true). split; [|apply session_dict_unseen].
      rewrite (contents_lookup _ _ outer) by done. rewrite Hkv. done.
    + intros (k & d & Hk & Hd). rewrite (contents_lookup _ _ outer) in Hk by done.
      destruct (outer !! k) as [v|] eqn:Hkv; [|done]. simpl in Hk.
      destruct (Hall k v Hkv) as (l & t & m & u & -> & _ & Hl). simpl in Hk.
      rewrite Hl in Hk. simplify_eq. rewrite session_dict_unseen in Hd. simplify_eq.
      exists l, t, m. split; [|done].
      apply list_elem_of_fmap. exists (k, VRef l). split; [done|]. by apply elem_of_map_to_list.
Qed.

Lemma values_Ok l d w :
  heap w !! l = Some d → values (VRef l) w = (Ok (snd <$> map_to_list d), w).
Proof. intros H. unfold values. by rewrite (bind_Ok _ _ _ _ _ (load_Ok _ _ _ H)). Qed.

Lemma items_Ok l d w :
  heap w !! l = Some d → items (VRef l) w = (Ok (map_to_list d), w).
Proof. intros H. unfold items. by rewrite (bind_Ok _ _ _ _ _ (load_Ok _ _ _ H)). Qed.

Lemma elem_of_values (d : gmap pystr value) v :
  v ∈ snd <$> map_to_list d ↔ ∃ k, d !! k = Some v.
Proof.
  rewrite list_elem_of_fmap. split.
  - intros ([k v'] & -> & Hkv). exists k. by apply elem_of_map_to_list.
  - intros [k Hk]. exists (k, v). split; [done|]. by apply elem_of_map_to_list.
Qed.

Lemma mark_all_seen_spec self w :
  store_ok self (heap w) →
  store_method self (SessionStore.mark_all_seen self) w tt [Call_mark_all_seen]
    (fmap (insert (lit "unseen") (VBool false))).
Proof.
  intros Hok. pose proof Hok as (root & outer & E & Hr & Hall).
  destruct w as [h dy ti mn sk tr]. simpl in *.
  set (vs := snd <$> map_to_list outer).
  set (w1 := World h dy ti mn sk (tr ++ [Call_mark_all_seen])).
  destruct (for_each_inv
    (λ done w2, ∃ h2, w2 = World h2 dy ti mn sk (tr ++ [Call_mark_all_seen]) ∧
       (∀ l, VRef l ∈ done → h2 !! l = <[lit "unseen" := VBool false]> <$> h !! l) ∧
       (∀ l, VRef l ∉ done → h2 !! l = h !! l))
    vs (λ session, setitem session (lit "unseen") (VBool false)) w1)
    as (w' & Hloop & h' & -> & Hin & Hout).
  { exists h. split; [done|]. split; [|done]. intros l Hl. by apply elem_of_nil in Hl. }
  { intros done x rest w2 Evs (h2 & -> & Hin & Hout).
    assert (Hx : x ∈ vs) by (rewrite Evs; apply elem_of_app; right; by left).
    apply elem_of_values in Hx as [k Hk].
    destruct (Hall k x Hk) as (l & t & m & u & -> & Hne & Hl).
    assert (∃ d2, h2 !! l = Some d2 ∧
              <[lit "unseen" := VBool false]> d2 = SessionStore.session_dict t m false)
      as (d2 & Hd2 & Hseen).
    { destruct (decide (VRef l ∈ done)) as [Hd|Hd].
      - exists (SessionStore.session_dict t m false).
        rewrite (Hin l Hd), Hl. simpl. rewrite session_dict_seen.
        split; [done|]. apply session_dict_seen.
      - exists (SessionStore.session_dict t m u). rewrite (Hout l Hd).
        split; [done|]. apply session_dict_seen. }
    eexists. split; [by apply (setitem_Ok l d2)|]. simpl.
    eexists. split; [done|]. rewrite Hseen. split.
    - intros l' Hl'. destruct (decide (l' = l)) as [->|Hne'].
      + rewrite lookup_insert_eq, Hl. simpl. by rewrite session_dict_seen.
      + rewrite lookup_insert_ne by done. apply Hin.
        apply elem_of_app in Hl' as [?|Hl']; [done|].
        apply list_elem_of_singleton in Hl'. simplify_eq.
    - intros l' Hl'. rewrite lookup_insert_ne.
      + apply Hout. intros ?. apply Hl'. apply elem_of_app. by left.
      + intros <-. apply Hl'. apply elem_of_app. right. by left. }
  assert (Hroot : VRef root ∉ vs).
  { intros [k Hk]%elem_of_values.
    by destruct (Hall k _ Hk) as (l & t & m & u & ? & Hne & Hl); simplify_eq. }
  assert (Hr' : h' !! root = Some outer) by (by rewrite (Hout root Hroot)).
  assert (Hok' : store_ok self h').
  { exists root, outer. split; [done|]. split; [done|]. intros k v Hk.
    destruct (Hall k v Hk) as (l & t & m & u & -> & Hne & Hl).
    exists l, t, m, false. repeat split; [done|].
    rewrite Hin, Hl by (apply elem_of_values; eauto). simpl. by rewrite session_dict_seen. }
  exists h'. split; [|split; [done|split]].
  - unfold SessionStore.mark_all_seen. rewrite E.
    rewrite (bind_Ok _ _ _ tt w1) by done.
    rewrite (bind_Ok _ _ w1 vs w1) by (by apply values_Ok).
    apply Hloop.
  - rewrite E. apply map_eq. intros k. rewrite lookup_fmap.
    rewrite (contents_lookup h' root outer), (contents_lookup h root outer) by done.
    destruct (outer !! k) as [v|] eqn:Hk; [|done]. simpl.
    destruct (Hall k v Hk) as (l & t & m & u & -> & Hne & Hl). simpl.
    apply Hin. apply elem_of_values; eauto.
  - split; [|split].
    + intros l d Hd Hnr. rewrite Hout; [done|]. intros [k Hk]%elem_of_values.
      apply Hnr. rewrite E. eauto using reach_ref.
    + intros l (r & d & Er & Hd & Hl). rewrite E in Er. simplify_eq. left. rewrite E.
      destruct Hl as [->|[k Hk]]; eauto using reach_root, reach_ref.
    + by apply store_ok_closed.
Qed.

Lemma dict_copy_Ok l d w :
  heap w !! l = Some d →
  dict_copy (VRef l) w =
    (Ok (VRef (fresh (dom (heap w)))), set_heap (<[fresh (dom (heap w)) := d]> (heap w)) w).
Proof. intros H. unfold dict_copy. by rewrite (bind_Ok _ _ _ _ _ (load_Ok _ _ _ H)). Qed.

(** [get_all] builds its result out of new objects only: the snapshot and
    every dict in it are allocated by the call, and nothing that existed is
    written. *)
Lemma get_all_spec self w :
  store_ok self (heap w) →
  ∃ snap h',
    SessionStore.get_all self w = (Ok snap, set_heap h' w) ∧
    store_ok self h' ∧
    (∀ l d, heap w !! l = Some d → h' !! l = Some d) ∧
    (∀ l, reach h' snap l → heap w !! l = None) ∧
    closed h' snap ∧
    contents h' snap = contents (heap w) (SessionStore._sessions self) ∧
    store_ok (SessionStore.Build snap) h'.
Proof.
  intros Hok. pose proof Hok as (root & outer & E & Hr & Hall).
  destruct w as [h dy ti mn sk tr]. simpl in *.
  set (r := fresh (dom h)).
  assert (Hfr : h !! r = None) by apply fresh_heap_None.
  set (kvs := map_to_list outer).
  assert (Hkvs : ∀ k v, (k, v) ∈ kvs ↔ outer !! k = Some v)
    by (intros; apply elem_of_map_to_list).
  assert (Hnd : NoDup (fst <$> kvs)) by apply NoDup_fst_map_to_list.
  set (w0 := World (<[r := ∅]> h) dy ti mn sk tr).
  destruct (for_each_inv
    (λ done w2, ∃ h2 sd, w2 = World h2 dy ti mn sk tr ∧
       (∀ l d, h !! l = Some d → h2 !! l = Some d) ∧
       h2 !! r = Some sd ∧
       (∀ k v, (k, v) ∈ done →
          ∃ c, sd !! k = Some (VRef c) ∧ h !! c = None ∧ c ≠ r ∧ h2 !! c = deref h v) ∧
       (∀ k, is_Some (sd !! k) → ∃ v, (k, v) ∈ done))
    kvs (λ '(k, v), c ← dict_copy v; setitem (VRef r) k c) w0)
    as (w' & Hloop & h' & sd & -> & Hsub & Hsd & Hin & Hout).
  { exists (<[r := ∅]> h), ∅. split; [done|]. split; [|split; [|split]].
    - intros l d Hd. rewrite lookup_insert_ne; [done|]. intros <-. congruence.
    - apply lookup_insert_eq.
    - intros k v Hkv. by apply elem_of_nil in Hkv.
    - intros k [? Hk]. by rewrite lookup_empty in Hk. }
  { intros done [k v] rest w2 Evs (h2 & sd & -> & Hsub & Hsd & Hin & Hout).
    assert (Hkv : outer !! k = Some v).
    { apply Hkvs. rewrite Evs. apply elem_of_app. right. by left. }
    destruct (Hall k v Hkv) as (l & t & m & u & -> & Hne & Hl).
    assert (Hk : ∀ k' v', (k', v') ∈ done → k' ≠ k).
    { intros k' v' Hd ->. rewrite Evs, fmap_app in Hnd.
      apply NoDup_app in Hnd as (_ & Hnd & _). apply (Hnd k).
      - apply list_elem_of_fmap. by exists (k, v').
      - simpl. by left. }
    set (c := fresh (dom h2)).
    assert (Hc2 : h2 !! c = None) by apply fresh_heap_None.
    assert (Hcr : c ≠ r) by (intros Ecr; rewrite Ecr in Hc2; congruence).
    assert (Hc : h !! c = None).
    { destruct (h !! c) as [d|] eqn:Hd; [|done]. apply Hsub in Hd. congruence. }
    exists (World (<[r := <[k := VRef c]> sd]> (<[c := SessionStore.session_dict t m u]> h2))
              dy ti mn sk tr).
    split.
    { rewrite (bind_Ok _ _ _ _ _ (dict_copy_Ok l _ (World h2 dy ti mn sk tr) (Hsub _ _ Hl))).
      simpl. fold c.
      rewrite (setitem_Ok r sd); [done|]. simpl. by rewrite lookup_insert_ne. }
    eexists _, _. split; [done|]. split; [|split; [|split]].
    - intros l0 d0 Hd0. rewrite !lookup_insert_ne; [by apply Hsub| |]; intros <-; congruence.
    - apply lookup_insert_eq.
    - intros k' v' [Hd|Hd]%elem_of_app.
      + destruct (Hin k' v' Hd) as (c' & Hk' & Hc' & Hcr' & Hh2).
        exists c'. rewrite lookup_insert_ne by (apply not_eq_sym; eauto).
        repeat split; [done..|].
        assert (is_Some (h2 !! c')) as [d' Hd'].
        { rewrite Hh2. assert (Hv' : outer !! k' = Some v').
          { apply Hkvs. rewrite Evs. apply elem_of_app. by left. }
          destruct (Hall k' v' Hv') as (l' & ? & ? & ? & -> & _ & Hl'). simpl. eauto. }
        rewrite !lookup_insert_ne; [done| |]; [congruence|]. intros <-. congruence.
      + apply list_elem_of_singleton in Hd. simplify_eq. exists c.
        rewrite lookup_insert_eq. repeat split; [done..|].
        rewrite lookup_insert_ne by done. by rewrite lookup_insert_eq.
    - intros k' Hk'. destruct (decide (k' = k)) as [->|Hne'].
      + exists (VRef l). apply elem_of_app. right. by left.
      + rewrite lookup_insert_ne in Hk' by done. destruct (Hout k' Hk') as [v' Hv'].
        exists v'. apply elem_of_app. by left. }
  assert (Hok' : store_ok self h').
  { exists root, outer. split; [done|]. split; [by apply Hsub|]. intros k v Hk.
    destruct (Hall k v Hk) as (l & t & m & u & -> & Hne & Hl).
    exists l, t, m, u. repeat split; [done|]. by apply Hsub. }
  exists (VRef r), h'. split; [|split; [done|split; [done|split; [|split; [|split]]]]].
  - unfold SessionStore.get_all. rewrite E.
    rewrite (bind_Ok _ _ _ kvs _ (items_Ok root outer (World h dy ti mn sk tr) Hr)).
    rewrite (bind_Ok _ _ _ (VRef r) w0) by done.
    by rewrite (bind_Ok _ _ _ tt _ Hloop).
  - intros l (r' & d & Er & Hd & Hl). simplify_eq.
    destruct Hl as [->|[k Hk]]; [done|].
    destruct (Hout k) as [v Hv]; [eauto|].
    destruct (Hin k v Hv) as (c & Hk' & Hc & _). congruence.
  - split; [simpl; eauto|]. intros l (r' & d & Er & Hd & Hl). simplify_eq.
    destruct Hl as [->|[k Hk]]; [eauto|].
    destruct (Hout k) as [v Hv]; [eauto|].
    destruct (Hin k v Hv) as (c & Hk' & Hc & _ & Hh'). simplify_eq. rewrite Hh'.
    apply Hkvs in Hv. destruct (Hall k v Hv) as (l' & ? & ? & ? & -> & _ & Hl'). simpl. eauto.
  - rewrite E. apply map_eq. intros k.
    rewrite (contents_lookup h' r sd), (contents_lookup h root outer) by done.
    destruct (outer !! k) as [v|] eqn:Hk.
    + destruct (Hin k v) as (c & -> & _ & _ & Hh'); [by apply Hkvs|]. done.
    + destruct (sd !! k) as [x|] eqn:Hx; [|done].
      destruct (Hout k) as [v Hv]; [eauto|]. apply Hkvs in Hv. congruence.
  - exists r, sd. split; [done|]. split; [done|]. intros k x Hx.
    destruct (Hout k) as [v Hv]; [eauto|].
    destruct (Hin k v Hv) as (c & Hk' & _ & Hcr & Hh'). simplify_eq.
    apply Hkvs in Hv. destruct (Hall k v Hv) as (l' & t & m & u & -> & _ & Hl').
    exists c, t, m, u. repeat split; [done|]. by rewrite Hh'.
Qed.

End store_methods.

(** * Callers and the store do not interfere *)

Section frame.
Implicit Types (h : gmap loc (gmap pystr value)) (v : value) (l : loc).
Implicit Types (d : gmap pystr value) (self : SessionStore.t) (w : world).

Lemma separate_agree h h' v1 v2 :
  separate h v1 v2 → confined v1 h h' → ∀ l, reach h v2 l → h' !! l = h !! l.
Proof.
  intros (C1 & [A2 C2] & Hdis) (Hkeep & Hnew & C1') l Hl.
  destruct (C2 l Hl) as [d Hd]. rewrite Hd. apply Hkeep; [done|].
  intros Hl1. by apply (Hdis l).
Qed.

Lemma store_ok_agree self h h' :
  store_ok self h → (∀ l, reach h (SessionStore._sessions self) l → h' !! l = h !! l) →
  store_ok self h'.
Proof.
  intros (root & outer & E & Hr & Hall) Hag. rewrite E in Hag.
  exists root, outer. split; [done|]. split; [rewrite Hag; eauto using reach_root|].
  intros k v Hk. destruct (Hall k v Hk) as (l & t & m & u & -> & Hne & Hl).
  exists l, t, m, u. repeat split; [done|]. rewrite Hag; eauto using reach_ref.
Qed.

(** One write to an object of the structure. *)
Lemma confined_write h v l d' :
  closed h v → reach h v l →
  (v = VRef l → ∀ k l', d' !! k = Some (VRef l') → reach h v l') →
  confined v h (<[l := d']> h).
Proof.
  intros [A C] Hl Hrefs.
  assert (Hsub : ∀ l0, reach (<[l := d']> h) v l0 → reach h v l0).
  { intros l0 (r & dr & -> & Hdr & Hl0). destruct (decide (r = l)) as [->|Hne].
    - rewrite lookup_insert_eq in Hdr. simplify_eq. destruct Hl0 as [->|[k Hk]]; eauto.
    - rewrite lookup_insert_ne in Hdr by done.
      destruct Hl0 as [->|[k Hk]]; eauto using reach_root, reach_ref. }
  split; [|split; [|split]].
  - intros l0 d0 Hd0 Hnr. rewrite lookup_insert_ne; [done|]. by intros <-.
  - eauto.
  - destruct v as [| |r]; try (by destruct A). simpl in *.
    destruct (decide (l = r)) as [->|Hne]; [rewrite lookup_insert_eq|rewrite lookup_insert_ne]; eauto.
  - intros l0 Hl0%Hsub. destruct (decide (l = l0)) as [->|Hne];
      [rewrite lookup_insert_eq|rewrite lookup_insert_ne]; eauto.
Qed.

(** A new object linked into the top dict of the structure. *)
Lemma confined_link h r d k c dnew :
  closed h (VRef r) → h !! r = Some d → h !! c = None →
  confined (VRef r) h (<[r := <[k := VRef c]> d]> (<[c := dnew]> h)).
Proof.
  intros [A C] Hr Hc. assert (Hcr : c ≠ r) by congruence.
  assert (Hre : ∀ l0, reach (<[r := <[k := VRef c]> d]> (<[c := dnew]> h)) (VRef r) l0 →
                      reach h (VRef r) l0 ∨ l0 = c).
  { intros l0 (r' & dr & E & Hdr & Hl0). simplify_eq. rewrite lookup_insert_eq in Hdr.
    simplify_eq. destruct Hl0 as [->|[k' Hk']]; [eauto using reach_root|].
    destruct (decide (k' = k)) as [->|Hne].
    - rewrite lookup_insert_eq in Hk'. simplify_eq. by right.
    - rewrite lookup_insert_ne in Hk' by done. eauto using reach_ref. }
  split; [|split; [|split]].
  - intros l0 d0 Hd0 Hnr. rewrite !lookup_insert_ne; [done|congruence|].
    intros <-. apply Hnr. eauto using reach_root.
  - intros l0 [?| ->]%Hre; eauto.
  - simpl. rewrite lookup_insert_eq. eauto.
  - intros l0 [Hl0| ->]%Hre.
    + destruct (C l0 Hl0) as [d0 Hd0].
      destruct (decide (r = l0)) as [->|Hne]; [rewrite lookup_insert_eq; eauto|].
      rewrite !lookup_insert_ne; [eauto|congruence|done].
    + rewrite lookup_insert_ne by done. rewrite lookup_insert_eq. eauto.
Qed.

Lemma atom_value_not_ref x l : atom_value x ≠ VRef l.
Proof. by destruct x. Qed.

(** Whatever a caller does to a structure, and whether or not it raises, the
    writes stay inside the structure. *)
Lemma mutate_confined snap mu w :
  closed (heap w) snap →
  ∃ res h', mutate snap mu w = (res, set_heap h' w) ∧ confined snap (heap w) h'.
Proof.
  intros Hc. pose proof Hc as [A C].
  destruct snap as [| |r]; try (by destruct A). destruct A as [d Hr]. simpl in Hr.
  assert (Hsame : ∀ res : result unit, ∃ res' h', (res, w) = (res', set_heap h' w) ∧
                                   confined (VRef r) (heap w) h').
  { intros res. exists res, (heap w). rewrite set_heap_id. eauto using confined_refl. }
  assert (Hinner : ∀ k s (g : gmap pystr value → gmap pystr value),
            d !! k = Some s →
            (∀ dl k' l', g dl !! k' = Some (VRef l') → dl !! k' = Some (VRef l')) →
            ∃ res h', (c ← load s; store s (g c)) w = (res, set_heap h' w) ∧
                      confined (VRef r) (heap w) h').
  { intros k s g Hk Hg. destruct s as [| |l]; try apply Hsame.
    destruct (C l) as [dl Hl]; [eauto using reach_ref|].
    rewrite (bind_Ok _ _ _ _ _ (load_Ok _ _ _ Hl)). eexists _, _. split; [done|].
    apply confined_write; [done|eauto using reach_ref|].
    intros El k' l' Hk'%Hg. simplify_eq. eauto using reach_ref. }
  destruct mu as [k f x|k f|k fields|k|k k'|]; unfold mutate.
  - destruct (d !! k) as [s|] eqn:Hk;
      [|rewrite (bind_Raise _ _ _ _ _ (getitem_KeyError _ _ _ _ Hr Hk)); apply Hsame].
    rewrite (bind_Ok _ _ _ _ _ (getitem_Ok _ _ _ _ _ Hr Hk)).
    apply (Hinner k s (insert f (atom_value x))); [done|].
    intros dl k' l' Hk'. destruct (decide (k' = f)) as [->|Hne].
    + rewrite lookup_insert_eq in Hk'. simplify_eq. by destruct x.
    + by rewrite lookup_insert_ne in Hk'.
  - destruct (d !! k) as [s|] eqn:Hk;
      [|rewrite (bind_Raise _ _ _ _ _ (getitem_KeyError _ _ _ _ Hr Hk)); apply Hsame].
    rewrite (bind_Ok _ _ _ _ _ (getitem_Ok _ _ _ _ _ Hr Hk)).
    apply (Hinner k s (delete f)); [done|].
    intros dl k' l' Hk'. by apply lookup_delete_Some in Hk' as [_ ?].
  - assert (Hc' : heap w !! fresh (dom (heap w)) = None) by apply fresh_heap_None.
    assert (fresh (dom (heap w)) ≠ r) by congruence.
    exists (Ok tt), (<[r := <[k := VRef (fresh (dom (heap w)))]> d]>
                       (<[fresh (dom (heap w)) := atom_value <$> fields]> (heap w))).
    split; [|by apply confined_link].
    unfold alloc, mbind, M_bind. rewrite (setitem_Ok r d); [done|].
    simpl. by rewrite lookup_insert_ne.
  - rewrite (pop_default_Ok r d) by done. eexists _, _. split; [done|].
    apply confined_write; [done|eauto using reach_root|].
    intros _ k' l' Hk'. apply lookup_delete_Some in Hk' as [_ ?]. eauto using reach_ref.
  - destruct (d !! k') as [s|] eqn:Hk;
      [|rewrite (bind_Raise _ _ _ _ _ (getitem_KeyError _ _ _ _ Hr Hk)); apply Hsame].
    rewrite (bind_Ok _ _ _ _ _ (getitem_Ok _ _ _ _ _ Hr Hk)).
    rewrite (setitem_Ok r d) by done.
    eexists _, _. split; [done|].
    apply confined_write; [done|eauto using reach_root|].
    intros _ k0 l' Hk0. destruct (decide (k0 = k)) as [->|Hne].
    + rewrite lookup_insert_eq in Hk0. simplify_eq. eauto using reach_ref.
    + rewrite lookup_insert_ne in Hk0 by done. eauto using reach_ref.
  - rewrite (bind_Ok _ _ _ _ _ (load_Ok _ _ _ Hr)). eexists _, _. split; [done|].
    apply confined_write; [done|eauto using reach_root|].
    intros _ k' l' Hk'. by rewrite lookup_empty in Hk'.
Qed.

(** A heap that only gained objects. *)
Lemma extends_confined h h' v :
  closed h v → (∀ l d, h !! l = Some d → h' !! l = Some d) →
  confined v h h' ∧ contents h' v = contents h v.
Proof.
  intros [A C] Hsub.
  assert (Hag : ∀ l, reach h v l → h' !! l = h !! l).
  { intros l Hl. destruct (C l Hl) as [d Hd]. rewrite Hd. by apply Hsub. }
  pose proof (reach_agree h h' v A Hag) as Hre.
  split; [|by apply contents_agree]. split; [|split; [|split]].
  - intros l d Hd _. by apply Hsub.
  - intros l Hl%Hre. by left.
  - destruct v as [| |r]; try (by destruct A). destruct A as [d Hd]. simpl in *. eauto.
  - intros l Hl%Hre. rewrite Hag by done. by apply C.
Qed.

(** Every call on the store is a store method, and does to the contents
    what [apply_call] says. *)
Lemma run_call_spec self c w :
  store_ok self (heap w) →
  ∃ evs, store_method self (run_call self c) w tt evs (apply_call c).
Proof.
  intros Hok. destruct c as [id t m|id| | | |]; simpl.
  - eexists. by apply upsert_spec.
  - eexists. by apply remove_spec.
  - eexists. by apply mark_all_seen_spec.
  - destruct (get_all_spec self w Hok) as (snap & h' & Hrun & Hok' & Hsub & _ & _ & _).
    destruct (extends_confined (heap w) h' (SessionStore._sessions self)) as [Hcf Hct];
      [by apply store_ok_closed|done|].
    exists [], h'. rewrite app_nil_r. split; [|done].
    by rewrite (bind_Ok _ _ _ _ _ Hrun).
  - destruct (has_unseen_spec self w Hok) as (b & Hrun & _).
    exists [], (heap w). rewrite app_nil_r. split; [|split; [done|split; [done|]]].
    + rewrite (bind_Ok _ _ _ _ _ Hrun). by destruct w.
    + by apply confined_refl, store_ok_closed.
  - exists [], (heap w). rewrite app_nil_r. split; [|split; [done|split; [done|]]].
    + rewrite (bind_Ok _ _ _ _ _ (count_spec self w Hok)). by destruct w.
    + by apply confined_refl, store_ok_closed.
Qed.

(** A sequence of calls on the store: each returns, the contents follow the
    map model, and a structure separate from the store is left as it was. *)
Lemma run_calls_spec self cs w :
  store_ok self (heap w) →
  ∃ w', for_each cs (run_call self) w = (Ok tt, w') ∧
    store_ok self (heap w') ∧
    contents (heap w') (SessionStore._sessions self) =
      apply_calls cs (contents (heap w) (SessionStore._sessions self)) ∧
    ∀ v, separate (heap w) (SessionStore._sessions self) v →
         separate (heap w') (SessionStore._sessions self) v ∧
         contents (heap w') v = contents (heap w) v.
Proof.
  revert w. induction cs as [|c cs IH]; intros w Hok.
  - exists w. split; [done|]. split; [done|]. split; [done|]. intros v ?. by split.
  - destruct (run_call_spec self c w Hok) as (evs & h1 & Hrun & Hok1 & Hct1 & Hcf1).
    set (w1 := World h1 (dirty w) (title w) (menu w) (session_keys w) (trace w ++ evs)) in *.
    destruct (IH w1 Hok1) as (w' & Hrest & Hok' & Hct' & Hsep').
    exists w'. split; [|split; [done|split]].
    + simpl. by rewrite (bind_Ok _ _ _ _ _ Hrun).
    + unfold apply_calls in *. simpl. rewrite Hct'. simpl. by rewrite Hct1.
    + intros v Hsep. destruct (separate_confined _ _ _ _ Hsep Hcf1) as [Hsep1 Hv1].
      destruct (Hsep' v Hsep1) as [Hsep2 Hv2]. split; [done|]. by rewrite Hv2.
Qed.

(** A sequence of mutations of a structure separate from the store, run
    until it ends or raises: the store is left as it was. *)
Lemma mutations_frame self snap ms w res w' :
  store_ok self (heap w) →
  separate (heap w) snap (SessionStore._sessions self) →
  for_each ms (mutate snap) w = (res, w') →
  store_ok self (heap w') ∧
  separate (heap w') snap (SessionStore._sessions self) ∧
  contents (heap w') (SessionStore._sessions self) =
    contents (heap w) (SessionStore._sessions self).
Proof.
  revert w. induction ms as [|mu ms IH]; intros w Hok Hsep Hrun.
  - simpl in Hrun. unfold mret, M_ret in Hrun. by simplify_eq.
  - destruct (mutate_confined snap mu w) as (r1 & h1 & Hmu & Hcf); [by destruct Hsep|].
    destruct (separate_confined _ _ _ _ Hsep Hcf) as [Hsep1 Hct1].
    assert (Hok1 : store_ok self h1).
    { apply (store_ok_agree self (heap w)); [done|]. by apply (separate_agree _ _ snap). }
    simpl in Hrun. destruct r1 as [[]|e].
    + rewrite (bind_Ok _ _ _ _ _ Hmu) in Hrun.
      destruct (IH (set_heap h1 w) Hok1 Hsep1 Hrun) as (? & ? & Hct).
      split; [done|]. split; [done|]. rewrite Hct. apply Hct1.
    + rewrite (bind_Raise _ _ _ _ _ Hmu) in Hrun. by simplify_eq.
Qed.

(** Mutations of a structure separate from the store and calls on the
    store, interleaved: the contents of the store follow the calls alone. *)
Lemma acts_spec self snap acts w :
  store_ok self (heap w) →
  separate (heap w) snap (SessionStore._sessions self) →
  ∃ w', for_each acts (act self snap) w = (Ok tt, w') ∧
    store_ok self (heap w') ∧
    separate (heap w') snap (SessionStore._sessions self) ∧
    contents (heap w') (SessionStore._sessions self) =
      apply_calls (calls_of acts) (contents (heap w) (SessionStore._sessions self)).
Proof.
  revert w. induction acts as [|[mu|c] acts IH]; intros w Hok Hsep.
  - by exists w.
  - destruct (mutate_confined snap mu w) as (r1 & h1 & Hmu & Hcf); [by destruct Hsep|].
    destruct (separate_confined _ _ _ _ Hsep Hcf) as [Hsep1 Hct1].
    assert (Hok1 : store_ok self h1).
    { apply (store_ok_agree self (heap w)); [done|]. by apply (separate_agree _ _ snap). }
    destruct (IH (set_heap h1 w) Hok1 Hsep1) as (w' & Hrest & Hok' & Hsep' & Hct').
    exists w'. split; [|split; [done|split; [done|]]].
    + simpl. rewrite (bind_Ok _ _ _ tt (set_heap h1 w)); [done|].
      unfold attempt. by rewrite Hmu.
    + rewrite Hct'. simpl. by rewrite Hct1.
  - destruct (run_call_spec self c w Hok) as (evs & h1 & Hrun & Hok1 & Hct1 & Hcf1).
    set (w1 := World h1 (dirty w) (title w) (menu w) (session_keys w) (trace w ++ evs)) in *.
    destruct (separate_confined _ _ _ _ (separate_sym _ _ _ Hsep) Hcf1) as [Hsep1 _].
    destruct (IH w1 Hok1 (separate_sym _ _ _ Hsep1)) as (w' & Hrest & Hok' & Hsep' & Hct').
    exists w'. split; [|split; [done|split; [done|]]].
    + simpl. by rewrite (bind_Ok _ _ _ _ _ Hrun).
    + rewrite Hct'. simpl. unfold apply_calls. simpl. by rewrite Hct1.
Qed.

(** The result of [get_all] and the store share no object. *)
Lemma get_all_separate self w snap h' :
  store_ok self h' →
  (∀ l d, heap w !! l = Some d → h' !! l = Some d) →
  (∀ l, reach h' snap l → heap w !! l = None) →
  closed h' snap →
  store_ok self (heap w) →
  separate h' snap (SessionStore._sessions self).
Proof.
  intros Hok' Hsub Hnew Hcl Hok. split; [done|]. split; [by apply store_ok_closed|].
  intros l Hl Hs. apply Hnew in Hl.
  destruct (extends_confined (heap w) h' (SessionStore._sessions self)) as [(_ & Hre & _) _];
    [by apply store_ok_closed|done|].
  destruct (Hre l Hs) as [Hold|Hnone].
  - destruct (store_ok_closed self (heap w) Hok) as [_ C]. destruct (C l Hold). congruence.
  - destruct (store_ok_closed self h' Hok') as [_ C]. destruct (C l Hs) as [d Hd].
    (* [l] is an object of the store in [h'], so it was one before the call *)
    destruct Hs as (r & dr & E & Hdr & Hl').
    destruct Hok as (root & outer & E0 & Hr0 & Hall). rewrite E0 in E. simplify_eq.
    rewrite (Hsub _ _ Hr0) in Hdr. simplify_eq.
    destruct Hl' as [->|[k Hk]]; [congruence|].
    destruct (Hall k _ Hk) as (l' & ? & ? & ? & ? & _ & Hl''). simplify_eq.
Qed.

Lemma has_unseen_same self w w' :
  store_ok self (heap w) → store_ok self (heap w') →
  contents (heap w') (SessionStore._sessions self) = contents (heap w) (SessionStore._sessions self) →
  fst (SessionStore.has_unseen self w') = fst (SessionStore.has_unseen self w).
Proof.
  intros Hok Hok' Hct.
  destruct (has_unseen_spec self w Hok) as (b & -> & Hb).
  destruct (has_unseen_spec self w' Hok') as (b' & -> & Hb'). simpl.
  rewrite Hct in Hb'. f_equal. destruct b, b'; try done.
  - apply Hb'. by apply Hb.
  - symmetry. apply Hb. by apply Hb'.
Qed.

End frame.

(** * The store: properties *)

Lemma store_ok_init w :
  ∃ self w', SessionStore.__init__ w = (Ok self, w') ∧ store_ok self (heap w').
Proof.
  eexists _, _. split; [done|]. simpl.
  exists (fresh (dom (heap w))), ∅. split; [done|]. split; [apply lookup_insert_eq|].
  apply map_Forall_empty.
Qed.

Lemma store1_init : SessionStore.__init__ world0 = (Ok store1, world1).
Proof. by vm_compute. Qed.

Lemma store1_ok : store_ok store1 (heap world1).
Proof.
  exists 1%positive, ∅. split; [done|]. split; [done|]. apply map_Forall_empty.
Qed.

Lemma world2_ok : store_ok store1 (heap world2).
Proof.
  destruct (run_calls_spec store1
              [call_upsert (lit "100") (lit "build") (lit "started");
               call_upsert (lit "200") (lit "deploy") (lit "")] world1 store1_ok)
    as (w' & Hrun & Hok & _).
  unfold world2. by rewrite Hrun.
Qed.

(** C5: [upsert(id, title, message)] followed by [get_all()] yields an entry
    for [id] whose dict is exactly [{event_title: title, event_msg: message,
    unseen: True}], whatever the store held for [id] before; and [count()]
    after the upsert equals [count()] before it when [id] was already
    present (it grows by one only when [id] was absent). *)
Theorem upsert_then_get_all self w id t m :
  store_ok self (heap w) →
  ∃ w1 snap w2 n n1,
    SessionStore.upsert self id t m w = (Ok tt, w1) ∧
    SessionStore.get_all self w1 = (Ok snap, w2) ∧
    contents (heap w2) snap !! id = Some (SessionStore.session_dict t m true) ∧
    SessionStore.count self w = (Ok n, w) ∧
    SessionStore.count self w1 = (Ok n1, w1) ∧
    (is_Some (contents (heap w) (SessionStore._sessions self) !! id) → n1 = n) ∧
    (contents (heap w) (SessionStore._sessions self) !! id = None → n1 = S n).
Proof.
  intros Hok.
  destruct (upsert_spec self w id t m Hok) as (h1 & Hup & Hok1 & Hct1 & _).
  set (w1 := World h1 (dirty w) (title w) (menu w) (session_keys w)
                (trace w ++ [Call_upsert id t m])) in *.
  destruct (get_all_spec self w1 Hok1) as (snap & h2 & Hget & _ & _ & _ & _ & Hct2 & _).
  exists w1, snap, (set_heap h2 w1). eexists _, _.
  split; [done|]. split; [done|]. split; [|split; [by apply count_spec|split;
    [by apply (count_spec self w1)|]]].
  - simpl. rewrite Hct2. simpl. rewrite Hct1. apply lookup_insert_eq.
  - simpl. rewrite Hct1. split.
    + intros Hd. by rewrite map_size_insert_Some.
    + intros Hd. by rewrite map_size_insert_None.
Qed.

Lemma upsert_then_get_all_witness :
  ∃ w1 snap w2 n n1,
    SessionStore.upsert store1 (lit "100") (lit "build") (lit "done") world2 = (Ok tt, w1) ∧
    SessionStore.get_all store1 w1 = (Ok snap, w2) ∧
    contents (heap w2) snap !! lit "100" =
      Some (SessionStore.session_dict (lit "build") (lit "done") true) ∧
    SessionStore.count store1 world2 = (Ok n, world2) ∧
    SessionStore.count store1 w1 = (Ok n1, w1) ∧
    (is_Some (contents (heap world2) (SessionStore._sessions store1) !! lit "100") → n1 = n) ∧
    (contents (heap world2) (SessionStore._sessions store1) !! lit "100" = None → n1 = S n).
Proof. apply upsert_then_get_all. exact world2_ok. Defined.

(** C6: [mark_all_seen()] sets [unseen] to [False] in every stored session
    and changes nothing else, so [has_unseen()] is [False] right after it;
    any upsert that follows makes [has_unseen()] [True] again, and leaves
    every session other than the upserted id as it was, hence seen. *)
Theorem mark_all_seen_then_upsert self w :
  store_ok self (heap w) →
  ∃ w1,
    SessionStore.mark_all_seen self w = (Ok tt, w1) ∧
    contents (heap w1) (SessionStore._sessions self) =
      insert (lit "unseen") (VBool false) <$> contents (heap w) (SessionStore._sessions self) ∧
    (∀ id d, contents (heap w1) (SessionStore._sessions self) !! id = Some d →
             d !! lit "unseen" = Some (VBool false)) ∧
    SessionStore.has_unseen self w1 = (Ok false, w1) ∧
    ∀ id t m, ∃ w2,
      SessionStore.upsert self id t m w1 = (Ok tt, w2) ∧
      SessionStore.has_unseen self w2 = (Ok true, w2) ∧
      ∀ id', id' ≠ id →
        contents (heap w2) (SessionStore._sessions self) !! id' =
          contents (heap w1) (SessionStore._sessions self) !! id' ∧
        ∀ d, contents (heap w2) (SessionStore._sessions self) !! id' = Some d →
             d !! lit "unseen" = Some (VBool false).
Proof.
  intros Hok.
  destruct (mark_all_seen_spec self w Hok) as (h1 & Hmark & Hok1 & Hct1 & _).
  set (w1 := World h1 (dirty w) (title w) (menu w) (session_keys w)
                (trace w ++ [Call_mark_all_seen])) in *.
  assert (Hseen : ∀ id d, contents (heap w1) (SessionStore._sessions self) !! id = Some d →
                          d !! lit "unseen" = Some (VBool false)).
  { intros id d. simpl. rewrite Hct1, lookup_fmap. intros Hd.
    apply fmap_Some in Hd as (d0 & _ & ->). apply lookup_insert_eq. }
  exists w1. split; [done|]. split; [done|]. split; [done|]. split.
  - destruct (has_unseen_spec self w1 Hok1) as ([] & Hrun & Hb); [|done].
    destruct (proj1 Hb eq_refl) as (id & d & Hd & Hu). rewrite (Hseen id d Hd) in Hu. done.
  - intros id t m.
    destruct (upsert_spec self w1 id t m Hok1) as (h2 & Hup & Hok2 & Hct2 & _).
    set (w2 := World h2 (dirty w1) (title w1) (menu w1) (session_keys w1)
                  (trace w1 ++ [Call_upsert id t m])) in *.
    exists w2. split; [done|]. split.
    + destruct (has_unseen_spec self w2 Hok2) as ([] & Hrun & Hb); [done|].
      assert (false = true); [|done]. apply Hb.
      exists id, (SessionStore.session_dict t m true). split; [|apply session_dict_unseen].
      simpl. rewrite Hct2. apply lookup_insert_eq.
    + intros id' Hne.
      assert (E : contents (heap w2) (SessionStore._sessions self) !! id' =
                  contents (heap w1) (SessionStore._sessions self) !! id').
      { simpl. rewrite Hct2. by apply lookup_insert_ne. }
      split; [done|]. intros d. rewrite E. apply Hseen.
Qed.

Lemma mark_all_seen_then_upsert_witness :
  ∃ w1,
    SessionStore.mark_all_seen store1 world2 = (Ok tt, w1) ∧
    contents (heap w1) (SessionStore._sessions store1) =
      insert (lit "unseen") (VBool false) <$> contents (heap world2) (SessionStore._sessions store1) ∧
    (∀ id d, contents (heap w1) (SessionStore._sessions store1) !! id = Some d →
             d !! lit "unseen" = Some (VBool false)) ∧
    SessionStore.has_unseen store1 w1 = (Ok false, w1) ∧
    ∀ id t m, ∃ w2,
      SessionStore.upsert store1 id t m w1 = (Ok tt, w2) ∧
      SessionStore.has_unseen store1 w2 = (Ok true, w2) ∧
      ∀ id', id' ≠ id →
        contents (heap w2) (SessionStore._sessions store1) !! id' =
          contents (heap w1) (SessionStore._sessions store1) !! id' ∧
        ∀ d, contents (heap w2) (SessionStore._sessions store1) !! id' = Some d →
             d !! lit "unseen" = Some (VBool false).
Proof. apply mark_all_seen_then_upsert. exact world2_ok. Defined.

(** C9: [get_all()] returns a copy of the whole map that shares no object
    with the store.  Whatever a caller then does to the returned structure,
    interleaved in any order with calls on the store, the contents of the
    store are those produced by the calls alone, and so is what a later
    [get_all()], [count()] or [has_unseen()] returns; and whatever calls are
    made on the store afterwards, the returned structure still holds what
    the store held at the time of the call. *)
Theorem get_all_independent self w :
  store_ok self (heap w) →
  ∃ snap w1,
    SessionStore.get_all self w = (Ok snap, w1) ∧
    contents (heap w1) snap = contents (heap w) (SessionStore._sessions self) ∧
    (∀ acts, ∃ w2,
       for_each acts (act self snap) w1 = (Ok tt, w2) ∧
       let s := apply_calls (calls_of acts) (contents (heap w) (SessionStore._sessions self)) in
       contents (heap w2) (SessionStore._sessions self) = s ∧
       (∃ snap' w3, SessionStore.get_all self w2 = (Ok snap', w3) ∧
                    contents (heap w3) snap' = s) ∧
       SessionStore.count self w2 = (Ok (size s), w2) ∧
       (∃ b, SessionStore.has_unseen self w2 = (Ok b, w2) ∧
             (b = true ↔ map_Exists (λ _ d, d !! lit "unseen" = Some (VBool true)) s))) ∧
    (∀ cs, ∃ w2,
       for_each cs (run_call self) w1 = (Ok tt, w2) ∧
       contents (heap w2) snap = contents (heap w) (SessionStore._sessions self)).
Proof.
  intros Hok.
  destruct (get_all_spec self w Hok) as (snap & h1 & Hget & Hok1 & Hsub & Hnew & Hcl & Hct & _).
  destruct (extends_confined (heap w) h1 (SessionStore._sessions self)) as [_ Hst];
    [by apply store_ok_closed|done|].
  pose proof (get_all_separate self w snap h1 Hok1 Hsub Hnew Hcl Hok) as Hsep.
  exists snap, (set_heap h1 w). split; [done|]. split; [done|]. split.
  - intros acts.
    destruct (acts_spec self snap acts (set_heap h1 w) Hok1 Hsep) as (w2 & Hrun & Hok2 & _ & Hct2).
    simpl in Hct2. rewrite Hst in Hct2.
    exists w2. split; [done|]. simpl. split; [done|]. split; [|split].
    + destruct (get_all_spec self w2 Hok2) as (snap' & h3 & Hget' & _ & _ & _ & _ & Hct3 & _).
      exists snap', (set_heap h3 w2). split; [done|]. simpl. by rewrite Hct3.
    + rewrite <- Hct2. by apply count_spec.
    + rewrite <- Hct2. by apply has_unseen_spec.
  - intros cs.
    destruct (run_calls_spec self cs (set_heap h1 w) Hok1) as (w2 & Hrun & _ & _ & Hfr).
    exists w2. split; [done|].
    destruct (Hfr snap (separate_sym _ _ _ Hsep)) as [_ Hsn]. simpl in Hsn. by rewrite Hsn.
Qed.

Lemma get_all_independent_witness :
  ∃ snap w1,
    SessionStore.get_all store1 world2 = (Ok snap, w1) ∧
    contents (heap w1) snap = contents (heap world2) (SessionStore._sessions store1) ∧
    (∀ acts, ∃ w2,
       for_each acts (act store1 snap) w1 = (Ok tt, w2) ∧
       let s := apply_calls (calls_of acts)
                  (contents (heap world2) (SessionStore._sessions store1)) in
       contents (heap w2) (SessionStore._sessions store1) = s ∧
       (∃ snap' w3, SessionStore.get_all store1 w2 = (Ok snap', w3) ∧
                    contents (heap w3) snap' = s) ∧
       SessionStore.count store1 w2 = (Ok (size s), w2) ∧
       (∃ b, SessionStore.has_unseen store1 w2 = (Ok b, w2) ∧
             (b = true ↔ map_Exists (λ _ d, d !! lit "unseen" = Some (VBool true)) s))) ∧
    (∀ cs, ∃ w2,
       for_each cs (run_call store1) w1 = (Ok tt, w2) ∧
       contents (heap w2) snap = contents (heap world2) (SessionStore._sessions store1)).
Proof. apply get_all_independent. exact world2_ok. Defined.

(** * The request handler *)

Section handler.
Implicit Types (self : EventHandler.t) (d : gmap pystr jvalue) (w : world).
Implicit Types (o : respond_outcome).

(** The [except] clauses log at most one event, an answer or the head of
    one, and change nothing else. *)
Lemma on_except_world e o' w :
  ∃ res evs,
    on_except e o' w =
      (res, World (heap w) (dirty w) (title w) (menu w) (session_keys w) (trace w ++ evs)) ∧
    forallb is_answer evs = true ∧
    (length evs ≤ 1)%nat ∧
    (o' ≠ Answered → statuses evs = []).
Proof.
  unfold on_except.
  destruct (is_class JSONDecodeError e); [|destruct (is_Exception e)].
  - destruct o' as [|e'|e'].
    + eexists _, [_]. split; [reflexivity|]. split; [done|]. split; [simpl; lia|].
      intros H. by destruct H.
    + exists (Raise e'), []. split; [rewrite app_nil_r; by destruct w|].
      split; [done|]. split; [simpl; lia|done].
    + eexists _, [_]. split; [reflexivity|]. split; [done|]. split; [simpl; lia|done].
  - destruct o' as [|e'|e'].
    + eexists _, [_]. split; [reflexivity|]. split; [done|]. split; [simpl; lia|].
      intros H. by destruct H.
    + exists (Raise e'), []. split; [rewrite app_nil_r; by destruct w|].
      split; [done|]. split; [simpl; lia|done].
    + eexists _, [_]. split; [reflexivity|]. split; [done|]. split; [simpl; lia|done].
  - exists (Raise e), []. split; [rewrite app_nil_r; by destruct w|].
    split; [done|]. split; [simpl; lia|done].
Qed.

(** An answer sent from the [try] block logs answers and heads of answers
    only, at most one answer in full, and changes nothing else. *)
Lemma answer_world status_code body o o' w :
  ∃ res evs,
    answer status_code body o o' w =
      (res, World (heap w) (dirty w) (title w) (menu w) (session_keys w) (trace w ++ evs)) ∧
    forallb is_answer evs = true ∧
    (length (statuses evs) ≤ 1)%nat ∧
    (o ≠ Answered → o' ≠ Answered → statuses evs = []).
Proof.
  destruct o as [|e|e]; unfold answer.
  - exists (Ok tt), [Respond status_code body]. split; [done|]. split; [done|].
    split; [simpl; lia|]. intros H. by destruct H.
  - destruct (on_except_world e o' w) as (res & evs & Hrun & Hev & Hlen & Hst).
    exists res, evs. split; [done|]. split; [done|]. split; [|auto].
    destruct evs as [|ev [|? ?]]; [simpl; lia| |simpl in Hlen; lia].
    unfold statuses. simpl. destruct ev; simpl; lia.
  - destruct (on_except_world e o' (log (Respond_head status_code) w))
      as (res & evs & Hrun & Hev & Hlen & Hst).
    exists res, (Respond_head status_code :: evs).
    cbn [log heap dirty title menu session_keys trace] in Hrun.
    split; [by rewrite Hrun, <- app_assoc|]. split; [done|]. split; [|auto].
    destruct evs as [|ev [|? ?]]; [simpl; lia| |simpl in Hlen; lia].
    unfold statuses. simpl. destruct ev; simpl; lia.
Qed.

Lemma do_POST_Raised self e o o' w :
  EventHandler.do_POST self (Raised e) o o' w = on_except e o' w.
Proof. by destruct e as [[] msg]. Qed.

Lemma do_POST_NotDict self ty o o' w :
  EventHandler.do_POST self (Loaded (NotDict ty)) o o' w =
    EventHandler._respond 500 (error_body
      (lit "'" ++ type_name ty ++ lit "' object has no attribute 'get'")) o' w.
Proof. done. Qed.

Lemma do_POST_missing self d o o' w :
  missing d = true →
  EventHandler.do_POST self (Loaded (Dict d)) o o' w =
    answer 400 (error_body (lit "window_id and event_title are required")) o o' w.
Proof.
  intros H. unfold missing, field in H.
  unfold EventHandler.do_POST, try_except, mbind, M_bind. simpl. rewrite H.
  destruct o as [|e|e]; [done|by destruct e as [[] msg]..].
Qed.

Lemma do_POST_non_numeric self d o o' w :
  missing d = false → non_numeric d = true →
  EventHandler.do_POST self (Loaded (Dict d)) o o' w =
    answer 400 (error_body (lit "window_id must be a numeric value")) o o' w.
Proof.
  intros H1 H2. unfold missing, non_numeric, field in *.
  unfold EventHandler.do_POST, try_except, mbind, M_bind. simpl. rewrite H1, H2.
  destruct o as [|e|e]; [done|by destruct e as [[] msg]..].
Qed.

(** [do_POST] on a dict: the three fields are read and trimmed, then the
    checks run in the order of the source. *)
Lemma do_POST_Dict self d o o' w :
  EventHandler.do_POST self (Loaded (Dict d)) o o' w =
    try_except
      (if missing d then
         EventHandler._respond 400
           (error_body (lit "window_id and event_title are required")) o
       else if non_numeric d then
         EventHandler._respond 400 (error_body (lit "window_id must be a numeric value")) o
       else
         (if terminates d then
            SessionStore.remove (EventHandler.store self) (field d (lit "window_id"));;
            EventHandler._respond 200
              (status_body (lit "removed") (field d (lit "window_id"))) o
          else
            SessionStore.upsert (EventHandler.store self) (field d (lit "window_id"))
              (field d (lit "event_title")) (field d (lit "event_msg"));;
            EventHandler._respond 200
              (status_body (lit "registered") (field d (lit "window_id"))) o);;
         match EventHandler.app_ref self with
         | Some app => TerminalFocusApp.schedule_refresh app
         | None => mret tt
         end)
      [ (is_class JSONDecodeError,
         λ _, EventHandler._respond 400 (error_body (lit "Invalid JSON")) o');
        (is_Exception, λ e, EventHandler._respond 500 (error_body (exn_str e)) o') ] w.
Proof. done. Qed.

(** A request that passes the checks is dispatched to the store.  When the
    answer is written, it is 200 and the app, if any, is then signalled.
    When a write of the answer raises, the [except] clauses take over in the
    world the store call has left, and the app is not signalled. *)
Lemma do_POST_dispatch self d w :
  store_ok (EventHandler.store self) (heap w) →
  missing d = false → non_numeric d = false →
  let id := field d (lit "window_id") in
  let ti := field d (lit "event_title") in
  let ms := field d (lit "event_msg") in
  ∃ h',
    (∀ o', EventHandler.do_POST self (Loaded (Dict d)) Answered o' w =
      (Ok tt,
       World h' (match EventHandler.app_ref self with Some _ => true | None => dirty w end)
         (title w) (menu w) (session_keys w)
         (trace w ++
            [if terminates d then Call_remove id else Call_upsert id ti ms;
             Respond 200 (status_body
               (if terminates d then lit "removed" else lit "registered") id)] ++
            signal self))) ∧
    store_ok (EventHandler.store self) h' ∧
    contents h' (SessionStore._sessions (EventHandler.store self)) =
      (if terminates d then delete id else insert id (SessionStore.session_dict ti ms true))
        (contents (heap w) (SessionStore._sessions (EventHandler.store self))) ∧
    confined (SessionStore._sessions (EventHandler.store self)) (heap w) h' ∧
    (∀ o o', o ≠ Answered →
       EventHandler.do_POST self (Loaded (Dict d)) o o' w =
         answer 200 (status_body (if terminates d then lit "removed" else lit "registered") id)
           o o'
           (World h' (dirty w) (title w) (menu w) (session_keys w)
              (trace w ++ [if terminates d then Call_remove id else Call_upsert id ti ms]))).
Proof.
  intros Hok H1 H2 id ti ms.
  assert (Hcall : ∃ h',
    (if terminates d then SessionStore.remove (EventHandler.store self) id
     else SessionStore.upsert (EventHandler.store self) id ti ms) w =
      (Ok tt, World h' (dirty w) (title w) (menu w) (session_keys w)
                (trace w ++ [if terminates d then Call_remove id else Call_upsert id ti ms])) ∧
    store_ok (EventHandler.store self) h' ∧
    contents h' (SessionStore._sessions (EventHandler.store self)) =
      (if terminates d then delete id else insert id (SessionStore.session_dict ti ms true))
        (contents (heap w) (SessionStore._sessions (EventHandler.store self))) ∧
    confined (SessionStore._sessions (EventHandler.store self)) (heap w) h').
  { destruct (terminates d).
    - destruct (remove_spec (EventHandler.store self) w id Hok) as (h' & Hrun & Hrest).
      by exists h'.
    - destruct (upsert_spec (EventHandler.store self) w id ti ms Hok) as (h' & Hrun & Hrest).
      by exists h'. }
  destruct Hcall as (h' & Hcall & Hok' & Hct & Hcf).
  exists h'. split; [|split; [done|split; [done|split; [done|]]]].
  - intros o'. rewrite do_POST_Dict, H1, H2. fold id ti ms. unfold try_except, signal.
    rewrite (bind_Ok _ _ w tt
      (World h' (dirty w) (title w) (menu w) (session_keys w)
         (trace w ++ [if terminates d then Call_remove id else Call_upsert id ti ms;
                      Respond 200 (status_body
                        (if terminates d then lit "removed" else lit "registered") id)]))).
    + destruct (EventHandler.app_ref self).
      * unfold TerminalFocusApp.schedule_refresh, emit, modify, mbind, M_bind, log, set_dirty.
        simpl. by rewrite <- app_assoc.
      * done.
    + destruct (terminates d); rewrite (bind_Ok _ _ _ _ _ Hcall);
        unfold EventHandler._respond, emit, modify, log; simpl; by rewrite <- app_assoc.
  - intros o o' Ho. rewrite do_POST_Dict, H1, H2. fold id ti ms. unfold try_except.
    set (wm := World h' (dirty w) (title w) (menu w) (session_keys w)
                 (trace w ++ [if terminates d then Call_remove id else Call_upsert id ti ms]))
      in *.
    set (body := status_body (if terminates d then lit "removed" else lit "registered") id).
    assert (Hresp : ∀ e w1, EventHandler._respond 200 body o wm = (Raise e, w1) →
      ((if terminates d then
          SessionStore.remove (EventHandler.store self) id;;
          EventHandler._respond 200 (status_body (lit "removed") id) o
        else
          SessionStore.upsert (EventHandler.store self) id ti ms;;
          EventHandler._respond 200 (status_body (lit "registered") id) o);;
       match EventHandler.app_ref self with
       | Some app => TerminalFocusApp.schedule_refresh app
       | None => mret tt
       end) w = (Raise e, w1)).
    { intros e w1 He. apply bind_Raise. unfold body in He.
      destruct (terminates d); by rewrite (bind_Ok _ _ _ _ _ Hcall). }
    destruct o as [|e|e]; [done|..].
    + rewrite (Hresp e wm eq_refl). unfold answer. by destruct e as [[] msg].
    + rewrite (Hresp e (log (Respond_head 200) wm) eq_refl). unfold answer.
      by destruct e as [[] msg].
Qed.

Lemma do_POST_world self r o o' w :
  store_ok (EventHandler.store self) (heap w) →
  ∃ res h' dy' evs,
    EventHandler.do_POST self r o o' w =
      (res, World h' dy' (title w) (menu w) (session_keys w) (trace w ++ evs)) ∧
    store_ok (EventHandler.store self) h' ∧
    (turned_down r w h' dy' evs ∨ dispatched self r o res w h' dy' evs).
Proof.
  intros Hok.
  assert (Hans : ∀ status_code body,
    status_of r ≠ 200%Z →
    EventHandler.do_POST self r o o' w = answer status_code body o o' w →
    ∃ res h' dy' evs,
      EventHandler.do_POST self r o o' w =
        (res, World h' dy' (title w) (menu w) (session_keys w) (trace w ++ evs)) ∧
      store_ok (EventHandler.store self) h' ∧
      (turned_down r w h' dy' evs ∨ dispatched self r o res w h' dy' evs)).
  { intros status_code body Hst Hrun.
    destruct (answer_world status_code body o o' w) as (res & evs & Ha & Hev & Hlen & _).
    exists res, (heap w), (dirty w), evs. rewrite Hrun. split; [done|]. split; [done|].
    left. by repeat split. }
  assert (Hexc : ∀ e,
    status_of r ≠ 200%Z →
    EventHandler.do_POST self r o o' w = on_except e o' w →
    ∃ res h' dy' evs,
      EventHandler.do_POST self r o o' w =
        (res, World h' dy' (title w) (menu w) (session_keys w) (trace w ++ evs)) ∧
      store_ok (EventHandler.store self) h' ∧
      (turned_down r w h' dy' evs ∨ dispatched self r o res w h' dy' evs)).
  { intros e Hst Hrun.
    destruct (on_except_world e o' w) as (res & evs & Ha & Hev & Hlen & _).
    exists res, (heap w), (dirty w), evs. rewrite Hrun. split; [done|]. split; [done|].
    left. repeat split; try done.
    destruct evs as [|ev [|? ?]]; [simpl; lia| |simpl in Hlen; lia].
    unfold statuses. simpl. destruct ev; simpl; lia. }
  destruct r as [[d|ty]|e].
  - destruct (missing d) eqn:H1.
    { eapply Hans; [by cbn; rewrite H1|by apply do_POST_missing]. }
    destruct (non_numeric d) eqn:H2.
    { eapply Hans; [by cbn; rewrite H1, H2|by apply do_POST_non_numeric]. }
    destruct (do_POST_dispatch self d w Hok H1 H2) as (h' & Hrun & Hok' & Hct & _ & Hfail).
    assert (Hdec : o = Answered ∨ o ≠ Answered) by (destruct o; [by left|by right..]).
    destruct Hdec as [->|Ho].
    + eexists _, h', _, _. split; [apply Hrun|]. split; [done|]. right.
      eexists d, _. split; [done|]. split; [by cbn; rewrite H1, H2|].
      split; [done|]. split; [done|]. left. by repeat split.
    + rewrite (Hfail o o' Ho).
      match goal with |- context [answer ?s ?b o o' ?wm] =>
        destruct (answer_world s b o o' wm) as (res & evs & Ha & Hev & Hlen & _)
      end.
      cbn [heap dirty title menu session_keys trace] in Ha.
      eexists res, h', (dirty w), (_ :: evs). split; [by rewrite Ha, <- app_assoc|].
      split; [done|]. right.
      eexists d, evs. split; [done|]. split; [by cbn; rewrite H1, H2|].
      split; [done|]. split; [done|]. by right.
  - apply (Hexc (Exn AttributeError
             (lit "'" ++ type_name ty ++ lit "' object has no attribute 'get'"))); [done|].
    by rewrite do_POST_NotDict.
  - apply (Hexc e); [|apply do_POST_Raised].
    unfold status_of. destruct (is_class JSONDecodeError e); lia.
Qed.

(** The heap that [do_POST] leaves does not depend on what the writes
    do. *)
Lemma do_POST_heap self r o o' w :
  store_ok (EventHandler.store self) (heap w) →
  heap (snd (EventHandler.do_POST self r o o' w)) =
    heap (snd (EventHandler.do_POST self r Answered Answered w)).
Proof.
  intros Hok.
  assert (Hno : ∀ status_code body o1 o2, heap (snd (answer status_code body o1 o2 w)) = heap w).
  { intros status_code body o1 o2.
    destruct (answer_world status_code body o1 o2 w) as (res & evs & -> & _). done. }
  assert (Hex : ∀ e o2, heap (snd (on_except e o2 w)) = heap w).
  { intros e o2. destruct (on_except_world e o2 w) as (res & evs & -> & _). done. }
  destruct r as [[d|ty]|e].
  - destruct (missing d) eqn:H1.
    { rewrite !do_POST_missing by done. by rewrite !Hno. }
    destruct (non_numeric d) eqn:H2.
    { rewrite !do_POST_non_numeric by done. by rewrite !Hno. }
    destruct (do_POST_dispatch self d w Hok H1 H2) as (h' & Hrun & _ & _ & _ & Hfail).
    rewrite (Hrun Answered). assert (Hdec : o = Answered ∨ o ≠ Answered) by (destruct o; [by left|by right..]).
    destruct Hdec as [->|Ho].
    + by rewrite (Hrun o').
    + rewrite (Hfail o o' Ho).
      match goal with |- context [answer ?s ?b o o' ?wm] =>
        destruct (answer_world s b o o' wm) as (res & evs & -> & _)
      end. done.
  - rewrite !do_POST_NotDict.
    by destruct o' as [|e|e].
  - rewrite !do_POST_Raised. by rewrite !Hex.
Qed.

(** A request that is turned down leaves the heap and the flag alone,
    whatever the writes do. *)
Lemma answer_rejected status_code body self r w :
  (∀ o o', EventHandler.do_POST self r o o' w = answer status_code body o o' w) →
  ∀ o o', heap (snd (EventHandler.do_POST self r o o' w)) = heap w ∧
          dirty (snd (EventHandler.do_POST self r o o' w)) = dirty w.
Proof.
  intros H o o'. rewrite H.
  destruct (answer_world status_code body o o' w) as (res & evs & -> & _). done.
Qed.

Lemma on_except_rejected e self r w :
  (∀ o o', EventHandler.do_POST self r o o' w = on_except e o' w) →
  ∀ o o', heap (snd (EventHandler.do_POST self r o o' w)) = heap w ∧
          dirty (snd (EventHandler.do_POST self r o o' w)) = dirty w.
Proof.
  intros H o o'. rewrite H.
  destruct (on_except_world e o' w) as (res & evs & -> & _). done.
Qed.

(** A request that passes the checks changes the store as its call says,
    whatever the writes do. *)
Lemma do_POST_contents self d o o' w :
  store_ok (EventHandler.store self) (heap w) →
  missing d = false → non_numeric d = false →
  store_ok (EventHandler.store self)
    (heap (snd (EventHandler.do_POST self (Loaded (Dict d)) o o' w))) ∧
  contents (heap (snd (EventHandler.do_POST self (Loaded (Dict d)) o o' w)))
    (SessionStore._sessions (EventHandler.store self)) =
    (if terminates d then delete (field d (lit "window_id"))
     else insert (field d (lit "window_id"))
            (SessionStore.session_dict (field d (lit "event_title"))
               (field d (lit "event_msg")) true))
      (contents (heap w) (SessionStore._sessions (EventHandler.store self))).
Proof.
  intros Hok H1 H2. rewrite do_POST_heap by done.
  destruct (do_POST_dispatch self d w Hok H1 H2) as (h' & Hrun & Hok' & Hct & _).
  by rewrite (Hrun Answered).
Qed.

Lemma signals_answers evs : forallb is_answer evs = true → signals evs = 0%nat.
Proof.
  unfold signals. induction evs as [|ev evs IH]; [done|]. simpl.
  intros [Hev Hall]%andb_true_iff. destruct ev; try done; simpl; auto.
Qed.

(** When every write raises [e], an [Exception], the [except] clauses
    answer nothing in full and [e] escapes. *)
Lemma on_except_gone e0 e o' w :
  is_Exception e0 = true → o' = Head_fails e ∨ o' = Body_fails e →
  ∃ evs,
    on_except e0 o' w =
      (Raise e, World (heap w) (dirty w) (title w) (menu w) (session_keys w) (trace w ++ evs)) ∧
    statuses evs = [].
Proof.
  intros He0 Ho'. unfold on_except. rewrite He0.
  destruct (is_class JSONDecodeError e0); destruct Ho' as [->| ->].
  - exists []. split; [rewrite app_nil_r; by destruct w|done].
  - by exists [Respond_head 400].
  - exists []. split; [rewrite app_nil_r; by destruct w|done].
  - by exists [Respond_head 500].
Qed.

End handler.

(** * The menu bar app *)

Section app.
Implicit Types (self : TerminalFocusApp.t) (w : world) (h : gmap loc (gmap pystr value)).

Lemma session_dict_title t m u :
  SessionStore.session_dict t m u !! lit "event_title" = Some (VStr t).
Proof. apply lookup_insert_eq. Qed.

Lemma session_dict_msg t m u :
  SessionStore.session_dict t m u !! lit "event_msg" = Some (VStr m).
Proof.
  destruct keys_distinct as (H1 & H2 & H3). unfold SessionStore.session_dict.
  rewrite lookup_insert_ne by done. apply lookup_insert_eq.
Qed.

Lemma for_each_menu_del keys w :
  ∃ mn, for_each keys TerminalFocusApp.menu_del w = (Ok tt, set_menu mn w).
Proof.
  revert w. induction keys as [|k keys IH]; intros w.
  - exists (menu w). by destruct w.
  - destruct (IH (set_menu (filter (λ item, TerminalFocusApp.has_label k item = false) (menu w)) w))
      as [mn Hmn].
    exists mn. simpl. unfold mbind, M_bind. simpl. by rewrite Hmn.
Qed.

(** One iteration of the loop of [_rebuild_menu] over the snapshot. *)
Lemma rebuild_item c t m u wid w :
  heap w !! c = Some (SessionStore.session_dict t m u) →
  ∃ label,
    (event_title ← getitem (VRef c) (lit "event_title");
     event_msg ← getitem (VRef c) (lit "event_msg");
     with_msg ← truthy event_msg;
     let label := TerminalFocusApp.format event_title ++
                  (if (with_msg : bool) then [32; 8212; 32] ++ TerminalFocusApp.format event_msg
                   else []) in
     unseen ← getitem (VRef c) (lit "unseen");
     marked ← truthy unseen;
     let label := (if (marked : bool) then [9679; 32] else []) ++ label in
     TerminalFocusApp.menu_add (MenuItem label (Some (click_handler wid)));;
     TerminalFocusApp.session_keys_append label) w =
    (Ok tt, World (heap w) (dirty w) (title w)
              (menu w ++ [MenuItem label (Some (click_handler wid))])
              (session_keys w ++ [label]) (trace w)).
Proof.
  intros Hc. eexists.
  rewrite (bind_Ok _ _ _ _ _ (getitem_Ok _ _ _ _ _ Hc (session_dict_title t m u))).
  rewrite (bind_Ok _ _ _ _ _ (getitem_Ok _ _ _ _ _ Hc (session_dict_msg t m u))).
  rewrite (bind_Ok _ _ w (match m with [] => false | _ => true end) w) by done.
  cbv zeta.
  rewrite (bind_Ok _ _ _ _ _ (getitem_Ok _ _ _ _ _ Hc (session_dict_unseen t m u))).
  rewrite (bind_Ok _ _ w u w) by done.
  done.
Qed.

(** [_rebuild_menu] returns; it reads the store through [get_all] and
    [has_unseen] and writes the title and the menu only.  Every item that
    focuses a window carries the id of a stored session. *)
Lemma _rebuild_menu_spec self w :
  store_ok (TerminalFocusApp.store self) (heap w) →
  ∃ h' b mn sk,
    TerminalFocusApp._rebuild_menu self w =
      (Ok tt, World h' (dirty w)
                (title_for b (size (contents (heap w)
                   (SessionStore._sessions (TerminalFocusApp.store self)))))
                mn sk (trace w ++ [Rebuild_menu])) ∧
    (b = true ↔ map_Exists (λ _ d, d !! lit "unseen" = Some (VBool true))
                  (contents (heap w) (SessionStore._sessions (TerminalFocusApp.store self)))) ∧
    store_ok (TerminalFocusApp.store self) h' ∧
    contents h' (SessionStore._sessions (TerminalFocusApp.store self)) =
      contents (heap w) (SessionStore._sessions (TerminalFocusApp.store self)) ∧
    confined (SessionStore._sessions (TerminalFocusApp.store self)) (heap w) h' ∧
    ∀ wid, focuses mn wid →
      is_Some (contents (heap w) (SessionStore._sessions (TerminalFocusApp.store self)) !! wid).
Proof.
  intros Hok. destruct w as [h dy ti mn0 sk0 tr]. simpl in *.
  set (st := TerminalFocusApp.store self) in *.
  set (tr' := tr ++ [Rebuild_menu]).
  set (wa := World h dy ti mn0 sk0 tr').
  destruct (get_all_spec st wa Hok)
    as (snap & h1 & Hget & Hok1 & Hsub & Hnew & Hcl & Hct & Hshape).
  change (heap wa) with h in Hct, Hsub, Hnew.
  destruct (extends_confined h h1 (SessionStore._sessions st)) as [Hcf Hst];
    [by apply store_ok_closed|done|].
  set (wb := World h1 dy ti mn0 sk0 tr').
  pose proof (count_spec (SessionStore.Build snap) wb Hshape) as Hlen.
  unfold SessionStore.count in Hlen. simpl in Hlen. rewrite Hct in Hlen.
  destruct (has_unseen_spec st wb Hok1) as (b & Hun & Hb). simpl in Hb. rewrite Hst in Hb.
  set (n := size (contents h (SessionStore._sessions st))) in *.
  set (wc := World h1 dy (title_for b n) mn0 sk0 tr').
  destruct (for_each_menu_del sk0 wc) as [mn1 Hdel].
  set (wd := World h1 dy (title_for b n) [] [] tr').
  assert (Hany : truthy snap wd = (Ok (negb (Nat.eqb n 0)), wd)).
  { pose proof (count_spec (SessionStore.Build snap) wd Hshape) as Hlen'.
    unfold SessionStore.count in Hlen'. cbn [SessionStore._sessions heap wd] in Hlen'.
    rewrite Hct in Hlen'. fold n in Hlen'.
    destruct Hshape as (r & sd & Er & _). simpl in Er. subst snap.
    unfold truthy. by rewrite (bind_Ok _ _ _ _ _ Hlen'). }
  assert (Hitems : ∃ mn sk,
    (if negb (negb (Nat.eqb n 0)) then
       TerminalFocusApp.menu_add (MenuItem (lit "No active terminals") None);;
       TerminalFocusApp.session_keys_append (lit "No active terminals")
     else
       kvs ← items snap;
       for_each kvs (λ '(wid, info),
         event_title ← getitem info (lit "event_title");
         event_msg ← getitem info (lit "event_msg");
         with_msg ← truthy event_msg;
         let label := TerminalFocusApp.format event_title ++
                      (if (with_msg : bool)
                       then [32; 8212; 32] ++ TerminalFocusApp.format event_msg else []) in
         unseen ← getitem info (lit "unseen");
         marked ← truthy unseen;
         let label := (if (marked : bool) then [9679; 32] else []) ++ label in
         TerminalFocusApp.menu_add (MenuItem label (Some (click_handler wid)));;
         TerminalFocusApp.session_keys_append label)) wd =
      (Ok tt, World h1 dy (title_for b n) mn sk tr') ∧
    ∀ wid, focuses mn wid → is_Some (contents h (SessionStore._sessions st) !! wid)).
  { destruct (Nat.eqb n 0); cbn [negb].
    - eexists _, _. split; [done|]. intros wid [label Hin]. simpl in Hin.
      apply list_elem_of_singleton in Hin. done.
    - destruct Hshape as (r & sd & Er & Hr & Hall). simpl in Er. subst snap.
      rewrite (bind_Ok _ _ _ _ _ (items_Ok r sd wd Hr)).
      match goal with |- ∃ mn sk, for_each ?kvs ?body wd = _ ∧ _ =>
        destruct (for_each_inv
          (λ done w2, ∃ mn sk, w2 = World h1 dy (title_for b n) mn sk tr' ∧
             ∀ wid, focuses mn wid → ∃ v, (wid, v) ∈ done)
          kvs body wd) as (w' & Hloop & mn & sk & -> & Hmn)
      end.
      + exists [], []. split; [done|]. intros wid [label Hin]. by apply elem_of_nil in Hin.
      + intros done [k v] rest w2 Ekvs (mn & sk & -> & Hmn).
        assert (Hkv : sd !! k = Some v).
        { apply elem_of_map_to_list. rewrite Ekvs. apply elem_of_app. right. by left. }
        destruct (Hall k v Hkv) as (c & t & m & u & -> & _ & Hc).
        destruct (rebuild_item c t m u k (World h1 dy (title_for b n) mn sk tr') Hc)
          as [label Hrun].
        eexists. split; [exact Hrun|]. simpl. eexists _, _. split; [done|].
        intros wid [label' Hin]. apply elem_of_app in Hin as [Hin|Hin].
        * destruct (Hmn wid) as [v' Hv']; [by exists label'|].
          exists v'. apply elem_of_app. by left.
        * apply list_elem_of_singleton in Hin. simplify_eq.
          exists (VRef c). apply elem_of_app. right. by left.
      + exists mn, sk. split; [done|]. intros wid Hf. destruct (Hmn wid Hf) as [v Hv].
        apply elem_of_map_to_list in Hv.
        rewrite <- Hct, (contents_lookup h1 r sd) by done. rewrite Hv. simpl.
        destruct (Hall wid v Hv) as (c & t & m & u & -> & _ & Hc). simpl. eauto. }
  destruct Hitems as (mn & sk & Hitems & Hfoc).
  exists h1, b, (mn ++ [separator; MenuItem (lit "Quit") (Some quit_callback)]), sk.
  split; [|split; [done|split; [done|split; [done|split; [done|]]]]].
  - unfold TerminalFocusApp._rebuild_menu. fold st.
    rewrite (bind_Ok _ _ _ tt wa) by done.
    rewrite (bind_Ok _ _ _ _ _ Hget).
    rewrite (bind_Ok _ _ _ _ _ Hlen).
    rewrite (bind_Ok _ _ _ _ _ Hun).
    rewrite (bind_Ok _ _ wb tt wc) by done.
    rewrite (bind_Ok _ _ wc sk0 wc) by done.
    rewrite (bind_Ok _ _ _ _ _ Hdel).
    rewrite (bind_Ok _ _ _ tt (World h1 dy (title_for b n) mn1 [] tr')) by done.
    rewrite (bind_Ok _ _ _ tt wd) by done.
    rewrite (bind_Ok _ _ _ _ _ Hany).
    rewrite (bind_Ok _ _ _ _ _ Hitems).
    unfold TerminalFocusApp.menu_add, modify, mbind, M_bind. simpl.
    by rewrite <- app_assoc.
  - intros wid [label Hin]. apply Hfoc. exists label.
    apply elem_of_app in Hin as [Hin|Hin]; [done|].
    apply elem_of_cons in Hin as [Hin|Hin]; [done|].
    apply list_elem_of_singleton in Hin. done.
Qed.


(** Whatever the outcome, the world after the call has gained the one
    [subprocess.run] and nothing else. *)
Lemma focus_terminal_window_world wid o w :
  snd (focus_terminal_window wid o w) = log (osascript wid) w.
Proof.
  unfold focus_terminal_window, try_except, subprocess_run.
  rewrite (bind_Ok _ _ w tt (log (osascript wid) w)) by done.
  destruct o as [rc|e]; [done|]. by destruct e as [[] msg].
Qed.

Lemma rebuilds_app tr tr' : rebuilds (tr ++ tr') = (rebuilds tr + rebuilds tr')%nat.
Proof. unfold rebuilds. by rewrite List.filter_app, length_app. Qed.

Lemma signals_app tr tr' : signals (tr ++ tr') = (signals tr + signals tr')%nat.
Proof. unfold signals. by rewrite List.filter_app, length_app. Qed.

Lemma rebuilds_signals n : rebuilds (replicate n Call_schedule_refresh) = 0%nat.
Proof. unfold rebuilds. by induction n. Qed.

Lemma notify_times_run self n w :
  notify_times self n w =
    (Ok tt, World (heap w) (match n with O => dirty w | S _ => true end) (title w) (menu w)
              (session_keys w) (trace w ++ replicate n Call_schedule_refresh)).
Proof.
  unfold notify_times. revert w. induction n as [|n IH]; intros w.
  - simpl. unfold mret, M_ret. rewrite app_nil_r. by destruct w.
  - simpl. unfold mbind at 1, M_bind at 1. simpl. rewrite IH. simpl.
    rewrite <- app_assoc. simpl. by destruct n.
Qed.

Lemma _poll_for_updates_clean self w :
  dirty w = false → TerminalFocusApp._poll_for_updates self w = (Ok tt, w).
Proof.
  intros H. unfold TerminalFocusApp._poll_for_updates.
  rewrite (bind_Ok _ _ w false w); [done|]. unfold read. by rewrite H.
Qed.

Lemma _poll_for_updates_dirty self w :
  dirty w = true →
  TerminalFocusApp._poll_for_updates self w =
    TerminalFocusApp._rebuild_menu self (set_dirty false w).
Proof.
  intros H. unfold TerminalFocusApp._poll_for_updates.
  rewrite (bind_Ok _ _ w true w); [|unfold read; by rewrite H].
  by rewrite (bind_Ok _ _ w tt (set_dirty false w)).
Qed.

End app.

(** * The endpoint and the app: properties *)

Lemma rejected_answer self r w status_code reason :
  (∀ o o', EventHandler.do_POST self r o o' w =
             answer status_code (error_body reason) o o' w) →
  rejected self r w status_code reason.
Proof.
  intros H. split; [by rewrite H|].
  exact (answer_rejected status_code (error_body reason) self r w H).
Qed.

Lemma rejected_on_except self r w e status_code reason :
  (∀ o o', EventHandler.do_POST self r o o' w = on_except e o' w) →
  on_except e Answered w = (Ok tt, log (Respond status_code (error_body reason)) w) →
  rejected self r w status_code reason.
Proof.
  intros H He. split; [by rewrite H|]. exact (on_except_rejected e self r w H).
Qed.

(** C1: the request [{"window_id": "²", "event_title": "build"}] has a
    non-empty id and title after trimming, and its id is not made of the
    digits 0-9.  It is answered 200 "registered", the id is stored, and
    after the next tick a click on its menu item runs [osascript] with the
    id spliced into the script. *)
Theorem superscript_id_reaches_osascript :
  missing build_superscript = false ∧
  decimal_digits (field build_superscript (lit "window_id")) = false ∧
  run [POST (Loaded (Dict build_superscript)) Answered Answered; Tick;
       Click 0 (Completed 0)] =
    (Ok tt,
     World (heap (snd (run [POST (Loaded (Dict build_superscript)) Answered Answered; Tick;
                            Click 0 (Completed 0)])))
       false (title_for false 1)
       [MenuItem (lit "build") (Some (click_handler [178])); separator;
        MenuItem (lit "Quit") (Some quit_callback)]
       [lit "build"]
       [Call_upsert [178] (lit "build") [];
        Respond 200 (status_body (lit "registered") [178]);
        Call_schedule_refresh;
        Rebuild_menu;
        osascript [178];
        Call_mark_all_seen;
        Rebuild_menu]).
Proof. by vm_compute. Qed.

(** C2: a body that is valid JSON but not an object, such as [[]], is
    answered with status 500 and the text of the [AttributeError]: this is
    the answer [do_POST] writes, and when it is written [do_POST] returns. *)
Theorem json_array_answered_500 self o o' w :
  EventHandler.do_POST self (Loaded (NotDict list_t)) o o' w =
    EventHandler._respond 500
      (error_body (lit "'list' object has no attribute 'get'")) o' w ∧
  EventHandler.do_POST self (Loaded (NotDict list_t)) o Answered w =
    (Ok tt, log (Respond 500 (error_body (lit "'list' object has no attribute 'get'"))) w).
Proof. done. Qed.

(** C3: the request [{"window_id": "²", "event_title": "build"}] has a
    non-empty id and title after trimming, and its id is not made of the
    digits 0-9.  No check turns it down: it is answered 200 "registered",
    and the store, empty before, holds a session under the id. *)
Theorem superscript_id_changes_store :
  missing build_superscript = false ∧
  decimal_digits (field build_superscript (lit "window_id")) = false ∧
  contents (heap world1) (SessionStore._sessions store1) = ∅ ∧
  (∀ status_code reason,
     ¬ rejected handler1 (Loaded (Dict build_superscript)) world1 status_code reason) ∧
  ∃ w',
    EventHandler.do_POST handler1 (Loaded (Dict build_superscript)) Answered Answered world1 =
      (Ok tt, w') ∧
    trace w' = [Call_upsert [178] (lit "build") [];
                Respond 200 (status_body (lit "registered") [178]);
                Call_schedule_refresh] ∧
    contents (heap w') (SessionStore._sessions store1) !! [178] =
      Some (SessionStore.session_dict (lit "build") [] true).
Proof.
  split; [by vm_compute|]. split; [by vm_compute|]. split; [by vm_compute|]. split.
  - intros status_code reason [_ H]. destruct (H Answered Answered) as [Hh _].
    apply (f_equal (λ h, contents h (SessionStore._sessions store1) !! [178%N])) in Hh.
    by vm_compute in Hh.
  - eexists. split; [reflexivity|]. split; by vm_compute.
Qed.

(** What the checks do, with the digit test of the code: they run in the
    order payload, missing id or title (after trimming), id that
    [str.isdigit] refuses, and the first that fails decides the answer.
    Every request that is turned down, these and the ones answered 500,
    leaves the heap, hence the store, and the refresh flag as they were,
    whatever the writes of the answer do. *)
Lemma validation_order self w :
  (∀ e, is_class JSONDecodeError e = true →
        rejected self (Raised e) w 400 (lit "Invalid JSON")) ∧
  (∀ d, missing d = true →
        rejected self (Loaded (Dict d)) w 400 (lit "window_id and event_title are required")) ∧
  (∀ d, missing d = false → non_numeric d = true →
        rejected self (Loaded (Dict d)) w 400 (lit "window_id must be a numeric value")) ∧
  (∀ ty, rejected self (Loaded (NotDict ty)) w 500
           (lit "'" ++ type_name ty ++ lit "' object has no attribute 'get'")) ∧
  (∀ e, is_class JSONDecodeError e = false → is_Exception e = true →
        rejected self (Raised e) w 500 (exn_str e)).
Proof.
  split; [|split; [|split; [|split]]].
  - intros e He. apply (rejected_on_except _ _ _ e).
    + intros o o'. apply do_POST_Raised.
    + unfold on_except. by rewrite He.
  - intros d Hd. apply rejected_answer. intros o o'. by apply do_POST_missing.
  - intros d H1 H2. apply rejected_answer. intros o o'. by apply do_POST_non_numeric.
  - intros ty. apply (rejected_on_except _ _ _ (Exn AttributeError
      (lit "'" ++ type_name ty ++ lit "' object has no attribute 'get'"))); [|done].
    intros o o'. by rewrite do_POST_NotDict.
  - intros e H1 H2. apply (rejected_on_except _ _ _ e).
    + intros o o'. apply do_POST_Raised.
    + unfold on_except. by rewrite H1, H2.
Qed.

(** An empty title and a non-numeric id: the missing field is reported. *)
Example blank_abc_missing_field w :
  non_numeric blank_abc = true ∧
  EventHandler.do_POST handler1 (Loaded (Dict blank_abc)) Answered Answered w =
    (Ok tt, log (Respond 400 (error_body (lit "window_id and event_title are required"))) w).
Proof. split; [by vm_compute|]. by rewrite do_POST_missing. Qed.

Example build_abc_invalid_identifier w :
  EventHandler.do_POST handler1 (Loaded (Dict build_abc)) Answered Answered w =
    (Ok tt, log (Respond 400 (error_body (lit "window_id must be a numeric value"))) w).
Proof. by rewrite do_POST_non_numeric. Qed.

(** C4: a request with a non-empty trimmed id and title and an id made of
    the digits 0-9 is dispatched.  If the title equals "terminate" up to
    the case of its letters, [remove(id)] is called, the answer is 200
    [{status: "removed", window_id: id}], and the store loses the entry of
    [id] (it is left as it was when [id] was not registered).  Otherwise
    [upsert(id, event_title, event_msg)] is called, the answer is 200
    [{status: "registered", window_id: id}], and the store holds the session
    under [id].  A request without [event_msg] has the empty message.  The
    store call does not wait for the answer: when a write of the answer
    raises, the heap is left as when it is written. *)
Theorem dispatch_valid_request self d w :
  store_ok (EventHandler.store self) (heap w) →
  field d (lit "window_id") ≠ [] →
  field d (lit "event_title") ≠ [] →
  decimal_digits (field d (lit "window_id")) = true →
  let id := field d (lit "window_id") in
  let ti := field d (lit "event_title") in
  let ms := field d (lit "event_msg") in
  let s := contents (heap w) (SessionStore._sessions (EventHandler.store self)) in
  ∃ w',
    (∀ o', EventHandler.do_POST self (Loaded (Dict d)) Answered o' w = (Ok tt, w')) ∧
    (d !! lit "event_msg" = None → ms = []) ∧
    (caseless_eq ti (lit "terminate") →
       trace w' = trace w ++
         [Call_remove id; Respond 200 (status_body (lit "removed") id)] ++ signal self ∧
       contents (heap w') (SessionStore._sessions (EventHandler.store self)) = delete id s ∧
       (s !! id = None →
        contents (heap w') (SessionStore._sessions (EventHandler.store self)) = s)) ∧
    (¬ caseless_eq ti (lit "terminate") →
       trace w' = trace w ++
         [Call_upsert id ti ms; Respond 200 (status_body (lit "registered") id)] ++ signal self ∧
       contents (heap w') (SessionStore._sessions (EventHandler.store self)) =
         <[id := SessionStore.session_dict ti ms true]> s) ∧
    (∀ o o', heap (snd (EventHandler.do_POST self (Loaded (Dict d)) o o' w)) = heap w').
Proof.
  intros Hok Hid Hti Hdig.
  assert (H1 : missing d = false).
  { unfold missing. destruct (field d (lit "window_id")); [done|].
    by destruct (field d (lit "event_title")). }
  assert (H2 : non_numeric d = false).
  { unfold non_numeric. by rewrite decimal_digits_isdigit. }
  intros id ti ms s.
  destruct (do_POST_dispatch self d w Hok H1 H2) as (h' & Hrun & _ & Hct & _).
  eexists. split; [exact Hrun|]. split.
  { intros Hnone. unfold ms, field. by rewrite Hnone. }
  unfold terminates in *. fold id ti ms in Hrun, Hct. fold ti. cbn [trace heap].
  split; [|split].
  - intros Ht%lower_terminate. rewrite bool_decide_eq_true_2 in Hct |- * by done.
    split; [done|]. split; [done|]. intros Hnone. rewrite Hct. by apply delete_id.
  - intros Ht. rewrite bool_decide_eq_false_2 in Hct |- * by (by rewrite lower_terminate).
    by split.
  - intros o o'. rewrite (do_POST_heap self _ o o' w Hok). by rewrite (Hrun Answered).
Qed.

Lemma dispatch_valid_request_witness :
  ∃ w', EventHandler.do_POST handler1 (Loaded (Dict terminate_100)) Answered Answered world2 =
          (Ok tt, w') ∧
        trace w' = trace world2 ++
          [Call_remove (lit "100"); Respond 200 (status_body (lit "removed") (lit "100"));
           Call_schedule_refresh].
Proof.
  destruct (dispatch_valid_request handler1 terminate_100 world2) as (w' & Hrun & _ & Hrm & _).
  - exact world2_ok.
  - by vm_compute.
  - by vm_compute.
  - by vm_compute.
  - exists w'. split; [exact (Hrun Answered)|]. by apply Hrm.
Defined.

(** C7: a client sends [{"window_id": 12345, "event_title": "build",
    "event_msg": "started"}] and is gone before the answer is written: the
    write of the body raises [BrokenPipeError], and so does the write of the
    500 answer that the [except] clause attempts.  The request passes the
    checks and the session is stored, but the app is not signalled: the flag
    stays clear, the tick that follows rebuilds nothing, and the menu stays
    without the session. *)
Theorem unanswered_dispatch_not_signalled :
  let gone := Exn OSError (lit "[Errno 32] Broken pipe") in
  let ins := [POST (Loaded (Dict build_started)) (Body_fails gone) (Head_fails gone); Tick] in
  missing build_started = false ∧ non_numeric build_started = false ∧
  EventHandler.do_POST handler1 (Loaded (Dict build_started)) (Body_fails gone)
    (Head_fails gone) (snd (main world0)) =
    (Raise gone, run_on (take 1 ins)) ∧
  run_on ins =
    World (heap (run_on ins)) false (lit "0") [] []
      [Call_upsert (lit "12345") (lit "build") (lit "started"); Respond_head 200] ∧
  contents (heap (run_on ins)) (SessionStore._sessions store1) !! lit "12345" =
    Some (SessionStore.session_dict (lit "build") (lit "started") true) ∧
  signals (trace (run_on ins)) = 0%nat ∧
  rebuilds (trace (run_on ins)) = 0%nat.
Proof. repeat split; by vm_compute. Qed.

(** When the answer is written: with an app attached, a request that passes
    the checks is answered 200 and the app is signalled exactly once, by a
    [schedule_refresh] that runs on the world in which the method of the
    store has returned and the answer has been sent.  [schedule_refresh]
    only sets the flag, so [n] signals leave it as one does.  At the next
    check [_poll_for_updates] clears the flag and rebuilds the menu once if
    the flag was set, whatever [n] was, and a check that follows with no
    signal in between rebuilds nothing. *)
Lemma dispatch_signals_once self app d o' w :
  store_ok (EventHandler.store self) (heap w) →
  EventHandler.app_ref self = Some app →
  missing d = false → non_numeric d = false →
  let id := field d (lit "window_id") in
  let call := if terminates d
              then SessionStore.remove (EventHandler.store self) id
              else SessionStore.upsert (EventHandler.store self) id
                     (field d (lit "event_title")) (field d (lit "event_msg")) in
  let answer := Respond 200 (status_body
                  (if terminates d then lit "removed" else lit "registered") id) in
  (∃ wm w',
     call w = (Ok tt, wm) ∧
     EventHandler.do_POST self (Loaded (Dict d)) Answered o' w = (Ok tt, w') ∧
     TerminalFocusApp.schedule_refresh app (log answer wm) = (Ok tt, w') ∧
     signals (trace w') = S (signals (trace w)) ∧
     dirty w' = true) ∧
  (∀ n w0, ∃ w1,
     notify_times app (S n) w0 = (Ok tt, w1) ∧
     dirty w1 = true ∧ heap w1 = heap w0 ∧ rebuilds (trace w1) = rebuilds (trace w0) ∧
     (store_ok (TerminalFocusApp.store app) (heap w0) →
      ∃ w2, TerminalFocusApp._poll_for_updates app w1 = (Ok tt, w2) ∧
            dirty w2 = false ∧
            rebuilds (trace w2) = S (rebuilds (trace w0)) ∧
            TerminalFocusApp._poll_for_updates app w2 = (Ok tt, w2))).
Proof.
  intros Hok Happ H1 H2 id call answer. split.
  - destruct (do_POST_dispatch self d w Hok H1 H2) as (h' & Hrun & _ & _ & _).
    specialize (Hrun o').
    fold id in Hrun. unfold signal in Hrun. rewrite Happ in Hrun.
    assert (Hcall : ∃ ev, call w = (Ok tt, World h' (dirty w) (title w) (menu w) (session_keys w)
                                           (trace w ++ [ev])) ∧
                          ev = (if terminates d then Call_remove id
                                else Call_upsert id (field d (lit "event_title"))
                                       (field d (lit "event_msg"))) ∧
                          is_signal ev = false).
    { rewrite do_POST_Dict, H1, H2 in Hrun. unfold try_except in Hrun. fold id in Hrun.
      unfold call. destruct (terminates d).
      - destruct (remove_spec (EventHandler.store self) w id Hok) as (h1 & Hrm & _).
        rewrite (bind_Ok _ _ w tt
          (log answer (World h1 (dirty w) (title w) (menu w) (session_keys w)
                         (trace w ++ [Call_remove id])))) in Hrun
          by (by rewrite (bind_Ok _ _ _ _ _ Hrm)).
        rewrite Happ in Hrun. injection Hrun as Hh _. subst h1. eauto.
      - destruct (upsert_spec (EventHandler.store self) w id (field d (lit "event_title"))
                    (field d (lit "event_msg")) Hok) as (h1 & Hup & _).
        rewrite (bind_Ok _ _ w tt
          (log answer (World h1 (dirty w) (title w) (menu w) (session_keys w)
                         (trace w ++ [Call_upsert id (field d (lit "event_title"))
                                        (field d (lit "event_msg"))])))) in Hrun
          by (by rewrite (bind_Ok _ _ _ _ _ Hup)).
        rewrite Happ in Hrun. injection Hrun as Hh _. subst h1. eauto. }
    destruct Hcall as (ev & Hcall & Hev & Hns).
    eexists _, _. split; [exact Hcall|]. split; [exact Hrun|]. rewrite <- Hev. split.
    + unfold TerminalFocusApp.schedule_refresh, emit, modify, mbind, M_bind, log, set_dirty.
      simpl. by rewrite <- !app_assoc.
    + split; [|done]. simpl. rewrite signals_app. unfold signals at 2. simpl.
      rewrite Hns. simpl. lia.
  - intros n w0.
    set (w1 := World (heap w0) true (title w0) (menu w0) (session_keys w0)
                 (trace w0 ++ replicate (S n) Call_schedule_refresh)).
    exists w1. split; [apply notify_times_run|].
    split; [done|]. split; [done|]. split.
    { unfold w1. cbn [trace]. rewrite rebuilds_app, rebuilds_signals. lia. }
    intros Hok0.
    destruct (_rebuild_menu_spec app (set_dirty false w1) Hok0)
      as (h' & b & mn & sk & Hrb & _).
    eexists. split; [rewrite (_poll_for_updates_dirty app w1) by done; exact Hrb|].
    cbn [dirty trace set_dirty w1]. split; [done|]. split.
    + rewrite !rebuilds_app, rebuilds_signals. unfold rebuilds at 2. simpl. lia.
    + by apply _poll_for_updates_clean.
Qed.



(** C10: a register request is stored and echoed trimmed: the session is
    stored under [str(window_id).strip()] with message
    [str(event_msg).strip()], which is empty when [event_msg] is absent, and
    the answer echoes the trimmed id.  Whitespace put around the id or the
    message of a request changes nothing: the two requests take the same
    world to the same world, whatever the writes of the answer do, and the
    session is stored even when they raise. *)
Theorem register_stores_trimmed self d w :
  store_ok (EventHandler.store self) (heap w) →
  missing d = false → non_numeric d = false → terminates d = false →
  let raw key := default (JStr (lit "")) (d !! key) in
  let id := strip (str (raw (lit "window_id"))) in
  let ti := strip (str (raw (lit "event_title"))) in
  let ms := strip (str (raw (lit "event_msg"))) in
  (∃ w',
     (∀ o', EventHandler.do_POST self (Loaded (Dict d)) Answered o' w = (Ok tt, w')) ∧
     contents (heap w') (SessionStore._sessions (EventHandler.store self)) !! id =
       Some (SessionStore.session_dict ti ms true) ∧
     trace w' = trace w ++
       [Call_upsert id ti ms; Respond 200 (status_body (lit "registered") id)] ++ signal self ∧
     (d !! lit "event_msg" = None → ms = []) ∧
     (∀ o o', heap (snd (EventHandler.do_POST self (Loaded (Dict d)) o o' w)) = heap w')) ∧
  (∀ x m ws1 ws2 ws3 ws4 o o',
     d !! lit "window_id" = Some (JStr x) →
     d !! lit "event_msg" = Some (JStr m) →
     forallb isspace (ws1 ++ ws2 ++ ws3 ++ ws4) = true →
     EventHandler.do_POST self
       (Loaded (Dict (<[lit "window_id" := JStr (ws1 ++ x ++ ws2)]>
                        (<[lit "event_msg" := JStr (ws3 ++ m ++ ws4)]> d)))) o o' w =
     EventHandler.do_POST self (Loaded (Dict d)) o o' w).
Proof.
  intros Hok H1 H2 H3 raw id ti ms. split.
  - destruct (do_POST_dispatch self d w Hok H1 H2) as (h' & Hrun & _ & Hct & _).
    rewrite H3 in Hrun, Hct. eexists. split; [exact Hrun|]. cbn [heap trace].
    split; [|split; [done|split]].
    + rewrite Hct. apply lookup_insert_eq.
    + intros Hnone. unfold ms, raw. by rewrite Hnone.
    + intros o o'. rewrite (do_POST_heap self _ o o' w Hok). by rewrite (Hrun Answered).
  - intros x m ws1 ws2 ws3 ws4 o o' Hx Hm Hws.
    rewrite !forallb_app in Hws.
    apply andb_true_iff in Hws as [Hw1 Hws]. apply andb_true_iff in Hws as [Hw2 Hws].
    apply andb_true_iff in Hws as [Hw3 Hw4].
    destruct keys_distinct as (_ & _ & Hk3).
    assert (Hk1 : lit "window_id" ≠ lit "event_title") by (by cbv).
    assert (Hk2 : lit "window_id" ≠ lit "event_msg") by (by cbv).
    assert (Hk4 : lit "event_msg" ≠ lit "event_title") by (by cbv).
    set (d' := <[lit "window_id" := JStr (ws1 ++ x ++ ws2)]>
                 (<[lit "event_msg" := JStr (ws3 ++ m ++ ws4)]> d)).
    assert (Ef : ∀ key, field d' key = field d key).
    { intros key. unfold field, d'.
      destruct (decide (key = lit "window_id")) as [->|Hn1].
      - rewrite lookup_insert_eq, Hx. simpl. by apply strip_pad.
      - rewrite lookup_insert_ne by done.
        destruct (decide (key = lit "event_msg")) as [->|Hn2].
        + rewrite lookup_insert_eq, Hm. simpl. by apply strip_pad.
        + by rewrite lookup_insert_ne. }
    rewrite !do_POST_Dict. unfold missing, non_numeric, terminates. by rewrite !Ef.
Qed.

Lemma register_stores_trimmed_witness :
  ∃ w',
    EventHandler.do_POST handler1 (Loaded (Dict build_started)) Answered Answered world2 =
      (Ok tt, w') ∧
    contents (heap w') (SessionStore._sessions store1) !! lit "12345" =
      Some (SessionStore.session_dict (lit "build") (lit "started") true).
Proof.
  destruct (register_stores_trimmed handler1 build_started world2)
    as [(w' & Hrun & Hct & _) _].
  - exact world2_ok.
  - by vm_compute.
  - by vm_compute.
  - by vm_compute.
  - exists w'. split; [exact (Hrun Answered)|exact Hct].
Defined.

(** * The digit gate, as implemented

    No id reaches the store, the menu or [osascript] unless [str.isdigit]
    accepts it.  This holds for every run of the program; what
    [str.isdigit] accepts is wider than the digits 0-9. *)

Section gate.
Implicit Types (st : SessionStore.t) (w : world) (h : gmap loc (gmap pystr value)).

Lemma gate_step st w h' dy ti mn sk evs :
  gate st w →
  store_ok st h' →
  (∀ id, is_Some (contents h' (SessionStore._sessions st) !! id) →
         is_Some (contents (heap w) (SessionStore._sessions st) !! id) ∨ isdigit id = true) →
  (∀ id, focuses mn id →
         focuses (menu w) id ∨ is_Some (contents (heap w) (SessionStore._sessions st) !! id)) →
  (∀ e, e ∈ evs → is_run e = true → ∃ id, isdigit id = true ∧ e = osascript id) →
  gate st (World h' dy ti mn sk (trace w ++ evs)).
Proof.
  intros (Hok & Hst & Hmn & Htr) Hok' Hst' Hmn' Hevs. split; [done|]. split; [|split].
  - intros id [Hid|Hid]%Hst'; auto.
  - intros id [Hid|Hid]%Hmn'; auto.
  - intros e [He|He]%elem_of_app; auto.
Qed.

Lemma gate_log st w e :
  gate st w → is_run e = false → gate st (log e w).
Proof.
  intros Hg He. apply gate_step; auto.
  - by destruct Hg.
  - intros e' ->%list_elem_of_singleton. congruence.
Qed.

Lemma status_200 d :
  status_of (Loaded (Dict d)) = 200%Z → missing d = false ∧ non_numeric d = false.
Proof.
  unfold status_of. destruct (missing d); [done|]. by destruct (non_numeric d).
Qed.

Lemma is_answer_not_run evs e :
  forallb is_answer evs = true → e ∈ evs → is_run e = false.
Proof.
  intros Hall Hin. rewrite forallb_forall in Hall.
  apply list_elem_of_In, Hall in Hin. by destruct e.
Qed.

Lemma gate_do_POST st self r o o' w res w' :
  EventHandler.store self = st →
  gate st w → EventHandler.do_POST self r o o' w = (res, w') → gate st w'.
Proof.
  intros <- Hg Hrun.
  destruct (do_POST_world self r o o' w (proj1 Hg))
    as (res0 & h' & dy' & evs & Hw & Hok' & Hcase).
  rewrite Hw in Hrun. simplify_eq. apply gate_step; auto.
  - intros id. destruct Hcase as [(_ & -> & _)|(d & evs' & -> & Hst & _ & Hct & _)]; [by left|].
    apply status_200 in Hst as [_ H2]. rewrite Hct. destruct (terminates d).
    + rewrite lookup_delete_is_Some. intros [_ ?]. by left.
    + rewrite lookup_insert_is_Some. intros [<-|[_ ?]]; [right|by left].
      unfold non_numeric in H2. by apply negb_false_iff in H2.
  - intros e He Hr. exfalso.
    assert (Hnr : is_run e = false); [|congruence]. clear Hr.
    destruct Hcase as [(_ & _ & _ & Hall & _)|(d & evs' & _ & _ & -> & _ & Hfin)].
    { by apply (is_answer_not_run evs). }
    apply elem_of_cons in He as [->|He]; [by destruct (terminates d)|].
    destruct Hfin as [(_ & _ & _ & ->)|(_ & _ & Hall & _)].
    + apply elem_of_cons in He as [->|He]; [done|]. unfold signal in He.
      destruct (EventHandler.app_ref self); [|by apply elem_of_nil in He].
      by apply list_elem_of_singleton in He as ->.
    + by apply (is_answer_not_run evs').
Qed.

Lemma gate_rebuild st app w res w' :
  TerminalFocusApp.store app = st →
  gate st w → TerminalFocusApp._rebuild_menu app w = (res, w') → gate st w'.
Proof.
  intros <- Hg Hrun.
  destruct (_rebuild_menu_spec app w (proj1 Hg)) as (h' & b & mn & sk & Hrb & _ & Hok' & Hct & _ & Hf).
  rewrite Hrb in Hrun. simplify_eq. apply gate_step; auto.
  - intros id. rewrite Hct. by left.
  - intros e ->%list_elem_of_singleton. done.
Qed.

Lemma gate_mark_then_rebuild st app w res w' :
  TerminalFocusApp.store app = st →
  gate st w →
  (SessionStore.mark_all_seen (TerminalFocusApp.store app);;
   TerminalFocusApp._rebuild_menu app) w = (res, w') →
  gate st w'.
Proof.
  intros E Hg Hrun. subst st.
  destruct (mark_all_seen_spec (TerminalFocusApp.store app) w (proj1 Hg))
    as (h1 & Hmark & Hok1 & Hct1 & _).
  rewrite (bind_Ok _ _ _ _ _ Hmark) in Hrun.
  eapply (gate_rebuild _ app); [done| |exact Hrun].
  destruct Hg as (Hok & Hst & Hmn & Htr). apply gate_step; auto.
  - by split.
  - intros id. rewrite Hct1, lookup_fmap. intros [d Hd]. left.
    apply fmap_Some in Hd as (d0 & -> & _). eauto.
  - intros e ->%list_elem_of_singleton. done.
Qed.

Lemma gate_react st handler app i w res w' :
  EventHandler.store handler = st → TerminalFocusApp.store app = st →
  gate st w → react handler app i w = (res, w') → gate st w'.
Proof.
  intros Eh Ea Hg Hrun. destruct i as [r o1 o2| |index o|]; simpl in Hrun.
  - by apply (gate_do_POST st handler r o1 o2 w res).
  - destruct (dirty w) eqn:Hd.
    + rewrite _poll_for_updates_dirty in Hrun by done.
      apply (gate_rebuild st app (set_dirty false w) res); [done| |done].
      destruct Hg as (? & ? & ? & ?). by split.
    + rewrite _poll_for_updates_clean in Hrun by done. by simplify_eq.
  - rewrite (bind_Ok _ _ w (clicked index w) w) in Hrun by done.
    destruct (clicked index w) as [[wid|]|] eqn:Hc; try (by unfold mret, M_ret in Hrun; simplify_eq).
    assert (Hwid : isdigit wid = true).
    { destruct Hg as (_ & _ & Hmn & _). apply Hmn. unfold clicked in Hc.
      destruct (menu w !! index) as [[label cb|]|] eqn:Hi; [|done..]. subst cb.
      exists label. by apply list_elem_of_lookup_2 in Hi. }
    assert (Hg1 : gate st (log (osascript wid) w)).
    { apply gate_step; auto; [by destruct Hg|].
      intros e ->%list_elem_of_singleton _. eauto. }
    unfold TerminalFocusApp._make_click_handler in Hrun.
    destruct (focus_terminal_window wid o w) as [[[]|e] wf] eqn:Hfoc.
    + assert (wf = log (osascript wid) w) as ->
        by (by rewrite <- (focus_terminal_window_world wid o w), Hfoc).
      rewrite (bind_Ok _ _ _ _ _ Hfoc) in Hrun.
      by apply (gate_mark_then_rebuild st app (log (osascript wid) w) res).
    + assert (wf = log (osascript wid) w) as ->
        by (by rewrite <- (focus_terminal_window_world wid o w), Hfoc).
      rewrite (bind_Raise _ _ _ _ _ Hfoc) in Hrun. by simplify_eq.
  - by apply (gate_mark_then_rebuild st app w res).
Qed.

Lemma gate_for_each st handler app ins w res w' :
  EventHandler.store handler = st → TerminalFocusApp.store app = st →
  gate st w → for_each ins (react handler app) w = (res, w') → gate st w'.
Proof.
  intros Eh Ea. revert w. induction ins as [|i ins IH]; intros w Hg Hrun.
  - simpl in Hrun. unfold mret, M_ret in Hrun. by simplify_eq.
  - simpl in Hrun. destruct (react handler app i w) as [[[]|e] w1] eqn:Hi.
    + rewrite (bind_Ok _ _ _ _ _ Hi) in Hrun. eauto using gate_react.
    + rewrite (bind_Raise _ _ _ _ _ Hi) in Hrun. simplify_eq. eauto using gate_react.
Qed.

(** The same when the program goes on after an input that raises. *)
Lemma gate_for_each_on st handler app ins w res w' :
  EventHandler.store handler = st → TerminalFocusApp.store app = st →
  gate st w → for_each ins (λ i, attempt (react handler app i)) w = (res, w') → gate st w'.
Proof.
  intros Eh Ea. revert w. induction ins as [|i ins IH]; intros w Hg Hrun.
  - simpl in Hrun. unfold mret, M_ret in Hrun. by simplify_eq.
  - simpl in Hrun. unfold mbind, M_bind, attempt in Hrun. simpl in Hrun.
    apply (IH (snd (react handler app i w))); [|done].
    apply (gate_react st handler app i w (fst (react handler app i w))); [done|done|done|].
    by destruct (react handler app i w).
Qed.

End gate.

(** X14: whatever is sent to the program, every command it runs is the
    [osascript] call of [focus_terminal_window] on an id that [str.isdigit]
    accepts, and every id in the store is such an id.  This holds of the
    program that stops at the first input that raises, and of the one that
    goes on with the next input. *)
Theorem isdigit_gate ins :
  gate store1 (snd (run ins)) ∧
  (∀ argv timeout, Subprocess_run argv timeout ∈ trace (snd (run ins)) →
    ∃ id, isdigit id = true ∧ timeout = 5%Z ∧
          argv = [lit "osascript"; lit "-e"; script id]) ∧
  gate store1 (run_on ins) ∧
  (∀ argv timeout, Subprocess_run argv timeout ∈ trace (run_on ins) →
    ∃ id, isdigit id = true ∧ timeout = 5%Z ∧
          argv = [lit "osascript"; lit "-e"; script id]).
Proof.
  set (w1 := World (<[1%positive := ∅]> ∅) false (lit "0") [] [] []).
  assert (Hmain : main world0 = (Ok (handler1, app1), w1)) by (by vm_compute).
  assert (Hg1 : gate store1 w1).
  { split; [exact store1_ok|]. split; [|split].
    - intros id [d Hd]. by vm_compute in Hd.
    - intros id [label Hin]. by apply elem_of_nil in Hin.
    - intros e He. by apply elem_of_nil in He. }
  assert (Hg : gate store1 (snd (run ins))).
  { unfold run. rewrite (bind_Ok _ _ _ _ _ Hmain).
    destruct (for_each ins (react handler1 app1) w1) as [res w'] eqn:Hrun.
    by apply (gate_for_each store1 handler1 app1 ins w1 res w'). }
  assert (Hg' : gate store1 (run_on ins)).
  { unfold run_on. rewrite (bind_Ok _ _ _ _ _ Hmain).
    destruct (for_each ins (λ i, attempt (react handler1 app1 i)) w1) as [res w'] eqn:Hrun.
    by apply (gate_for_each_on store1 handler1 app1 ins w1 res w'). }
  assert (Hcmd : ∀ w, gate store1 w → ∀ argv timeout, Subprocess_run argv timeout ∈ trace w →
    ∃ id, isdigit id = true ∧ timeout = 5%Z ∧ argv = [lit "osascript"; lit "-e"; script id]).
  { intros w (_ & _ & _ & Htr) argv timeout Hin.
    destruct (Htr _ Hin eq_refl) as (id & Hid & E).
    unfold osascript in E. simplify_eq. eauto. }
  split; [done|]. split; [by apply Hcmd|]. split; [done|by apply Hcmd].
Qed.

(** * More on the store *)

Lemma contents_init (h : gmap loc (gmap pystr value)) r :
  h !! r = Some ∅ → contents h (VRef r) = ∅.
Proof.
  intros Hr. apply map_eq. intros k.
  by rewrite (contents_lookup h r ∅), !lookup_empty.
Qed.

(** X1: a store made by [__init__], in any world, takes any sequence of
    calls without raising and keeps its invariant; what it holds afterwards
    is what the same calls give on a plain map, [count()] is the size of
    that map, [has_unseen()] tells whether some entry of it is unseen, and
    [get_all()] returns a copy of it. *)
Theorem store_follows_map_model w cs :
  ∃ self w0 w',
    SessionStore.__init__ w = (Ok self, w0) ∧
    for_each cs (run_call self) w0 = (Ok tt, w') ∧
    store_ok self (heap w') ∧
    contents (heap w') (SessionStore._sessions self) = apply_calls cs ∅ ∧
    SessionStore.count self w' = (Ok (size (apply_calls cs ∅)), w') ∧
    (∃ b, SessionStore.has_unseen self w' = (Ok b, w') ∧
          (b = true ↔ map_Exists (λ _ d, d !! lit "unseen" = Some (VBool true))
                        (apply_calls cs ∅))) ∧
    (∃ snap w'', SessionStore.get_all self w' = (Ok snap, w'') ∧
                 contents (heap w'') snap = apply_calls cs ∅).
Proof.
  destruct (store_ok_init w) as (self & w0 & Hinit & Hok0).
  assert (Hc0 : contents (heap w0) (SessionStore._sessions self) = ∅).
  { unfold SessionStore.__init__, alloc, mbind, M_bind, mret, M_ret in Hinit.
    simplify_eq. simpl. apply contents_init, lookup_insert_eq. }
  destruct (run_calls_spec self cs w0 Hok0) as (w' & Hrun & Hok' & Hct & _).
  rewrite Hc0 in Hct.
  exists self, w0, w'. split; [done|]. split; [done|]. split; [done|]. split; [done|].
  split; [|split].
  - rewrite <- Hct. by apply count_spec.
  - rewrite <- Hct. by apply has_unseen_spec.
  - destruct (get_all_spec self w' Hok') as (snap & h'' & Hget & _ & _ & _ & _ & Hsn & _).
    exists snap, (set_heap h'' w'). split; [done|]. simpl. by rewrite Hsn.
Qed.

(** X2: [remove(id)] returns whether or not [id] is stored.  It deletes the
    entry of [id] and leaves every other entry as it was; [count()] drops by
    one when [id] was stored and stays the same when it was not, the store
    then holding exactly what it held; removing [id] again changes
    nothing. *)
Theorem remove_deletes_one self w id :
  store_ok self (heap w) →
  let s := contents (heap w) (SessionStore._sessions self) in
  ∃ w1 w2,
    SessionStore.remove self id w = (Ok tt, w1) ∧
    contents (heap w1) (SessionStore._sessions self) = delete id s ∧
    (∀ id', id' ≠ id → contents (heap w1) (SessionStore._sessions self) !! id' = s !! id') ∧
    (is_Some (s !! id) →
       SessionStore.count self w = (Ok (S (size (delete id s))), w) ∧
       SessionStore.count self w1 = (Ok (size (delete id s)), w1)) ∧
    (s !! id = None →
       contents (heap w1) (SessionStore._sessions self) = s ∧
       fst (SessionStore.count self w1) = fst (SessionStore.count self w)) ∧
    SessionStore.remove self id w1 = (Ok tt, w2) ∧
    contents (heap w2) (SessionStore._sessions self) =
      contents (heap w1) (SessionStore._sessions self).
Proof.
  intros Hok s.
  destruct (remove_spec self w id Hok) as (h1 & Hrm & Hok1 & Hct1 & _).
  set (w1 := World h1 (dirty w) (title w) (menu w) (session_keys w)
                (trace w ++ [Call_remove id])) in *.
  destruct (remove_spec self w1 id Hok1) as (h2 & Hrm2 & _ & Hct2 & _).
  fold s in Hct1. eexists w1, _. split; [done|]. split; [done|]. split; [|split; [|split]].
  - intros id' Hne. cbn [heap w1]. rewrite Hct1. by apply lookup_delete_ne.
  - intros [d Hd]. rewrite (count_spec self w Hok), (count_spec self w1 Hok1).
    cbn [heap w1]. rewrite Hct1. fold s. split; [|done]. do 2 f_equal.
    rewrite map_size_delete, Hd. destruct (size s) eqn:Hs; [|done].
    apply map_size_empty_inv in Hs. rewrite Hs in Hd. by rewrite lookup_empty in Hd.
  - intros Hnone. rewrite (count_spec self w Hok), (count_spec self w1 Hok1).
    cbn [heap w1 fst]. rewrite Hct1. fold s. by rewrite delete_id.
  - split; [exact Hrm2|]. cbn [heap w1]. rewrite Hct2. cbn [heap w1]. rewrite Hct1.
    apply delete_id, lookup_delete_eq.
Qed.

Lemma remove_deletes_one_witness :
  ∃ w1, SessionStore.remove store1 (lit "100") world2 = (Ok tt, w1) ∧
        SessionStore.count store1 w1 = (Ok 1%nat, w1).
Proof.
  destruct (remove_deletes_one store1 world2 (lit "100") world2_ok)
    as (w1 & w2 & Hrm & _ & _ & Hin & _).
  exists w1. split; [exact Hrm|].
  destruct Hin as [_ Hc]; [eexists; by vm_compute|].
  rewrite Hc. by vm_compute.
Defined.

(** X3: upserting a list of entries whose ids are pairwise distinct and not
    yet stored returns, adds one session per entry, so that [count()] grows
    by the length of the list, stores each entry under its id as unseen, and
    leaves every other session as it was. *)
Theorem upsert_all_counts self entries w :
  store_ok self (heap w) →
  NoDup entries.*1 →
  (∀ id, id ∈ entries.*1 → contents (heap w) (SessionStore._sessions self) !! id = None) →
  ∃ w',
    upsert_all self entries w = (Ok tt, w') ∧
    SessionStore.count self w' =
      (Ok (size (contents (heap w) (SessionStore._sessions self)) + length entries)%nat, w') ∧
    (∀ id t m, (id, (t, m)) ∈ entries →
       contents (heap w') (SessionStore._sessions self) !! id =
         Some (SessionStore.session_dict t m true)) ∧
    (∀ id, id ∉ entries.*1 →
       contents (heap w') (SessionStore._sessions self) !! id =
         contents (heap w) (SessionStore._sessions self) !! id).
Proof.
  intros Hok Hnd Hnew.
  assert (G : ∃ w', upsert_all self entries w = (Ok tt, w') ∧ store_ok self (heap w') ∧
    size (contents (heap w') (SessionStore._sessions self)) =
      (size (contents (heap w) (SessionStore._sessions self)) + length entries)%nat ∧
    (∀ id t m, (id, (t, m)) ∈ entries →
       contents (heap w') (SessionStore._sessions self) !! id =
         Some (SessionStore.session_dict t m true)) ∧
    (∀ id, id ∉ entries.*1 →
       contents (heap w') (SessionStore._sessions self) !! id =
         contents (heap w) (SessionStore._sessions self) !! id)).
  { revert w Hok Hnew. induction entries as [|[id [t m]] entries IH]; intros w Hok Hnew.
    - exists w. split; [done|]. split; [done|]. split; [simpl; lia|]. split; [|done].
      intros id t m Hin. by apply elem_of_nil in Hin.
    - apply NoDup_cons in Hnd as [Hid Hnd].
      destruct (upsert_spec self w id t m Hok) as (h1 & Hup & Hok1 & Hct1 & _).
      set (w1 := World h1 (dirty w) (title w) (menu w) (session_keys w)
                    (trace w ++ [Call_upsert id t m])) in *.
      destruct (IH Hnd w1 Hok1) as (w' & Hrun & Hok' & Hsz & Hin & Hout).
      { intros id' Hid'. cbn [heap w1]. rewrite Hct1, lookup_insert_ne.
        - apply Hnew. by right.
        - by intros ->. }
      exists w'. split; [|split; [done|split; [|split]]].
      + unfold upsert_all. simpl. by rewrite (bind_Ok _ _ _ _ _ Hup).
      + rewrite Hsz. cbn [heap w1]. rewrite Hct1, map_size_insert_None; [simpl; lia|].
        apply Hnew. by left.
      + intros id' t' m' [E|Hin']%elem_of_cons.
        * simplify_eq. rewrite Hout by done. cbn [heap w1]. rewrite Hct1.
          apply lookup_insert_eq.
        * by apply Hin.
      + intros id' Hid'. apply not_elem_of_cons in Hid' as [Hne Hid'].
        rewrite Hout by done. cbn [heap w1]. rewrite Hct1. by apply lookup_insert_ne. }
  destruct G as (w' & Hrun & Hok' & Hsz & Hin & Hout).
  exists w'. split; [done|]. split; [|done].
  rewrite (count_spec self w' Hok'). by rewrite Hsz.
Qed.

Lemma upsert_all_counts_witness :
  ∃ w', upsert_all store1
          [(lit "100", (lit "a", lit "b")); (lit "200", (lit "c", lit "d"));
           (lit "300", (lit "e", lit "f"))] world1 = (Ok tt, w') ∧
        SessionStore.count store1 w' = (Ok 3%nat, w').
Proof.
  destruct (upsert_all_counts store1
              [(lit "100", (lit "a", lit "b")); (lit "200", (lit "c", lit "d"));
               (lit "300", (lit "e", lit "f"))] world1 store1_ok)
    as (w' & Hrun & Hc & _).
  - cbn. repeat (apply NoDup_cons; split; [|]); [| | |apply NoDup_nil_2];
      intros H; repeat (apply elem_of_cons in H as [H|H]; [by vm_compute in H|]);
      by apply elem_of_nil in H.
  - intros id _. by vm_compute.
  - exists w'. split; [exact Hrun|exact Hc].
Defined.

(** Mutations of one structure leave a separate one as it was. *)
Lemma mutations_leave snap v ms w res w' :
  separate (heap w) snap v →
  for_each ms (mutate snap) w = (res, w') →
  separate (heap w') snap v ∧ contents (heap w') v = contents (heap w) v.
Proof.
  revert w. induction ms as [|mu ms IH]; intros w Hsep Hrun.
  - simpl in Hrun. unfold mret, M_ret in Hrun. by simplify_eq.
  - destruct (mutate_confined snap mu w) as (r1 & h1 & Hmu & Hcf); [by destruct Hsep|].
    destruct (separate_confined _ _ _ _ Hsep Hcf) as [Hsep1 Hct1].
    simpl in Hrun. destruct r1 as [[]|e].
    + rewrite (bind_Ok _ _ _ _ _ Hmu) in Hrun.
      destruct (IH (set_heap h1 w) Hsep1 Hrun) as [? Hct]. split; [done|].
      rewrite Hct. apply Hct1.
    + rewrite (bind_Raise _ _ _ _ _ Hmu) in Hrun. by simplify_eq.
Qed.

(** X6: two calls of [get_all] return two different objects that share no
    dict: whatever is done to one of the two results, the other still holds
    what the store held when it was taken. *)
Theorem snapshots_independent self w :
  store_ok self (heap w) →
  ∃ snap1 w1 snap2 w2,
    SessionStore.get_all self w = (Ok snap1, w1) ∧
    SessionStore.get_all self w1 = (Ok snap2, w2) ∧
    snap1 ≠ snap2 ∧
    (∀ ms res w3, for_each ms (mutate snap2) w2 = (res, w3) →
       contents (heap w3) snap1 = contents (heap w) (SessionStore._sessions self)) ∧
    (∀ ms res w3, for_each ms (mutate snap1) w2 = (res, w3) →
       contents (heap w3) snap2 = contents (heap w) (SessionStore._sessions self)).
Proof.
  intros Hok.
  destruct (get_all_spec self w Hok) as (snap1 & h1 & Hget1 & Hok1 & Hsub1 & Hnew1 & Hcl1 & Hct1 & _).
  destruct (get_all_spec self (set_heap h1 w) Hok1)
    as (snap2 & h2 & Hget2 & Hok2 & Hsub2 & Hnew2 & Hcl2 & Hct2 & _).
  cbn [heap set_heap] in *.
  destruct (extends_confined (heap w) h1 (SessionStore._sessions self)) as [_ Hst1];
    [by apply store_ok_closed|done|].
  destruct (extends_confined h1 h2 snap1 Hcl1 Hsub2) as [(_ & Hre1 & Hcl1') Hs1].
  assert (Hsep : separate h2 snap2 snap1).
  { split; [done|]. split; [done|]. intros l Hl2 Hl1. apply Hnew2 in Hl2.
    destruct (Hre1 l Hl1) as [Hold|Hnone].
    - destruct Hcl1 as [_ C]. destruct (C l Hold). congruence.
    - destruct Hcl1' as [_ C]. destruct (C l Hl1) as [d Hd].
      destruct Hl1 as (r & dr & -> & Hdr & Hl').
      destruct Hcl1 as [[d1 Hd1] C1]. simpl in Hd1.
      rewrite (Hsub2 _ _ Hd1) in Hdr. simplify_eq.
      destruct Hl' as [->|[k Hk]]; [congruence|].
      destruct (C1 l) as [? ?]; [eauto using reach_ref|]. congruence. }
  exists snap1, (set_heap h1 w), snap2, (set_heap h2 (set_heap h1 w)).
  split; [done|]. split; [done|]. split; [|split].
  - intros ->. destruct Hsep as (_ & [[d Hd] _] & Hdis).
    destruct snap2 as [| |r]; try done. simpl in Hd.
    apply (Hdis r); eauto using reach_root.
  - intros ms res w3 Hrun.
    destruct (mutations_leave snap2 snap1 ms (set_heap h2 (set_heap h1 w)) res w3 Hsep Hrun)
      as [_ Hc].
    rewrite Hc. cbn [heap set_heap]. by rewrite Hs1, Hct1.
  - intros ms res w3 Hrun.
    destruct (mutations_leave snap1 snap2 ms (set_heap h2 (set_heap h1 w)) res w3
                (separate_sym _ _ _ Hsep) Hrun) as [_ Hc].
    rewrite Hc. cbn [heap set_heap]. by rewrite Hct2, Hst1.
Qed.

Lemma snapshots_independent_witness :
  ∃ snap1 w1 snap2 w2,
    SessionStore.get_all store1 world2 = (Ok snap1, w1) ∧
    SessionStore.get_all store1 w1 = (Ok snap2, w2) ∧
    snap1 ≠ snap2.
Proof.
  destruct (snapshots_independent store1 world2 world2_ok)
    as (snap1 & w1 & snap2 & w2 & H1 & H2 & Hne & _).
  exists snap1, w1, snap2, w2. split; [exact H1|]. split; [exact H2|exact Hne].
Defined.

(** * More on the request handler *)

Section more_strings.
Implicit Types (s : pystr) (c : codepoint).



Lemma strip_whitespace s : forallb isspace s = true → strip s = [].
Proof.
  intros Hs. rewrite <- (app_nil_r s). change (s ++ []) with (s ++ [] ++ []).
  by rewrite strip_pad.
Qed.





End more_strings.

Section more_handler.
Implicit Types (self : EventHandler.t) (d : gmap pystr jvalue) (w : world).

Lemma statuses_app tr tr' : statuses (tr ++ tr') = statuses tr ++ statuses tr'.
Proof. apply omap_app. Qed.

Lemma statuses_signal self : statuses (signal self) = [].
Proof. unfold signal. by destruct (EventHandler.app_ref self). Qed.

Lemma field_blank d key : blank (d !! key) → field d key = [].
Proof.
  unfold field. intros [->|(ws & -> & Hws)]; [done|]. simpl. by apply strip_whitespace.
Qed.

(** X4: a request whose [window_id] or [event_title] is absent, or is a
    string of whitespace only, is turned down with 400 "window_id and
    event_title are required", whatever else it holds. *)
Theorem blank_field_is_missing self d w :
  blank (d !! lit "window_id") ∨ blank (d !! lit "event_title") →
  rejected self (Loaded (Dict d)) w 400 (lit "window_id and event_title are required").
Proof.
  intros Hb. apply rejected_answer. intros o o'. apply do_POST_missing. unfold missing.
  destruct Hb as [Hb|Hb]; rewrite (field_blank _ _ Hb); [done|].
  by rewrite orb_true_r.
Qed.

Lemma blank_field_is_missing_witness :
  rejected handler1 (Loaded (Dict build_blank_id)) world2 400
    (lit "window_id and event_title are required").
Proof.
  apply blank_field_is_missing. left. right. exists (lit "   ").
  split; reflexivity.
Defined.



(** X7: [do_POST] answers a request in full at most once, whatever the
    writes of its answers do.  When no write raises, every request whose
    reading raises nothing, or an [Exception], is answered exactly once and
    [do_POST] returns: the status is 200 for a record that passes the two
    checks, 400 for one that fails a check or for text that is not JSON, and
    500 otherwise.  A fault in reading that is not an [Exception] is not
    caught: [do_POST] raises it, answers nothing and changes nothing.  When
    the client has gone, so that every write raises the same [Exception],
    nothing is answered in full and that exception escapes [do_POST]. *)
Theorem answered_once self r o o' w :
  store_ok (EventHandler.store self) (heap w) →
  (∃ sts, statuses (trace (snd (EventHandler.do_POST self r o o' w))) =
            statuses (trace w) ++ sts ∧ (length sts ≤ 1)%nat) ∧
  ((∀ e, r = Raised e → is_Exception e = true) →
   ∃ w', EventHandler.do_POST self r Answered Answered w = (Ok tt, w') ∧
         statuses (trace w') = statuses (trace w) ++ [status_of r]) ∧
  (∀ e, r = Raised e → is_Exception e = false →
        EventHandler.do_POST self r o o' w = (Raise e, w)) ∧
  (∀ e, (∀ e0, r = Raised e0 → is_Exception e0 = true) →
        is_Exception e = true →
        o = Head_fails e ∨ o = Body_fails e →
        o' = Head_fails e ∨ o' = Body_fails e →
        fst (EventHandler.do_POST self r o o' w) = Raise e ∧
        statuses (trace (snd (EventHandler.do_POST self r o o' w))) = statuses (trace w)).
Proof.
  intros Hok. split; [|split; [|split]].
  - destruct (do_POST_world self r o o' w Hok) as (res & h' & dy' & evs & -> & _ & Hcase).
    cbn [snd trace]. exists (statuses evs). split; [apply statuses_app|].
    destruct Hcase as [(_ & _ & _ & _ & Hlen)|(d & evs' & _ & _ & -> & _ & Hfin)]; [done|].
    assert (Hcall : ∀ ev, (∃ id, ev = Call_remove id) ∨ (∃ id t m, ev = Call_upsert id t m) →
              statuses (ev :: evs') = statuses evs').
    { by intros ev [[id ->]|(id & t & m & ->)]. }
    rewrite Hcall by (destruct (terminates d); eauto).
    destruct Hfin as [(_ & _ & _ & ->)|(_ & _ & _ & Hlen)]; [|done].
    change (Respond 200 ?b :: ?l) with ([Respond 200 b] ++ l).
    rewrite statuses_app, statuses_signal. simpl. lia.
  - intros Hex. destruct r as [[d|ty]|e]; simpl.
    + destruct (missing d) eqn:H1.
      { eexists. split; [by rewrite do_POST_missing|]. simpl. by rewrite statuses_app. }
      destruct (non_numeric d) eqn:H2.
      { eexists. split; [by rewrite do_POST_non_numeric|]. simpl. by rewrite statuses_app. }
      destruct (do_POST_dispatch self d w Hok H1 H2) as (h' & Hrun & _).
      eexists. split; [exact (Hrun Answered)|]. cbn [trace orb].
      rewrite !statuses_app, statuses_signal, app_nil_r. by destruct (terminates d).
    + eexists. split; [by rewrite do_POST_NotDict|]. simpl. by rewrite statuses_app.
    + pose proof (Hex e eq_refl) as He.
      destruct e as [[] msg]; try discriminate He;
        (eexists; split; [reflexivity|]; cbn [trace log]; by rewrite statuses_app).
  - intros e -> He. rewrite do_POST_Raised. unfold on_except. rewrite He.
    destruct (is_class JSONDecodeError e) eqn:Hc; [|done].
    by destruct e as [[] msg].
  - intros e Hex He Ho Ho'.
    assert (Hans : ∀ status_code body w1,
      fst (answer status_code body o o' w1) = Raise e ∧
      statuses (trace (snd (answer status_code body o o' w1))) = statuses (trace w1)).
    { intros status_code body w1. unfold answer. destruct Ho as [->| ->].
      - destruct (on_except_gone e e o' w1 He Ho') as (evs & -> & Hst).
        cbn [fst snd trace]. by rewrite statuses_app, Hst, app_nil_r.
      - destruct (on_except_gone e e o' (log (Respond_head status_code) w1) He Ho')
          as (evs & -> & Hst).
        cbn [fst snd trace log]. by rewrite !statuses_app, Hst, !app_nil_r. }
    destruct r as [[d|ty]|e0].
    + destruct (missing d) eqn:H1; [rewrite do_POST_missing by done; apply Hans|].
      destruct (non_numeric d) eqn:H2; [rewrite do_POST_non_numeric by done; apply Hans|].
      destruct (do_POST_dispatch self d w Hok H1 H2) as (h' & _ & _ & _ & _ & Hfail).
      rewrite Hfail by (by destruct Ho as [->| ->]).
      match goal with |- context [answer ?s ?b o o' ?wm] =>
        destruct (Hans s b wm) as [-> ->]
      end.
      split; [done|]. cbn [trace]. rewrite statuses_app.
      destruct (terminates d); cbn; by rewrite app_nil_r.
    + rewrite do_POST_NotDict.
      change (EventHandler._respond 500 ?b o' w) with
        (on_except (Exn AttributeError
           (lit "'" ++ type_name ty ++ lit "' object has no attribute 'get'")) o' w).
      destruct (on_except_gone (Exn AttributeError
          (lit "'" ++ type_name ty ++ lit "' object has no attribute 'get'")) e o' w
          eq_refl Ho') as (evs & -> & Hst).
      cbn [fst snd trace]. by rewrite statuses_app, Hst, app_nil_r.
    + rewrite do_POST_Raised.
      destruct (on_except_gone e0 e o' w (Hex e0 eq_refl) Ho') as (evs & -> & Hst).
      cbn [fst snd trace]. by rewrite statuses_app, Hst, app_nil_r.
Qed.

Lemma answered_once_witness :
  ∃ w', EventHandler.do_POST handler1 (Loaded (Dict build_abc)) Answered Answered world2 =
          (Ok tt, w') ∧
        statuses (trace w') = statuses (trace world2) ++ [400%Z].
Proof.
  destruct (answered_once handler1 (Loaded (Dict build_abc)) Answered Answered world2 world2_ok)
    as (_ & H & _).
  destruct H as (w' & Hrun & Hst); [intros e He; discriminate He|].
  exists w'. split; [exact Hrun|exact Hst].
Defined.

(** X8: [do_POST] never touches the title, the menu or the session keys,
    whatever the writes of its answers do.  It changes the heap and the
    refresh flag only for a request that passes the checks, and with no app
    attached it never changes the flag and sends no signal. *)
Theorem do_POST_leaves_menu_alone self r o o' w :
  store_ok (EventHandler.store self) (heap w) →
  let w' := snd (EventHandler.do_POST self r o o' w) in
  title w' = title w ∧ menu w' = menu w ∧ session_keys w' = session_keys w ∧
  (status_of r ≠ 200%Z → heap w' = heap w ∧ dirty w' = dirty w) ∧
  (EventHandler.app_ref self = None →
     dirty w' = dirty w ∧ signals (trace w') = signals (trace w)).
Proof.
  intros Hok w'. unfold w'. clear w'.
  destruct (do_POST_world self r o o' w Hok) as (res & h' & dy' & evs & -> & _ & Hcase).
  cbn [snd title menu session_keys heap dirty trace].
  split; [done|]. split; [done|]. split; [done|].
  destruct Hcase as [(Hst & -> & -> & Hall & _)|(d & evs' & -> & Hst & -> & _ & Hfin)].
  - split; [done|]. intros _. split; [done|].
    rewrite signals_app, (signals_answers _ Hall). lia.
  - split; [intros Hne; by destruct Hne|]. intros Hnone.
    assert (Hcall : ∀ ev l, is_signal ev = false → signals (ev :: l) = signals l).
    { intros ev l Hev. unfold signals. simpl. by rewrite Hev. }
    rewrite signals_app, Hcall by (by destruct (terminates d)).
    destruct Hfin as [(_ & _ & -> & ->)|(_ & -> & Hall & _)].
    + rewrite Hnone. split; [done|]. rewrite Hcall by done. unfold signal.
      rewrite Hnone. unfold signals. simpl. lia.
    + split; [done|]. rewrite (signals_answers _ Hall). lia.
Qed.

Lemma do_POST_leaves_menu_alone_witness :
  dirty (snd (EventHandler.do_POST handler0 (Loaded (Dict build_started)) Answered Answered
                world2)) =
    dirty world2.
Proof.
  destruct (do_POST_leaves_menu_alone handler0 (Loaded (Dict build_started))
              Answered Answered world2 world2_ok)
    as (_ & _ & _ & _ & H).
  by destruct (H eq_refl).
Defined.

(** X9: registering an id and then terminating it, by two requests that
    pass the checks and carry the same trimmed id, is answered 200 twice and
    leaves the store without that id: as it was before the two requests when
    the id was not registered, and otherwise with that one session gone.
    The store is left so whatever the writes of the two answers do. *)
Theorem register_then_terminate self d1 d2 w :
  store_ok (EventHandler.store self) (heap w) →
  missing d1 = false → non_numeric d1 = false → terminates d1 = false →
  missing d2 = false → terminates d2 = true →
  field d2 (lit "window_id") = field d1 (lit "window_id") →
  let id := field d1 (lit "window_id") in
  let s := contents (heap w) (SessionStore._sessions (EventHandler.store self)) in
  ∃ w1 w2,
    (∀ o', EventHandler.do_POST self (Loaded (Dict d1)) Answered o' w = (Ok tt, w1)) ∧
    (∀ o', EventHandler.do_POST self (Loaded (Dict d2)) Answered o' w1 = (Ok tt, w2)) ∧
    statuses (trace w2) = statuses (trace w) ++ [200; 200]%Z ∧
    contents (heap w2) (SessionStore._sessions (EventHandler.store self)) = delete id s ∧
    (s !! id = None →
     contents (heap w2) (SessionStore._sessions (EventHandler.store self)) = s) ∧
    (∀ o1 o1' o2 o2',
       contents
         (heap (snd (EventHandler.do_POST self (Loaded (Dict d2)) o2 o2'
                       (snd (EventHandler.do_POST self (Loaded (Dict d1)) o1 o1' w)))))
         (SessionStore._sessions (EventHandler.store self)) = delete id s).
Proof.
  intros Hok H1 H2 H3 H4 H5 Hid id s.
  assert (H6 : non_numeric d2 = false) by (unfold non_numeric in *; by rewrite Hid).
  destruct (do_POST_dispatch self d1 w Hok H1 H2) as (h1 & Hrun1 & Hok1 & Hct1 & _).
  rewrite H3 in Hrun1, Hct1. fold id s in Hrun1, Hct1.
  pose proof (Hrun1 Answered) as Hr1.
  match type of Hr1 with _ = (_, ?x) => set (w1 := x) in * end.
  destruct (do_POST_dispatch self d2 w1 Hok1 H4 H6) as (h2 & Hrun2 & _ & Hct2 & _).
  rewrite H5, Hid in Hrun2, Hct2. fold id in Hrun2, Hct2. cbn [heap w1] in Hct2.
  eexists w1, _. split; [exact Hrun1|]. split; [exact Hrun2|].
  cbn [trace heap w1]. split; [|split; [|split]].
  - rewrite !statuses_app, !statuses_signal, !app_nil_r. simpl.
    by rewrite <- app_assoc.
  - rewrite Hct2, Hct1. apply delete_insert_eq.
  - intros Hnone. rewrite Hct2, Hct1, delete_insert_eq. by apply delete_id.
  - intros o1 o1' o2 o2'.
    destruct (do_POST_contents self d1 o1 o1' w Hok H1 H2) as [Hoka Hcta].
    destruct (do_POST_contents self d2 o2 o2' _ Hoka H4 H6) as [_ Hctb].
    rewrite Hctb, Hcta, H3, H5, Hid. apply delete_insert_eq.
Qed.

Lemma register_then_terminate_witness :
  ∃ w1 w2,
    EventHandler.do_POST handler1 (Loaded (Dict build_started)) Answered Answered world2 =
      (Ok tt, w1) ∧
    EventHandler.do_POST handler1 (Loaded (Dict terminate_12345)) Answered Answered w1 =
      (Ok tt, w2) ∧
    contents (heap w2) (SessionStore._sessions store1) =
      contents (heap world2) (SessionStore._sessions store1).
Proof.
  destruct (register_then_terminate handler1 build_started terminate_12345 world2)
    as (w1 & w2 & Hr1 & Hr2 & _ & _ & Hsame & _); try (by vm_compute).
  - exact world2_ok.
  - exists w1, w2. split; [exact (Hr1 Answered)|]. split; [exact (Hr2 Answered)|].
    apply Hsame. by vm_compute.
Defined.

End more_handler.

(** * More on the menu bar app *)

Section more_app.
Implicit Types (self : TerminalFocusApp.t) (w : world) (h : gmap loc (gmap pystr value)).

Lemma session_dict_inj t m u t' m' u' :
  SessionStore.session_dict t m u = SessionStore.session_dict t' m' u' →
  t = t' ∧ m = m' ∧ u = u'.
Proof.
  intros E.
  pose proof (session_dict_title t m u) as H1. rewrite E, session_dict_title in H1.
  pose proof (session_dict_msg t m u) as H2. rewrite E, session_dict_msg in H2.
  pose proof (session_dict_unseen t m u) as H3. rewrite E, session_dict_unseen in H3.
  by simplify_eq.
Qed.

(** One iteration of the loop of [_rebuild_menu], with the label. *)
Lemma rebuild_item_label c t m u wid w :
  heap w !! c = Some (SessionStore.session_dict t m u) →
  (event_title ← getitem (VRef c) (lit "event_title");
   event_msg ← getitem (VRef c) (lit "event_msg");
   with_msg ← truthy event_msg;
   let label := TerminalFocusApp.format event_title ++
                (if (with_msg : bool) then [32; 8212; 32] ++ TerminalFocusApp.format event_msg
                 else []) in
   unseen ← getitem (VRef c) (lit "unseen");
   marked ← truthy unseen;
   let label := (if (marked : bool) then [9679; 32] else []) ++ label in
   TerminalFocusApp.menu_add (MenuItem label (Some (click_handler wid)));;
   TerminalFocusApp.session_keys_append label) w =
  (Ok tt, World (heap w) (dirty w) (title w)
            (menu w ++ [session_item wid t m u])
            (session_keys w ++ [label_of t m u]) (trace w)).
Proof.
  intros Hc.
  rewrite (bind_Ok _ _ _ _ _ (getitem_Ok _ _ _ _ _ Hc (session_dict_title t m u))).
  rewrite (bind_Ok _ _ _ _ _ (getitem_Ok _ _ _ _ _ Hc (session_dict_msg t m u))).
  rewrite (bind_Ok _ _ w (match m with [] => false | _ => true end) w) by done.
  cbv zeta.
  rewrite (bind_Ok _ _ _ _ _ (getitem_Ok _ _ _ _ _ Hc (session_dict_unseen t m u))).
  rewrite (bind_Ok _ _ w u w) by done.
  unfold session_item, label_of. by destruct m.
Qed.

(** What [_rebuild_menu] leaves: the title, the items of the sessions
    followed by the separator and Quit, the labels as session keys; the store
    is read and nothing that existed is written. *)
Lemma _rebuild_menu_full self w :
  store_ok (TerminalFocusApp.store self) (heap w) →
  let s := contents (heap w) (SessionStore._sessions (TerminalFocusApp.store self)) in
  ∃ h' b its,
    TerminalFocusApp._rebuild_menu self w =
      (Ok tt, World h' (dirty w) (title_for b (size s)) (its ++ menu_tail)
                (item_label <$> its) (trace w ++ [Rebuild_menu])) ∧
    (b = true ↔ map_Exists (λ _ d, d !! lit "unseen" = Some (VBool true)) s) ∧
    store_ok (TerminalFocusApp.store self) h' ∧
    contents h' (SessionStore._sessions (TerminalFocusApp.store self)) = s ∧
    (∀ l d, heap w !! l = Some d → h' !! l = Some d) ∧
    menu_shows its s ∧
    (size s = 0%nat → its = [MenuItem (lit "No active terminals") None]) ∧
    (size s ≠ 0%nat → length its = size s).
Proof.
  intros Hok s. destruct w as [h dy ti mn0 sk0 tr]. cbn [heap dirty trace] in *.
  set (st := TerminalFocusApp.store self) in *.
  set (tr' := tr ++ [Rebuild_menu]).
  set (wa := World h dy ti mn0 sk0 tr').
  destruct (get_all_spec st wa Hok)
    as (snap & h1 & Hget & Hok1 & Hsub & Hnew & Hcl & Hct & Hshape).
  change (heap wa) with h in Hct, Hsub, Hnew. fold s in Hct.
  destruct (extends_confined h h1 (SessionStore._sessions st)) as [Hcf Hst];
    [by apply store_ok_closed|done|]. fold s in Hst.
  set (wb := World h1 dy ti mn0 sk0 tr').
  pose proof (count_spec (SessionStore.Build snap) wb Hshape) as Hlen.
  unfold SessionStore.count in Hlen. simpl in Hlen. rewrite Hct in Hlen.
  destruct (has_unseen_spec st wb Hok1) as (b & Hun & Hb). simpl in Hb. rewrite Hst in Hb.
  set (n := size s) in *.
  set (wc := World h1 dy (title_for b n) mn0 sk0 tr').
  destruct (for_each_menu_del sk0 wc) as [mn1 Hdel].
  set (wd := World h1 dy (title_for b n) [] [] tr').
  assert (Hany : truthy snap wd = (Ok (negb (Nat.eqb n 0)), wd)).
  { pose proof (count_spec (SessionStore.Build snap) wd Hshape) as Hlen'.
    unfold SessionStore.count in Hlen'. cbn [SessionStore._sessions heap wd] in Hlen'.
    rewrite Hct in Hlen'. fold n in Hlen'.
    destruct Hshape as (r & sd & Er & _). simpl in Er. subst snap.
    unfold truthy. by rewrite (bind_Ok _ _ _ _ _ Hlen'). }
  assert (Hitems : ∃ its,
    (if negb (negb (Nat.eqb n 0)) then
       TerminalFocusApp.menu_add (MenuItem (lit "No active terminals") None);;
       TerminalFocusApp.session_keys_append (lit "No active terminals")
     else
       kvs ← items snap;
       for_each kvs (λ '(wid, info),
         event_title ← getitem info (lit "event_title");
         event_msg ← getitem info (lit "event_msg");
         with_msg ← truthy event_msg;
         let label := TerminalFocusApp.format event_title ++
                      (if (with_msg : bool)
                       then [32; 8212; 32] ++ TerminalFocusApp.format event_msg else []) in
         unseen ← getitem info (lit "unseen");
         marked ← truthy unseen;
         let label := (if (marked : bool) then [9679; 32] else []) ++ label in
         TerminalFocusApp.menu_add (MenuItem label (Some (click_handler wid)));;
         TerminalFocusApp.session_keys_append label)) wd =
      (Ok tt, World h1 dy (title_for b n) its (item_label <$> its) tr') ∧
    menu_shows its s ∧
    (n = 0%nat → its = [MenuItem (lit "No active terminals") None]) ∧
    (n ≠ 0%nat → length its = n)).
  { destruct (Nat.eqb n 0) eqn:Hn; cbn [negb].
    - apply Nat.eqb_eq in Hn. exists [MenuItem (lit "No active terminals") None].
      split; [done|]. split; [|split; [done|done]].
      apply map_size_empty_inv in Hn. intros wid label. split.
      + intros Hin. apply list_elem_of_singleton in Hin. done.
      + intros (t & m & u & Hs & _). unfold n in Hn. by rewrite Hn, lookup_empty in Hs.
    - apply Nat.eqb_neq in Hn.
      destruct Hshape as (r & sd & Er & Hr & Hall). simpl in Er. subst snap.
      rewrite (bind_Ok _ _ _ _ _ (items_Ok r sd wd Hr)).
      match goal with |- ∃ its, for_each ?kvs ?body wd = _ ∧ _ =>
        destruct (for_each_inv
          (λ done w2, ∃ its, w2 = World h1 dy (title_for b n) its (item_label <$> its) tr' ∧
             Forall2 (shown_as h1) done its)
          kvs body wd) as (w' & Hloop & its & -> & Hfa)
      end.
      + exists []. split; [done|]. constructor.
      + intros done [k v] rest w2 Ekvs (its & -> & Hfa).
        assert (Hkv : sd !! k = Some v).
        { apply elem_of_map_to_list. rewrite Ekvs. apply elem_of_app. right. by left. }
        destruct (Hall k v Hkv) as (c & t & m & u & -> & _ & Hc).
        eexists. split;
          [exact (rebuild_item_label c t m u k
                    (World h1 dy (title_for b n) its (item_label <$> its) tr') Hc)|].
        cbn [heap dirty title menu session_keys trace].
        exists (its ++ [session_item k t m u]). split; [by rewrite fmap_app|].
        apply Forall2_app; [done|]. constructor; [|constructor].
        exists c, t, m, u. by repeat split.
      + exists its. split; [done|].
        assert (Hlk : ∀ k, contents h1 (VRef r) !! k = sd !! k ≫= deref h1)
          by (intros k; by apply contents_lookup).
        split; [|split].
        * intros wid label. rewrite <- Hct, Hlk. split.
          -- intros Hin. apply list_elem_of_lookup in Hin as [i Hi].
             destruct (Forall2_lookup_r _ _ _ _ _ Hfa Hi) as ([k v] & Hkv & c & t & m & u & E1 & Hc & E2).
             simpl in E1, E2. subst v. unfold session_item in E2. simplify_eq.
             apply list_elem_of_lookup_2, elem_of_map_to_list in Hkv.
             exists t, m, u. split; [|done]. rewrite Hkv. done.
          -- intros (t & m & u & Hs & ->).
             destruct (sd !! wid) as [v|] eqn:Hv; [|done]. simpl in Hs.
             apply elem_of_map_to_list, list_elem_of_lookup in Hv as [i Hi].
             destruct (Forall2_lookup_l _ _ _ _ _ Hfa Hi) as (it & Hit & c & t' & m' & u' & E1 & Hc & E2).
             simpl in E1, E2. subst v. simpl in Hs. rewrite Hc in Hs.
             apply (inj Some), session_dict_inj in Hs as (-> & -> & ->).
             subst it. by apply list_elem_of_lookup_2 in Hit.
        * done.
        * intros _. rewrite <- (Forall2_length _ _ _ Hfa), length_map_to_list.
          pose proof (count_spec (SessionStore.Build (VRef r)) wd
                        (ex_intro _ r (ex_intro _ sd (conj eq_refl (conj Hr Hall))))) as Hc.
          unfold SessionStore.count, len in Hc.
          rewrite (bind_Ok _ _ _ _ _ (load_Ok r sd wd Hr)) in Hc.
          unfold mret, M_ret in Hc. cbn [SessionStore._sessions heap wd] in Hc.
          rewrite Hct in Hc. by injection Hc. }
  destruct Hitems as (its & Hitems & Hshow & Hzero & Hpos).
  exists h1, b, its.
  split; [|split; [done|split; [done|split; [done|split; [done|done]]]]].
  unfold TerminalFocusApp._rebuild_menu. fold st.
  rewrite (bind_Ok _ _ _ tt wa) by done.
  rewrite (bind_Ok _ _ _ _ _ Hget).
  rewrite (bind_Ok _ _ _ _ _ Hlen).
  rewrite (bind_Ok _ _ _ _ _ Hun).
  rewrite (bind_Ok _ _ wb tt wc) by done.
  rewrite (bind_Ok _ _ wc sk0 wc) by done.
  rewrite (bind_Ok _ _ _ _ _ Hdel).
  rewrite (bind_Ok _ _ _ tt (World h1 dy (title_for b n) mn1 [] tr')) by done.
  rewrite (bind_Ok _ _ _ tt wd) by done.
  rewrite (bind_Ok _ _ _ _ _ Hany).
  rewrite (bind_Ok _ _ _ _ _ Hitems).
  unfold TerminalFocusApp.menu_add, modify, mbind, M_bind, menu_tail. simpl.
  by rewrite <- app_assoc.
Qed.

Lemma menu_shows_tail its s : menu_shows its s → menu_shows (its ++ menu_tail) s.
Proof.
  intros H wid label. rewrite <- (H wid label), elem_of_app. split; [|auto].
  intros [Hin|Hin]; [done|].
  apply elem_of_cons in Hin as [Hin|Hin]; [done|].
  by apply list_elem_of_singleton in Hin.
Qed.

Lemma store_ok_session (st : SessionStore.t) h k d :
  store_ok st h → contents h (SessionStore._sessions st) !! k = Some d →
  ∃ t m u, d = SessionStore.session_dict t m u.
Proof.
  intros (root & outer & E & Hr & Hall) Hd.
  rewrite E, (contents_lookup _ _ outer) in Hd by done.
  destruct (outer !! k) as [v|] eqn:Hk; [|done].
  destruct (Hall k v Hk) as (l & t & m & u & -> & _ & Hl).
  cbn [mbind option_bind deref] in Hd. rewrite Hl in Hd.
  exists t, m, u. by apply (inj Some) in Hd.
Qed.

(** X10: [_rebuild_menu] builds the menu from the store alone, whatever
    the menu, the title and the session keys were before.  It adds one item
    for each session, which focuses the window of that session and is
    labelled with its title, then its message after a dash when there is
    one, after a dot when the session is unseen; with no session it adds the
    one item "No active terminals", which has no callback.  The separator
    and Quit follow.  The session keys are the labels of the items added, the
    title shows the unseen icon exactly when a session is unseen and then the
    number of sessions, and neither the sessions nor the refresh flag
    change. *)
Theorem rebuild_shows_sessions self w :
  store_ok (TerminalFocusApp.store self) (heap w) →
  let s := contents (heap w) (SessionStore._sessions (TerminalFocusApp.store self)) in
  ∃ w' its b,
    TerminalFocusApp._rebuild_menu self w = (Ok tt, w') ∧
    menu w' = its ++ menu_tail ∧
    session_keys w' = item_label <$> its ∧
    menu_shows its s ∧
    length its = Nat.max 1 (size s) ∧
    (size s = 0%nat → its = [MenuItem (lit "No active terminals") None]) ∧
    title w' = title_for b (size s) ∧
    (b = true ↔ map_Exists (λ _ d, d !! lit "unseen" = Some (VBool true)) s) ∧
    contents (heap w') (SessionStore._sessions (TerminalFocusApp.store self)) = s ∧
    dirty w' = dirty w.
Proof.
  intros Hok s.
  destruct (_rebuild_menu_full self w Hok)
    as (h' & b & its & Hrun & Hb & _ & Hct & _ & Hshow & Hzero & Hpos).
  subst s.
  eexists _, its, b. split; [exact Hrun|]. cbn [menu session_keys title heap dirty].
  split; [done|]. split; [done|]. split; [done|].
  split; [|split; [done|split; [done|split; [done|split; [done|done]]]]].
  match goal with |- _ = Nat.max 1 ?n => destruct (decide (n = 0%nat)) as [Hz|Hz] end.
  - rewrite (Hzero Hz), Hz. done.
  - rewrite (Hpos Hz). lia.
Qed.

Lemma rebuild_shows_sessions_witness :
  ∃ w' its,
    TerminalFocusApp._rebuild_menu app1 world2 = (Ok tt, w') ∧
    menu w' = its ++ menu_tail ∧ length its = 2%nat ∧
    title w' = title_for true 2.
Proof.
  destruct (rebuild_shows_sessions app1 world2 world2_ok)
    as (w' & its & b & Hrun & Hmn & _ & _ & Hlen & _ & Hti & Hb & _).
  assert (Hsz : size (contents (heap world2) (SessionStore._sessions store1)) = 2%nat)
    by (by vm_compute).
  change (SessionStore._sessions (TerminalFocusApp.store app1))
    with (SessionStore._sessions store1) in *.
  rewrite Hsz in Hlen, Hti.
  assert (b = true) as ->.
  { apply Hb. exists (lit "100"), (SessionStore.session_dict (lit "build") (lit "started") true).
    split; by vm_compute. }
  exists w', its. by repeat split.
Defined.

(** X11: a request that passes the checks and whose answer is written
    shows in the menu at the next tick of the timer, not before.  [do_POST]
    leaves the menu and the title as they were; the tick that follows
    rebuilds the menu and clears the flag.  After a register request the
    menu then has the item of the session, with the dot of an unseen session
    in its label, no other item focuses that window, and the title shows the
    unseen icon and the number of sessions; after a terminate request no
    item focuses the window.  A second tick changes nothing.  When a write
    of the answer raises, the store is changed all the same but the app is
    not signalled: the flag, the menu and the title stay as they were, and
    if no refresh was pending the next tick does nothing. *)
Theorem post_then_tick (handler : EventHandler.t) (app : TerminalFocusApp.t)
    (d : gmap pystr jvalue) w :
  store_ok (EventHandler.store handler) (heap w) →
  EventHandler.app_ref handler = Some app →
  TerminalFocusApp.store app = EventHandler.store handler →
  missing d = false → non_numeric d = false →
  let id := field d (lit "window_id") in
  let ti := field d (lit "event_title") in
  let ms := field d (lit "event_msg") in
  let s := contents (heap w) (SessionStore._sessions (EventHandler.store handler)) in
  (∃ w1 w2,
    (∀ o', EventHandler.do_POST handler (Loaded (Dict d)) Answered o' w = (Ok tt, w1)) ∧
    menu w1 = menu w ∧ title w1 = title w ∧
    TerminalFocusApp._poll_for_updates app w1 = (Ok tt, w2) ∧
    dirty w2 = false ∧
    (if terminates d
     then ¬ focuses (menu w2) id ∧
          ∃ b, title w2 = title_for b (size (delete id s))
     else session_item id ti ms true ∈ menu w2 ∧
          (∀ label, MenuItem label (Some (click_handler id)) ∈ menu w2 →
                    label = label_of ti ms true) ∧
          title w2 = title_for true (size (<[id := SessionStore.session_dict ti ms true]> s))) ∧
    TerminalFocusApp._poll_for_updates app w2 = (Ok tt, w2)) ∧
  (∀ o o', o ≠ Answered →
     let w1 := snd (EventHandler.do_POST handler (Loaded (Dict d)) o o' w) in
     contents (heap w1) (SessionStore._sessions (EventHandler.store handler)) =
       (if terminates d then delete id s
        else <[id := SessionStore.session_dict ti ms true]> s) ∧
     dirty w1 = dirty w ∧ menu w1 = menu w ∧ title w1 = title w ∧
     signals (trace w1) = signals (trace w) ∧
     (dirty w = false → TerminalFocusApp._poll_for_updates app w1 = (Ok tt, w1))).
Proof.
  intros Hok Happ Hst H1 H2 id ti ms s. split.
  - destruct (do_POST_dispatch handler d w Hok H1 H2) as (h1 & Hrun & Hok1 & Hct1 & _).
    fold id ti ms s in Hrun, Hct1. rewrite Happ in Hrun.
    pose proof (Hrun Answered) as Hr.
    match type of Hr with _ = (_, ?x) => set (w1 := x) in * end.
    rewrite <- Hst in Hok1, Hct1.
    destruct (_rebuild_menu_full app (set_dirty false w1) Hok1)
      as (h2 & b & its & Hrb & Hb & _ & _ & _ & Hshow & _).
    cbn [heap set_dirty w1] in Hrb, Hb, Hshow. rewrite Hct1 in Hrb, Hb, Hshow.
    apply menu_shows_tail in Hshow.
    eexists w1, _. split; [exact Hrun|]. split; [done|]. split; [done|].
    split; [rewrite (_poll_for_updates_dirty app w1) by done; exact Hrb|].
    cbn [dirty menu title set_dirty w1]. split; [done|].
    split; [|by apply _poll_for_updates_clean].
    destruct (terminates d).
    + split; [|by exists b]. intros [label Hin].
      apply Hshow in Hin as (t & m & u & Hs & _). by rewrite lookup_delete_eq in Hs.
    + split; [|split].
      * apply Hshow. exists ti, ms, true. by rewrite lookup_insert_eq.
      * intros label Hin. apply Hshow in Hin as (t & m & u & Hs & ->).
        rewrite lookup_insert_eq in Hs.
        by apply (inj Some), session_dict_inj in Hs as (-> & -> & ->).
      * assert (b = true) as -> ; [|done].
        apply Hb. exists id, (SessionStore.session_dict ti ms true).
        split; [apply lookup_insert_eq|apply session_dict_unseen].
  - intros o o' Ho.
    destruct (do_POST_contents handler d o o' w Hok H1 H2) as [_ Hct].
    destruct (do_POST_world handler (Loaded (Dict d)) o o' w Hok)
      as (res & h' & dy' & evs & Hw & _ & Hcase).
    rewrite Hw in Hct |- *. cbn [snd heap dirty menu title trace] in Hct |- *.
    destruct Hcase as [(Hne & _)|(d0 & evs' & E & _ & -> & _ & Hfin)].
    { exfalso. apply Hne. unfold status_of. by rewrite H1, H2. }
    injection E as <-.
    destruct Hfin as [(-> & _)|(_ & -> & Hall & _)]; [done|].
    split; [by destruct (terminates d)|]. split; [done|]. split; [done|]. split; [done|].
    split.
    + rewrite signals_app.
      assert (Hcall : ∀ ev l, is_signal ev = false → signals (ev :: l) = signals l).
      { intros ev l Hev. unfold signals. simpl. by rewrite Hev. }
      rewrite Hcall by (by destruct (terminates d)).
      rewrite (signals_answers _ Hall). lia.
    + intros Hd. by apply _poll_for_updates_clean.
Qed.

Lemma post_then_tick_witness :
  ∃ w1 w2,
    EventHandler.do_POST handler1 (Loaded (Dict build_started)) Answered Answered world2 =
      (Ok tt, w1) ∧
    TerminalFocusApp._poll_for_updates app1 w1 = (Ok tt, w2) ∧
    session_item (lit "12345") (lit "build") (lit "started") true ∈ menu w2.
Proof.
  destruct (post_then_tick handler1 app1 build_started world2)
    as [(w1 & w2 & Hr1 & _ & _ & Hr2 & _ & Hm & _) _]; try (by vm_compute).
  - exact world2_ok.
  - assert (Ht : terminates build_started = false) by (by vm_compute).
    rewrite Ht in Hm. destruct Hm as (Hin & _).
    exists w1, w2. split; [exact (Hr1 Answered)|]. split; [exact Hr2|exact Hin].
Defined.

(** X12: opening the menu marks every session seen and rebuilds the menu,
    through the delegate that [patch_menu_delegate] installs as through
    [_nsapp_delegate_menuWillOpen_]: afterwards every session is in the menu
    under its label without the dot, the title shows the normal icon and the
    number of sessions, and the refresh flag is as it was.  A delegate with no
    app attached does nothing. *)
Theorem menu_open_clears_unseen (dg : MenuOpenDelegate.t) w :
  (∀ app, MenuOpenDelegate.app_ref dg = Some app →
          store_ok (TerminalFocusApp.store app) (heap w)) →
  match MenuOpenDelegate.app_ref dg with
  | None => MenuOpenDelegate.menuWillOpen_ dg w = (Ok tt, w)
  | Some app =>
      let s := contents (heap w) (SessionStore._sessions (TerminalFocusApp.store app)) in
      ∃ w' its,
        MenuOpenDelegate.menuWillOpen_ dg w = (Ok tt, w') ∧
        TerminalFocusApp.menuWillOpen_ app w = (Ok tt, w') ∧
        trace w' = trace w ++ [Call_mark_all_seen; Rebuild_menu] ∧
        dirty w' = dirty w ∧
        contents (heap w') (SessionStore._sessions (TerminalFocusApp.store app)) =
          insert (lit "unseen") (VBool false) <$> s ∧
        title w' = title_for false (size s) ∧
        menu w' = its ++ menu_tail ∧
        ∀ wid label,
          MenuItem label (Some (click_handler wid)) ∈ its ↔
          ∃ t m u, s !! wid = Some (SessionStore.session_dict t m u) ∧
                   label = label_of t m false
  end.
Proof.
  intros Hdg. unfold MenuOpenDelegate.menuWillOpen_.
  destruct (MenuOpenDelegate.app_ref dg) as [app|]; [|done].
  pose proof (Hdg app eq_refl) as Hok.
  set (s := contents (heap w) (SessionStore._sessions (TerminalFocusApp.store app))).
  destruct (mark_all_seen_spec (TerminalFocusApp.store app) w Hok)
    as (h1 & Hmark & Hok1 & Hct1 & _). fold s in Hct1.
  set (w1 := World h1 (dirty w) (title w) (menu w) (session_keys w)
               (trace w ++ [Call_mark_all_seen])) in *.
  destruct (_rebuild_menu_full app w1 Hok1)
    as (h2 & b & its & Hrb & Hb & _ & Hct2 & _ & Hshow & _).
  cbn [heap w1] in Hrb, Hb, Hct2, Hshow. rewrite Hct1 in Hrb, Hb, Hct2, Hshow.
  assert (b = false) as ->.
  { destruct b; [|done]. destruct (proj1 Hb eq_refl) as (id & d & Hd & Hu).
    rewrite lookup_fmap in Hd. apply fmap_Some in Hd as (d0 & _ & ->).
    by rewrite lookup_insert_eq in Hu. }
  assert (Hrun : (SessionStore.mark_all_seen (TerminalFocusApp.store app);;
                  TerminalFocusApp._rebuild_menu app) w = 
                 (Ok tt, World h2 (dirty w) (title_for false (size s)) (its ++ menu_tail)
                           (item_label <$> its)
                           (trace w ++ [Call_mark_all_seen; Rebuild_menu]))).
  { rewrite (bind_Ok _ _ _ _ _ Hmark), Hrb. cbn [dirty trace w1].
    by rewrite map_size_fmap, <- app_assoc. }
  eexists _, its. split; [exact Hrun|]. split; [exact Hrun|].
  cbn [trace dirty heap title menu].
  split; [done|]. split; [done|]. split; [done|]. split; [done|]. split; [done|].
  intros wid label. rewrite (Hshow wid label), lookup_fmap. split.
  - intros (t & m & u & Hs & ->).
    apply fmap_Some in Hs as (d0 & Hd0 & E).
    destruct (store_ok_session _ _ _ _ Hok Hd0) as (t0 & m0 & u0 & ->).
    rewrite session_dict_seen in E.
    apply session_dict_inj in E as (-> & -> & ->). eauto.
  - intros (t & m & u & Hs & ->). exists t, m, false. rewrite Hs. cbn [fmap option_fmap option_map].
    by rewrite session_dict_seen.
Qed.

Lemma menu_open_clears_unseen_witness :
  ∃ w', MenuOpenDelegate.menuWillOpen_ (MenuOpenDelegate.Build (Some app1)) world2 = (Ok tt, w') ∧
        title w' = title_for false 2.
Proof.
  pose proof (menu_open_clears_unseen (MenuOpenDelegate.Build (Some app1)) world2) as H.
  cbn [MenuOpenDelegate.app_ref] in H.
  destruct H as (w' & its & Hrun & _ & _ & _ & _ & Hti & _).
  - intros app E. injection E as <-. exact world2_ok.
  - exists w'. split; [exact Hrun|].
    assert (Hsz : size (contents (heap world2) (SessionStore._sessions store1)) = 2%nat)
      by (by vm_compute).
    change (SessionStore._sessions (TerminalFocusApp.store app1))
      with (SessionStore._sessions store1) in Hti.
    by rewrite Hsz in Hti.
Defined.

(** X13: [focus_terminal_window] catches [Exception], which covers
    [TimeoutExpired], and nothing wider.  When [subprocess.run] raises
    something that is not an [Exception], such as [KeyboardInterrupt],
    [focus_terminal_window] raises it, and so does the handler of a click:
    the handler stops there, so that no session is marked seen and the menu
    is not rebuilt. *)
Theorem click_interrupted self window_id e w :
  is_Exception e = false →
  focus_terminal_window window_id (Failed e) w = (Raise e, log (osascript window_id) w) ∧
  TerminalFocusApp._make_click_handler self window_id (Failed e) w =
    (Raise e, log (osascript window_id) w).
Proof.
  intros He.
  assert (Hf : focus_terminal_window window_id (Failed e) w =
               (Raise e, log (osascript window_id) w)).
  { unfold focus_terminal_window, try_except, subprocess_run.
    rewrite (bind_Ok _ _ w tt (log (osascript window_id) w)) by done.
    by destruct e as [[] msg]. }
  split; [done|]. unfold TerminalFocusApp._make_click_handler.
  by rewrite (bind_Raise _ _ _ _ _ Hf).
Qed.

Lemma click_interrupted_witness :
  TerminalFocusApp._make_click_handler app1 (lit "100")
    (Failed (Exn KeyboardInterrupt (lit ""))) world2 =
    (Raise (Exn KeyboardInterrupt (lit "")), log (osascript (lit "100")) world2).
Proof.
  by destruct (click_interrupted app1 (lit "100") (Exn KeyboardInterrupt (lit "")) world2 eq_refl).
Defined.

End more_app.

(** * The menu follows the store *)

Section sync.
Implicit Types (st : SessionStore.t) (w : world).

Lemma in_sync_log st w e : in_sync st w → in_sync st (log e w).
Proof. by intros [Hok Hm]. Qed.

Lemma in_sync_do_POST st handler app r o o' w res w' :
  EventHandler.store handler = st → EventHandler.app_ref handler = Some app →
  delivered (POST r o o') = true →
  in_sync st w → EventHandler.do_POST handler r o o' w = (res, w') → in_sync st w'.
Proof.
  intros <- Happ Hdl Hs Hrun.
  destruct (do_POST_world handler r o o' w (proj1 Hs))
    as (res0 & h' & dy' & evs & Hw & Hok' & Hcase).
  rewrite Hw in Hrun. simplify_eq. split; [done|]. cbn [dirty menu heap].
  destruct Hcase as [(_ & -> & -> & _)|(d & evs' & -> & Hst & _ & _ & Hfin)].
  - by destruct Hs.
  - destruct Hfin as [(_ & _ & -> & _)|(Ho & _)].
    + by rewrite Happ.
    + exfalso. apply Ho. unfold delivered in Hdl. rewrite Hst in Hdl.
      by destruct o.
Qed.

(** Whatever the flag, a rebuild leaves the menu showing the store. *)
Lemma in_sync_rebuild st app w res w' :
  TerminalFocusApp.store app = st → store_ok st (heap w) →
  TerminalFocusApp._rebuild_menu app w = (res, w') →
  store_ok st (heap w') ∧
  menu_shows (menu w') (contents (heap w') (SessionStore._sessions st)).
Proof.
  intros <- Hok Hrun.
  destruct (_rebuild_menu_full app w Hok) as (h' & b & its & Hrb & _ & Hok' & Hct & _ & Hshow & _).
  rewrite Hrb in Hrun. simplify_eq. cbn [heap menu]. split; [done|].
  rewrite Hct. by apply menu_shows_tail.
Qed.

Lemma in_sync_mark_then_rebuild st app w res w' :
  TerminalFocusApp.store app = st → store_ok st (heap w) →
  (SessionStore.mark_all_seen (TerminalFocusApp.store app);;
   TerminalFocusApp._rebuild_menu app) w = (res, w') →
  in_sync st w'.
Proof.
  intros E Hok Hrun. subst st.
  destruct (mark_all_seen_spec (TerminalFocusApp.store app) w Hok) as (h1 & Hmark & Hok1 & _).
  rewrite (bind_Ok _ _ _ _ _ Hmark) in Hrun.
  match type of Hrun with _ ?w1 = _ =>
    destruct (in_sync_rebuild _ app w1 res w' eq_refl Hok1 Hrun) as [Hok' Hshow]
  end.
  by split.
Qed.

Lemma in_sync_react st handler app i w res w' :
  EventHandler.store handler = st → EventHandler.app_ref handler = Some app →
  TerminalFocusApp.store app = st →
  delivered i = true →
  in_sync st w → react handler app i w = (res, w') → in_sync st w'.
Proof.
  intros Eh Happ Ea Hdl Hs Hrun. destruct i as [r o1 o2| |index o|]; cbn [react] in Hrun.
  - by apply (in_sync_do_POST st handler app r o1 o2 w res).
  - destruct (dirty w) eqn:Hd.
    + rewrite _poll_for_updates_dirty in Hrun by done.
      destruct (in_sync_rebuild st app (set_dirty false w) res w' Ea (proj1 Hs) Hrun)
        as [Hok' Hshow].
      by split.
    + rewrite _poll_for_updates_clean in Hrun by done. by simplify_eq.
  - rewrite (bind_Ok _ _ w (clicked index w) w) in Hrun by done.
    destruct (clicked index w) as [[wid|]|] eqn:Hc;
      try (by unfold mret, M_ret in Hrun; simplify_eq).
    unfold TerminalFocusApp._make_click_handler in Hrun.
    destruct (focus_terminal_window wid o w) as [[[]|e] wf] eqn:Hfoc.
    + assert (wf = log (osascript wid) w) as ->
        by (by rewrite <- (focus_terminal_window_world wid o w), Hfoc).
      rewrite (bind_Ok _ _ _ _ _ Hfoc) in Hrun.
      apply (in_sync_mark_then_rebuild st app (log (osascript wid) w) res); [done| |done].
      by destruct Hs.
    + assert (wf = log (osascript wid) w) as ->
        by (by rewrite <- (focus_terminal_window_world wid o w), Hfoc).
      rewrite (bind_Raise _ _ _ _ _ Hfoc) in Hrun. simplify_eq. by apply in_sync_log.
  - apply (in_sync_mark_then_rebuild st app w res); [done| |done]. by destruct Hs.
Qed.

Lemma in_sync_for_each_on st handler app ins w res w' :
  EventHandler.store handler = st → EventHandler.app_ref handler = Some app →
  TerminalFocusApp.store app = st →
  forallb delivered ins = true →
  in_sync st w → for_each ins (λ i, attempt (react handler app i)) w = (res, w') →
  in_sync st w'.
Proof.
  intros Eh Happ Ea. revert w. induction ins as [|i ins IH]; intros w Hdl Hs Hrun.
  - simpl in Hrun. unfold mret, M_ret in Hrun. by simplify_eq.
  - simpl in Hdl. apply andb_true_iff in Hdl as [Hi Hdl].
    simpl in Hrun. unfold mbind, M_bind, attempt in Hrun. simpl in Hrun.
    apply (IH (snd (react handler app i w))); [done| |done].
    apply (in_sync_react st handler app i w (fst (react handler app i w))); try done.
    by destruct (react handler app i w).
Qed.

End sync.

(** X15: the menu follows the store as long as the answer of every request
    that passes the checks is written.  Take the program from [main] on and
    any sequence of requests, ticks of the timer, clicks and openings of the
    menu, each handled to its end before the next, the program going on
    after an input that raises.  Whenever no refresh is pending afterwards,
    the items of the menu that focus a window are those of the sessions in
    the store, each under the label of its session as it is now: no session
    is missing from the menu, no item is left for a session that is gone,
    and a dot is shown exactly for the unseen ones. *)
Theorem menu_in_sync ins :
  forallb delivered ins = true →
  dirty (run_on ins) = false →
  ∀ wid label,
    MenuItem label (Some (click_handler wid)) ∈ menu (run_on ins) ↔
    ∃ t m u,
      contents (heap (run_on ins)) (SessionStore._sessions store1) !! wid =
        Some (SessionStore.session_dict t m u) ∧
      label = label_of t m u.
Proof.
  intros Hdl.
  assert (Hs : in_sync store1 (run_on ins)).
  { unfold run_on.
    set (w1 := World (<[1%positive := ∅]> ∅) false (lit "0") [] [] []).
    assert (Hmain : main world0 = (Ok (handler1, app1), w1)) by (by vm_compute).
    rewrite (bind_Ok _ _ _ _ _ Hmain).
    destruct (for_each ins (λ i, attempt (react handler1 app1 i)) w1) as [res w'] eqn:Hrun.
    apply (in_sync_for_each_on store1 handler1 app1 ins w1 res w');
      [done|done|done|done| |done].
    split; [exact store1_ok|]. intros _ wid label. split.
    - intros Hin. by apply elem_of_nil in Hin.
    - intros (t & m & u & Hd & _). by vm_compute in Hd. }
  intros Hd. exact (proj2 Hs Hd).
Qed.

Lemma menu_in_sync_witness :
  session_item (lit "12345") (lit "build") (lit "started") true ∈
    menu (run_on [POST (Loaded (Dict build_started)) Answered Answered; Tick]).
Proof.
  apply (menu_in_sync [POST (Loaded (Dict build_started)) Answered Answered; Tick]).
  - reflexivity.
  - by vm_compute.
  - exists (lit "build"), (lit "started"), true. split; [by vm_compute|reflexivity].
Defined.
